(** * Talent showcase: client-side aggregation and moderation handlers

    A shallow embedding of the React components [TalentShowcase],
    [AdminTalentShowcase], [AdminUserManagement] and [AdminHostelServices].
    The record store (Supabase) is an external collaborator: it is modelled
    as a value of type [Db.t] reached only through logged round trips, each
    of which may be answered with an error. Component state ([useState]
    cells) and the browser surroundings (clock, [alert], [console.error])
    are threaded through a state-and-exception monad. *)

From Stdlib Require Import ZArith NArith String Ascii List Lia Bool.
From stdpp Require Import base list strings gmap pretty.

Local Open Scope string_scope.
Local Open Scope Z_scope.
Local Open Scope list_scope.

(** ** JavaScript strings and arrays

    A JavaScript string is kept as the bytes of its UTF-8 encoding.
    [includes], [startsWith] and [split] compare bytes, which on well-formed
    text finds the same occurrences as comparing UTF-16 code units;
    [toLowerCase] and [trim] work on the code points the bytes encode. *)
Module JS.

Definition byte (c : ascii) : N := N_of_ascii c.

Definition bytes (l : list N) : string :=
  fold_right (fun n s => String (ascii_of_N n) s) "" l.

(** The UTF-8 encoding of a code point. Values from [0x110000] on stand for
    the bytes of a string that belong to no well-formed sequence. *)
Definition encode (c : N) : string :=
  (if c <? 0x80 then bytes [c]
   else if c <? 0x800 then bytes [0xC0 + c / 64; 0x80 + c mod 64]
   else if c <? 0x10000 then
     bytes [0xE0 + c / 4096; 0x80 + (c / 64) mod 64; 0x80 + c mod 64]
   else if c <? 0x110000 then
     bytes [0xF0 + c / 262144; 0x80 + (c / 4096) mod 64; 0x80 + (c / 64) mod 64;
            0x80 + c mod 64]
   else bytes [c - 0x110000])%N.

(** [String.fromCodePoint(...l)] *)
Definition fromCodePoints (l : list N) : string :=
  fold_right (fun c s => encode c +:+ s) "" l.

(** A continuation byte. *)
Definition continues (n : N) : bool := ((0x80 <=? n) && (n <? 0xC0))%N.

(** The code points of a string, [[...s].map(c => c.codePointAt(0))]: one
    for each sequence of one to four bytes in shortest form, and one past
    [0x110000] for each byte that starts no such sequence. *)
Fixpoint codePoints (s : string) : list N :=
  match s with
  | EmptyString => []
  | String a s1 =>
      let n := byte a in
      let stray := (0x110000 + n)%N :: codePoints s1 in
      if (n <? 0x80)%N then n :: codePoints s1
      else
        match s1 with
        | String b s2 =>
            let m := byte b in
            let c2 := ((n - 0xC0) * 64 + (m - 0x80))%N in
            if ((0xC2 <=? n) && (n <? 0xE0))%N && continues m then c2 :: codePoints s2
            else
              match s2 with
              | String c s3 =>
                  let k := byte c in
                  let c3 := (((n - 0xE0) * 64 + (m - 0x80)) * 64 + (k - 0x80))%N in
                  if ((0xE0 <=? n) && (n <? 0xF0))%N && continues m && continues k
                     && (0x800 <=? c3)%N
                  then c3 :: codePoints s3
                  else
                    match s3 with
                    | String d s4 =>
                        let j := byte d in
                        let c4 := ((((n - 0xF0) * 64 + (m - 0x80)) * 64 + (k - 0x80)) * 64
                                   + (j - 0x80))%N in
                        if ((0xF0 <=? n) && (n <? 0xF5))%N && continues m && continues k
                           && continues j && (0x10000 <=? c4)%N && (c4 <? 0x110000)%N
                        then c4 :: codePoints s4
                        else stray
                    | EmptyString => stray
                    end
              | EmptyString => stray
              end
        | EmptyString => stray
        end
  end.

(** [String.prototype.toLowerCase] follows the Unicode default case
    conversion. The simple mappings of UnicodeData.txt (Unicode 14): every
    [step]-th code point from [first] to [last] has a lower-case form, that
    of [first] being [target] and the others following at the same
    distance. *)
Definition lower_ranges : list (N * N * N * N) :=
 [
  (0x41, 0x5A, 1, 0x61); (0xC0, 0xD6, 1, 0xE0); (0xD8, 0xDE, 1, 0xF8);
  (0x100, 0x12E, 2, 0x101); (0x132, 0x136, 2, 0x133); (0x139, 0x147, 2, 0x13A);
  (0x14A, 0x176, 2, 0x14B); (0x178, 0x178, 1, 0xFF); (0x179, 0x17D, 2, 0x17A);
  (0x181, 0x181, 1, 0x253); (0x182, 0x184, 2, 0x183); (0x186, 0x186, 1, 0x254);
  (0x187, 0x187, 1, 0x188); (0x189, 0x18A, 1, 0x256); (0x18B, 0x18B, 1, 0x18C);
  (0x18E, 0x18E, 1, 0x1DD); (0x18F, 0x18F, 1, 0x259); (0x190, 0x190, 1, 0x25B);
  (0x191, 0x191, 1, 0x192); (0x193, 0x193, 1, 0x260); (0x194, 0x194, 1, 0x263);
  (0x196, 0x196, 1, 0x269); (0x197, 0x197, 1, 0x268); (0x198, 0x198, 1, 0x199);
  (0x19C, 0x19C, 1, 0x26F); (0x19D, 0x19D, 1, 0x272); (0x19F, 0x19F, 1, 0x275);
  (0x1A0, 0x1A4, 2, 0x1A1); (0x1A6, 0x1A6, 1, 0x280); (0x1A7, 0x1A7, 1, 0x1A8);
  (0x1A9, 0x1A9, 1, 0x283); (0x1AC, 0x1AC, 1, 0x1AD); (0x1AE, 0x1AE, 1, 0x288);
  (0x1AF, 0x1AF, 1, 0x1B0); (0x1B1, 0x1B2, 1, 0x28A); (0x1B3, 0x1B5, 2, 0x1B4);
  (0x1B7, 0x1B7, 1, 0x292); (0x1B8, 0x1B8, 1, 0x1B9); (0x1BC, 0x1BC, 1, 0x1BD);
  (0x1C4, 0x1C4, 1, 0x1C6); (0x1C5, 0x1C5, 1, 0x1C6); (0x1C7, 0x1C7, 1, 0x1C9);
  (0x1C8, 0x1C8, 1, 0x1C9); (0x1CA, 0x1CA, 1, 0x1CC); (0x1CB, 0x1DB, 2, 0x1CC);
  (0x1DE, 0x1EE, 2, 0x1DF); (0x1F1, 0x1F1, 1, 0x1F3); (0x1F2, 0x1F4, 2, 0x1F3);
  (0x1F6, 0x1F6, 1, 0x195); (0x1F7, 0x1F7, 1, 0x1BF); (0x1F8, 0x21E, 2, 0x1F9);
  (0x220, 0x220, 1, 0x19E); (0x222, 0x232, 2, 0x223); (0x23A, 0x23A, 1, 0x2C65);
  (0x23B, 0x23B, 1, 0x23C); (0x23D, 0x23D, 1, 0x19A); (0x23E, 0x23E, 1, 0x2C66);
  (0x241, 0x241, 1, 0x242); (0x243, 0x243, 1, 0x180); (0x244, 0x244, 1, 0x289);
  (0x245, 0x245, 1, 0x28C); (0x246, 0x24E, 2, 0x247); (0x370, 0x372, 2, 0x371);
  (0x376, 0x376, 1, 0x377); (0x37F, 0x37F, 1, 0x3F3); (0x386, 0x386, 1, 0x3AC);
  (0x388, 0x38A, 1, 0x3AD); (0x38C, 0x38C, 1, 0x3CC); (0x38E, 0x38F, 1, 0x3CD);
  (0x391, 0x3A1, 1, 0x3B1); (0x3A3, 0x3AB, 1, 0x3C3); (0x3CF, 0x3CF, 1, 0x3D7);
  (0x3D8, 0x3EE, 2, 0x3D9); (0x3F4, 0x3F4, 1, 0x3B8); (0x3F7, 0x3F7, 1, 0x3F8);
  (0x3F9, 0x3F9, 1, 0x3F2); (0x3FA, 0x3FA, 1, 0x3FB); (0x3FD, 0x3FF, 1, 0x37B);
  (0x400, 0x40F, 1, 0x450); (0x410, 0x42F, 1, 0x430); (0x460, 0x480, 2, 0x461);
  (0x48A, 0x4BE, 2, 0x48B); (0x4C0, 0x4C0, 1, 0x4CF); (0x4C1, 0x4CD, 2, 0x4C2);
  (0x4D0, 0x52E, 2, 0x4D1); (0x531, 0x556, 1, 0x561); (0x10A0, 0x10C5, 1, 0x2D00);
  (0x10C7, 0x10C7, 1, 0x2D27); (0x10CD, 0x10CD, 1, 0x2D2D); (0x13A0, 0x13EF, 1, 0xAB70);
  (0x13F0, 0x13F5, 1, 0x13F8); (0x1C90, 0x1CBA, 1, 0x10D0); (0x1CBD, 0x1CBF, 1, 0x10FD);
  (0x1E00, 0x1E94, 2, 0x1E01); (0x1E9E, 0x1E9E, 1, 0xDF); (0x1EA0, 0x1EFE, 2, 0x1EA1);
  (0x1F08, 0x1F0F, 1, 0x1F00); (0x1F18, 0x1F1D, 1, 0x1F10); (0x1F28, 0x1F2F, 1, 0x1F20);
  (0x1F38, 0x1F3F, 1, 0x1F30); (0x1F48, 0x1F4D, 1, 0x1F40); (0x1F59, 0x1F5F, 2, 0x1F51);
  (0x1F68, 0x1F6F, 1, 0x1F60); (0x1F88, 0x1F8F, 1, 0x1F80); (0x1F98, 0x1F9F, 1, 0x1F90);
  (0x1FA8, 0x1FAF, 1, 0x1FA0); (0x1FB8, 0x1FB9, 1, 0x1FB0); (0x1FBA, 0x1FBB, 1, 0x1F70);
  (0x1FBC, 0x1FBC, 1, 0x1FB3); (0x1FC8, 0x1FCB, 1, 0x1F72); (0x1FCC, 0x1FCC, 1, 0x1FC3);
  (0x1FD8, 0x1FD9, 1, 0x1FD0); (0x1FDA, 0x1FDB, 1, 0x1F76); (0x1FE8, 0x1FE9, 1, 0x1FE0);
  (0x1FEA, 0x1FEB, 1, 0x1F7A); (0x1FEC, 0x1FEC, 1, 0x1FE5); (0x1FF8, 0x1FF9, 1, 0x1F78);
  (0x1FFA, 0x1FFB, 1, 0x1F7C); (0x1FFC, 0x1FFC, 1, 0x1FF3); (0x2126, 0x2126, 1, 0x3C9);
  (0x212A, 0x212A, 1, 0x6B); (0x212B, 0x212B, 1, 0xE5); (0x2132, 0x2132, 1, 0x214E);
  (0x2160, 0x216F, 1, 0x2170); (0x2183, 0x2183, 1, 0x2184); (0x24B6, 0x24CF, 1, 0x24D0);
  (0x2C00, 0x2C2F, 1, 0x2C30); (0x2C60, 0x2C60, 1, 0x2C61); (0x2C62, 0x2C62, 1, 0x26B);
  (0x2C63, 0x2C63, 1, 0x1D7D); (0x2C64, 0x2C64, 1, 0x27D); (0x2C67, 0x2C6B, 2, 0x2C68);
  (0x2C6D, 0x2C6D, 1, 0x251); (0x2C6E, 0x2C6E, 1, 0x271); (0x2C6F, 0x2C6F, 1, 0x250);
  (0x2C70, 0x2C70, 1, 0x252); (0x2C72, 0x2C72, 1, 0x2C73); (0x2C75, 0x2C75, 1, 0x2C76);
  (0x2C7E, 0x2C7F, 1, 0x23F); (0x2C80, 0x2CE2, 2, 0x2C81); (0x2CEB, 0x2CED, 2, 0x2CEC);
  (0x2CF2, 0x2CF2, 1, 0x2CF3); (0xA640, 0xA66C, 2, 0xA641); (0xA680, 0xA69A, 2, 0xA681);
  (0xA722, 0xA72E, 2, 0xA723); (0xA732, 0xA76E, 2, 0xA733); (0xA779, 0xA77B, 2, 0xA77A);
  (0xA77D, 0xA77D, 1, 0x1D79); (0xA77E, 0xA786, 2, 0xA77F); (0xA78B, 0xA78B, 1, 0xA78C);
  (0xA78D, 0xA78D, 1, 0x265); (0xA790, 0xA792, 2, 0xA791); (0xA796, 0xA7A8, 2, 0xA797);
  (0xA7AA, 0xA7AA, 1, 0x266); (0xA7AB, 0xA7AB, 1, 0x25C); (0xA7AC, 0xA7AC, 1, 0x261);
  (0xA7AD, 0xA7AD, 1, 0x26C); (0xA7AE, 0xA7AE, 1, 0x26A); (0xA7B0, 0xA7B0, 1, 0x29E);
  (0xA7B1, 0xA7B1, 1, 0x287); (0xA7B2, 0xA7B2, 1, 0x29D); (0xA7B3, 0xA7B3, 1, 0xAB53);
  (0xA7B4, 0xA7C2, 2, 0xA7B5); (0xA7C4, 0xA7C4, 1, 0xA794); (0xA7C5, 0xA7C5, 1, 0x282);
  (0xA7C6, 0xA7C6, 1, 0x1D8E); (0xA7C7, 0xA7C9, 2, 0xA7C8); (0xA7D0, 0xA7D0, 1, 0xA7D1);
  (0xA7D6, 0xA7D8, 2, 0xA7D7); (0xA7F5, 0xA7F5, 1, 0xA7F6); (0xFF21, 0xFF3A, 1, 0xFF41);
  (0x10400, 0x10427, 1, 0x10428); (0x104B0, 0x104D3, 1, 0x104D8); (0x10570, 0x1057A, 1, 0x10597);
  (0x1057C, 0x1058A, 1, 0x105A3); (0x1058C, 0x10592, 1, 0x105B3); (0x10594, 0x10595, 1, 0x105BB);
  (0x10C80, 0x10CB2, 1, 0x10CC0); (0x118A0, 0x118BF, 1, 0x118C0); (0x16E40, 0x16E5F, 1, 0x16E60);
  (0x1E900, 0x1E921, 1, 0x1E922)
 ]%N.

Definition lower_simple (c : N) : N :=
  match List.find (fun r : N * N * N * N =>
                     let '(first, last, step, _) := r in
                     ((first <=? c) && (c <=? last) && ((c - first) mod step =? 0))%N)
                  lower_ranges with
  | Some (first, _, _, target) => (target + (c - first))%N
  | None => c
  end.

(** The code points with the property Case_Ignorable, and the cased letters
    among the others: the context of a capital sigma is read from them. *)
Definition case_ignorable_ranges : list (N * N) :=
 [
  (0x27, 0x27); (0x2E, 0x2E); (0x3A, 0x3A); (0x5E, 0x5E);
  (0x60, 0x60); (0xA8, 0xA8); (0xAD, 0xAD); (0xAF, 0xAF);
  (0xB4, 0xB4); (0xB7, 0xB8); (0x2B0, 0x36F); (0x374, 0x375);
  (0x37A, 0x37A); (0x384, 0x385); (0x387, 0x387); (0x483, 0x489);
  (0x559, 0x559); (0x55F, 0x55F); (0x591, 0x5BD); (0x5BF, 0x5BF);
  (0x5C1, 0x5C2); (0x5C4, 0x5C5); (0x5C7, 0x5C7); (0x5F4, 0x5F4);
  (0x600, 0x605); (0x610, 0x61A); (0x61C, 0x61C); (0x640, 0x640);
  (0x64B, 0x65F); (0x670, 0x670); (0x6D6, 0x6DD); (0x6DF, 0x6E8);
  (0x6EA, 0x6ED); (0x70F, 0x70F); (0x711, 0x711); (0x730, 0x74A);
  (0x7A6, 0x7B0); (0x7EB, 0x7F5); (0x7FA, 0x7FA); (0x7FD, 0x7FD);
  (0x816, 0x82D); (0x859, 0x85B); (0x888, 0x888); (0x890, 0x891);
  (0x898, 0x89F); (0x8C9, 0x902); (0x93A, 0x93A); (0x93C, 0x93C);
  (0x941, 0x948); (0x94D, 0x94D); (0x951, 0x957); (0x962, 0x963);
  (0x971, 0x971); (0x981, 0x981); (0x9BC, 0x9BC); (0x9C1, 0x9C4);
  (0x9CD, 0x9CD); (0x9E2, 0x9E3); (0x9FE, 0x9FE); (0xA01, 0xA02);
  (0xA3C, 0xA3C); (0xA41, 0xA42); (0xA47, 0xA48); (0xA4B, 0xA4D);
  (0xA51, 0xA51); (0xA70, 0xA71); (0xA75, 0xA75); (0xA81, 0xA82);
  (0xABC, 0xABC); (0xAC1, 0xAC5); (0xAC7, 0xAC8); (0xACD, 0xACD);
  (0xAE2, 0xAE3); (0xAFA, 0xAFF); (0xB01, 0xB01); (0xB3C, 0xB3C);
  (0xB3F, 0xB3F); (0xB41, 0xB44); (0xB4D, 0xB4D); (0xB55, 0xB56);
  (0xB62, 0xB63); (0xB82, 0xB82); (0xBC0, 0xBC0); (0xBCD, 0xBCD);
  (0xC00, 0xC00); (0xC04, 0xC04); (0xC3C, 0xC3C); (0xC3E, 0xC40);
  (0xC46, 0xC48); (0xC4A, 0xC4D); (0xC55, 0xC56); (0xC62, 0xC63);
  (0xC81, 0xC81); (0xCBC, 0xCBC); (0xCBF, 0xCBF); (0xCC6, 0xCC6);
  (0xCCC, 0xCCD); (0xCE2, 0xCE3); (0xD00, 0xD01); (0xD3B, 0xD3C);
  (0xD41, 0xD44); (0xD4D, 0xD4D); (0xD62, 0xD63); (0xD81, 0xD81);
  (0xDCA, 0xDCA); (0xDD2, 0xDD4); (0xDD6, 0xDD6); (0xE31, 0xE31);
  (0xE34, 0xE3A); (0xE46, 0xE4E); (0xEB1, 0xEB1); (0xEB4, 0xEBC);
  (0xEC6, 0xEC6); (0xEC8, 0xECD); (0xF18, 0xF19); (0xF35, 0xF35);
  (0xF37, 0xF37); (0xF39, 0xF39); (0xF71, 0xF7E); (0xF80, 0xF84);
  (0xF86, 0xF87); (0xF8D, 0xF97); (0xF99, 0xFBC); (0xFC6, 0xFC6);
  (0x102D, 0x1030); (0x1032, 0x1037); (0x1039, 0x103A); (0x103D, 0x103E);
  (0x1058, 0x1059); (0x105E, 0x1060); (0x1071, 0x1074); (0x1082, 0x1082);
  (0x1085, 0x1086); (0x108D, 0x108D); (0x109D, 0x109D); (0x10FC, 0x10FC);
  (0x135D, 0x135F); (0x1712, 0x1714); (0x1732, 0x1733); (0x1752, 0x1753);
  (0x1772, 0x1773); (0x17B4, 0x17B5); (0x17B7, 0x17BD); (0x17C6, 0x17C6);
  (0x17C9, 0x17D3); (0x17D7, 0x17D7); (0x17DD, 0x17DD); (0x180B, 0x180F);
  (0x1843, 0x1843); (0x1885, 0x1886); (0x18A9, 0x18A9); (0x1920, 0x1922);
  (0x1927, 0x1928); (0x1932, 0x1932); (0x1939, 0x193B); (0x1A17, 0x1A18);
  (0x1A1B, 0x1A1B); (0x1A56, 0x1A56); (0x1A58, 0x1A5E); (0x1A60, 0x1A60);
  (0x1A62, 0x1A62); (0x1A65, 0x1A6C); (0x1A73, 0x1A7C); (0x1A7F, 0x1A7F);
  (0x1AA7, 0x1AA7); (0x1AB0, 0x1ACE); (0x1B00, 0x1B03); (0x1B34, 0x1B34);
  (0x1B36, 0x1B3A); (0x1B3C, 0x1B3C); (0x1B42, 0x1B42); (0x1B6B, 0x1B73);
  (0x1B80, 0x1B81); (0x1BA2, 0x1BA5); (0x1BA8, 0x1BA9); (0x1BAB, 0x1BAD);
  (0x1BE6, 0x1BE6); (0x1BE8, 0x1BE9); (0x1BED, 0x1BED); (0x1BEF, 0x1BF1);
  (0x1C2C, 0x1C33); (0x1C36, 0x1C37); (0x1C78, 0x1C7D); (0x1CD0, 0x1CD2);
  (0x1CD4, 0x1CE0); (0x1CE2, 0x1CE8); (0x1CED, 0x1CED); (0x1CF4, 0x1CF4);
  (0x1CF8, 0x1CF9); (0x1D2C, 0x1D6A); (0x1D78, 0x1D78); (0x1D9B, 0x1DFF);
  (0x1FBD, 0x1FBD); (0x1FBF, 0x1FC1); (0x1FCD, 0x1FCF); (0x1FDD, 0x1FDF);
  (0x1FED, 0x1FEF); (0x1FFD, 0x1FFE); (0x200B, 0x200F); (0x2018, 0x2019);
  (0x2024, 0x2024); (0x2027, 0x2027); (0x202A, 0x202E); (0x2060, 0x2064);
  (0x2066, 0x206F); (0x2071, 0x2071); (0x207F, 0x207F); (0x2090, 0x209C);
  (0x20D0, 0x20F0); (0x2C7C, 0x2C7D); (0x2CEF, 0x2CF1); (0x2D6F, 0x2D6F);
  (0x2D7F, 0x2D7F); (0x2DE0, 0x2DFF); (0x2E2F, 0x2E2F); (0x3005, 0x3005);
  (0x302A, 0x302D); (0x3031, 0x3035); (0x303B, 0x303B); (0x3099, 0x309E);
  (0x30FC, 0x30FE); (0xA015, 0xA015); (0xA4F8, 0xA4FD); (0xA60C, 0xA60C);
  (0xA66F, 0xA672); (0xA674, 0xA67D); (0xA67F, 0xA67F); (0xA69C, 0xA69F);
  (0xA6F0, 0xA6F1); (0xA700, 0xA721); (0xA770, 0xA770); (0xA788, 0xA78A);
  (0xA7F2, 0xA7F4); (0xA7F8, 0xA7F9); (0xA802, 0xA802); (0xA806, 0xA806);
  (0xA80B, 0xA80B); (0xA825, 0xA826); (0xA82C, 0xA82C); (0xA8C4, 0xA8C5);
  (0xA8E0, 0xA8F1); (0xA8FF, 0xA8FF); (0xA926, 0xA92D); (0xA947, 0xA951);
  (0xA980, 0xA982); (0xA9B3, 0xA9B3); (0xA9B6, 0xA9B9); (0xA9BC, 0xA9BD);
  (0xA9CF, 0xA9CF); (0xA9E5, 0xA9E6); (0xAA29, 0xAA2E); (0xAA31, 0xAA32);
  (0xAA35, 0xAA36); (0xAA43, 0xAA43); (0xAA4C, 0xAA4C); (0xAA70, 0xAA70);
  (0xAA7C, 0xAA7C); (0xAAB0, 0xAAB0); (0xAAB2, 0xAAB4); (0xAAB7, 0xAAB8);
  (0xAABE, 0xAABF); (0xAAC1, 0xAAC1); (0xAADD, 0xAADD); (0xAAEC, 0xAAED);
  (0xAAF3, 0xAAF4); (0xAAF6, 0xAAF6); (0xAB5B, 0xAB5F); (0xAB69, 0xAB6B);
  (0xABE5, 0xABE5); (0xABE8, 0xABE8); (0xABED, 0xABED); (0xFB1E, 0xFB1E);
  (0xFBB2, 0xFBC2); (0xFE00, 0xFE0F); (0xFE13, 0xFE13); (0xFE20, 0xFE2F);
  (0xFE52, 0xFE52); (0xFE55, 0xFE55); (0xFEFF, 0xFEFF); (0xFF07, 0xFF07);
  (0xFF0E, 0xFF0E); (0xFF1A, 0xFF1A); (0xFF3E, 0xFF3E); (0xFF40, 0xFF40);
  (0xFF70, 0xFF70); (0xFF9E, 0xFF9F); (0xFFE3, 0xFFE3); (0xFFF9, 0xFFFB);
  (0x101FD, 0x101FD); (0x102E0, 0x102E0); (0x10376, 0x1037A); (0x10780, 0x10785);
  (0x10787, 0x107B0); (0x107B2, 0x107BA); (0x10A01, 0x10A03); (0x10A05, 0x10A06);
  (0x10A0C, 0x10A0F); (0x10A38, 0x10A3A); (0x10A3F, 0x10A3F); (0x10AE5, 0x10AE6);
  (0x10D24, 0x10D27); (0x10EAB, 0x10EAC); (0x10F46, 0x10F50); (0x10F82, 0x10F85);
  (0x11001, 0x11001); (0x11038, 0x11046); (0x11070, 0x11070); (0x11073, 0x11074);
  (0x1107F, 0x11081); (0x110B3, 0x110B6); (0x110B9, 0x110BA); (0x110BD, 0x110BD);
  (0x110C2, 0x110C2); (0x110CD, 0x110CD); (0x11100, 0x11102); (0x11127, 0x1112B);
  (0x1112D, 0x11134); (0x11173, 0x11173); (0x11180, 0x11181); (0x111B6, 0x111BE);
  (0x111C9, 0x111CC); (0x111CF, 0x111CF); (0x1122F, 0x11231); (0x11234, 0x11234);
  (0x11236, 0x11237); (0x1123E, 0x1123E); (0x112DF, 0x112DF); (0x112E3, 0x112EA);
  (0x11300, 0x11301); (0x1133B, 0x1133C); (0x11340, 0x11340); (0x11366, 0x1136C);
  (0x11370, 0x11374); (0x11438, 0x1143F); (0x11442, 0x11444); (0x11446, 0x11446);
  (0x1145E, 0x1145E); (0x114B3, 0x114B8); (0x114BA, 0x114BA); (0x114BF, 0x114C0);
  (0x114C2, 0x114C3); (0x115B2, 0x115B5); (0x115BC, 0x115BD); (0x115BF, 0x115C0);
  (0x115DC, 0x115DD); (0x11633, 0x1163A); (0x1163D, 0x1163D); (0x1163F, 0x11640);
  (0x116AB, 0x116AB); (0x116AD, 0x116AD); (0x116B0, 0x116B5); (0x116B7, 0x116B7);
  (0x1171D, 0x1171F); (0x11722, 0x11725); (0x11727, 0x1172B); (0x1182F, 0x11837);
  (0x11839, 0x1183A); (0x1193B, 0x1193C); (0x1193E, 0x1193E); (0x11943, 0x11943);
  (0x119D4, 0x119D7); (0x119DA, 0x119DB); (0x119E0, 0x119E0); (0x11A01, 0x11A0A);
  (0x11A33, 0x11A38); (0x11A3B, 0x11A3E); (0x11A47, 0x11A47); (0x11A51, 0x11A56);
  (0x11A59, 0x11A5B); (0x11A8A, 0x11A96); (0x11A98, 0x11A99); (0x11C30, 0x11C36);
  (0x11C38, 0x11C3D); (0x11C3F, 0x11C3F); (0x11C92, 0x11CA7); (0x11CAA, 0x11CB0);
  (0x11CB2, 0x11CB3); (0x11CB5, 0x11CB6); (0x11D31, 0x11D36); (0x11D3A, 0x11D3A);
  (0x11D3C, 0x11D3D); (0x11D3F, 0x11D45); (0x11D47, 0x11D47); (0x11D90, 0x11D91);
  (0x11D95, 0x11D95); (0x11D97, 0x11D97); (0x11EF3, 0x11EF4); (0x13430, 0x13438);
  (0x16AF0, 0x16AF4); (0x16B30, 0x16B36); (0x16B40, 0x16B43); (0x16F4F, 0x16F4F);
  (0x16F8F, 0x16F9F); (0x16FE0, 0x16FE1); (0x16FE3, 0x16FE4); (0x1AFF0, 0x1AFF3);
  (0x1AFF5, 0x1AFFB); (0x1AFFD, 0x1AFFE); (0x1BC9D, 0x1BC9E); (0x1BCA0, 0x1BCA3);
  (0x1CF00, 0x1CF2D); (0x1CF30, 0x1CF46); (0x1D167, 0x1D169); (0x1D173, 0x1D182);
  (0x1D185, 0x1D18B); (0x1D1AA, 0x1D1AD); (0x1D242, 0x1D244); (0x1DA00, 0x1DA36);
  (0x1DA3B, 0x1DA6C); (0x1DA75, 0x1DA75); (0x1DA84, 0x1DA84); (0x1DA9B, 0x1DA9F);
  (0x1DAA1, 0x1DAAF); (0x1E000, 0x1E006); (0x1E008, 0x1E018); (0x1E01B, 0x1E021);
  (0x1E023, 0x1E024); (0x1E026, 0x1E02A); (0x1E130, 0x1E13D); (0x1E2AE, 0x1E2AE);
  (0x1E2EC, 0x1E2EF); (0x1E8D0, 0x1E8D6); (0x1E944, 0x1E94B); (0x1F3FB, 0x1F3FF);
  (0xE0001, 0xE0001); (0xE0020, 0xE007F); (0xE0100, 0xE01EF)
 ]%N.

Definition cased_ranges : list (N * N) :=
 [
  (0x41, 0x5A); (0x61, 0x7A); (0xAA, 0xAA); (0xB5, 0xB5);
  (0xBA, 0xBA); (0xC0, 0xD6); (0xD8, 0xF6); (0xF8, 0x1BA);
  (0x1BC, 0x1BF); (0x1C4, 0x293); (0x295, 0x2AF); (0x370, 0x373);
  (0x376, 0x377); (0x37B, 0x37D); (0x37F, 0x37F); (0x386, 0x386);
  (0x388, 0x38A); (0x38C, 0x38C); (0x38E, 0x3A1); (0x3A3, 0x3F5);
  (0x3F7, 0x481); (0x48A, 0x52F); (0x531, 0x556); (0x560, 0x588);
  (0x10A0, 0x10C5); (0x10C7, 0x10C7); (0x10CD, 0x10CD); (0x10D0, 0x10FA);
  (0x10FD, 0x10FF); (0x13A0, 0x13F5); (0x13F8, 0x13FD); (0x1C80, 0x1C88);
  (0x1C90, 0x1CBA); (0x1CBD, 0x1CBF); (0x1D00, 0x1D2B); (0x1D6B, 0x1D77);
  (0x1D79, 0x1D9A); (0x1E00, 0x1F15); (0x1F18, 0x1F1D); (0x1F20, 0x1F45);
  (0x1F48, 0x1F4D); (0x1F50, 0x1F57); (0x1F59, 0x1F59); (0x1F5B, 0x1F5B);
  (0x1F5D, 0x1F5D); (0x1F5F, 0x1F7D); (0x1F80, 0x1FB4); (0x1FB6, 0x1FBC);
  (0x1FBE, 0x1FBE); (0x1FC2, 0x1FC4); (0x1FC6, 0x1FCC); (0x1FD0, 0x1FD3);
  (0x1FD6, 0x1FDB); (0x1FE0, 0x1FEC); (0x1FF2, 0x1FF4); (0x1FF6, 0x1FFC);
  (0x2102, 0x2102); (0x2107, 0x2107); (0x210A, 0x2113); (0x2115, 0x2115);
  (0x2119, 0x211D); (0x2124, 0x2124); (0x2126, 0x2126); (0x2128, 0x2128);
  (0x212A, 0x212D); (0x212F, 0x2134); (0x2139, 0x2139); (0x213C, 0x213F);
  (0x2145, 0x2149); (0x214E, 0x214E); (0x2160, 0x217F); (0x2183, 0x2184);
  (0x24B6, 0x24E9); (0x2C00, 0x2C7B); (0x2C7E, 0x2CE4); (0x2CEB, 0x2CEE);
  (0x2CF2, 0x2CF3); (0x2D00, 0x2D25); (0x2D27, 0x2D27); (0x2D2D, 0x2D2D);
  (0xA640, 0xA66D); (0xA680, 0xA69B); (0xA722, 0xA76F); (0xA771, 0xA787);
  (0xA78B, 0xA78E); (0xA790, 0xA7CA); (0xA7D0, 0xA7D1); (0xA7D3, 0xA7D3);
  (0xA7D5, 0xA7D9); (0xA7F5, 0xA7F6); (0xA7FA, 0xA7FA); (0xAB30, 0xAB5A);
  (0xAB60, 0xAB68); (0xAB70, 0xABBF); (0xFB00, 0xFB06); (0xFB13, 0xFB17);
  (0xFF21, 0xFF3A); (0xFF41, 0xFF5A); (0x10400, 0x1044F); (0x104B0, 0x104D3);
  (0x104D8, 0x104FB); (0x10570, 0x1057A); (0x1057C, 0x1058A); (0x1058C, 0x10592);
  (0x10594, 0x10595); (0x10597, 0x105A1); (0x105A3, 0x105B1); (0x105B3, 0x105B9);
  (0x105BB, 0x105BC); (0x10C80, 0x10CB2); (0x10CC0, 0x10CF2); (0x118A0, 0x118DF);
  (0x16E40, 0x16E7F); (0x1D400, 0x1D454); (0x1D456, 0x1D49C); (0x1D49E, 0x1D49F);
  (0x1D4A2, 0x1D4A2); (0x1D4A5, 0x1D4A6); (0x1D4A9, 0x1D4AC); (0x1D4AE, 0x1D4B9);
  (0x1D4BB, 0x1D4BB); (0x1D4BD, 0x1D4C3); (0x1D4C5, 0x1D505); (0x1D507, 0x1D50A);
  (0x1D50D, 0x1D514); (0x1D516, 0x1D51C); (0x1D51E, 0x1D539); (0x1D53B, 0x1D53E);
  (0x1D540, 0x1D544); (0x1D546, 0x1D546); (0x1D54A, 0x1D550); (0x1D552, 0x1D6A5);
  (0x1D6A8, 0x1D6C0); (0x1D6C2, 0x1D6DA); (0x1D6DC, 0x1D6FA); (0x1D6FC, 0x1D714);
  (0x1D716, 0x1D734); (0x1D736, 0x1D74E); (0x1D750, 0x1D76E); (0x1D770, 0x1D788);
  (0x1D78A, 0x1D7A8); (0x1D7AA, 0x1D7C2); (0x1D7C4, 0x1D7CB); (0x1DF00, 0x1DF09);
  (0x1DF0B, 0x1DF1E); (0x1E900, 0x1E943); (0x1F130, 0x1F149); (0x1F150, 0x1F169);
  (0x1F170, 0x1F189)
 ]%N.

Definition within (c : N) (ranges : list (N * N)) : bool :=
  existsb (fun r : N * N => ((r.1 <=? c) && (c <=? r.2))%N) ranges.

Definition case_ignorable (c : N) : bool := within c case_ignorable_ranges.
Definition cased (c : N) : bool := within c cased_ranges.

(** The next code point that is not case-ignorable is a cased letter. *)
Fixpoint before_cased (l : list N) : bool :=
  match l with
  | [] => false
  | c :: l' => if case_ignorable c then before_cased l' else cased c
  end.

(** SpecialCasing.txt: U+0130 becomes U+0069 U+0307, and a capital sigma
    that ends a word (a cased letter before it, none after it, case-ignorable
    code points skipped on both sides) becomes the final sigma U+03C2.
    [after_cased] tells whether the last code point read that is not
    case-ignorable was a cased letter. *)
Fixpoint lower_from (after_cased : bool) (l : list N) : list N :=
  match l with
  | [] => []
  | c :: rest =>
      (if (c =? 0x3A3)%N && after_cased && negb (before_cased rest) then [0x3C2%N]
       else if (c =? 0x130)%N then [0x69%N; 0x307%N]
       else [lower_simple c])
      ++ lower_from (if case_ignorable c then after_cased else cased c) rest
  end.

(** [s.toLowerCase()] *)
Definition toLowerCase (s : string) : string :=
  fromCodePoints (lower_from false (codePoints s)).

(** [s.startsWith(p)] *)
Fixpoint startsWith (s p : string) : bool :=
  match p, s with
  | EmptyString, _ => true
  | String _ _, EmptyString => false
  | String a p', String b s' => if decide (a = b) then startsWith s' p' else false
  end.

(** [s.includes(q)] *)
Fixpoint includes (s q : string) : bool :=
  if startsWith s q then true
  else match s with
       | EmptyString => false
       | String _ s' => includes s' q
       end.

(** [s.split(sep)] for a one-character separator. *)
Fixpoint split (sep : ascii) (s : string) : list string :=
  match s with
  | EmptyString => [EmptyString]
  | String c s' =>
      if decide (c = sep) then EmptyString :: split sep s'
      else match split sep s' with
           | [] => [String c EmptyString]
           | x :: xs => String c x :: xs
           end
  end.

(** [arr.pop()] read as an expression: the last element, if any. *)
Definition pop {A} (l : list A) : option A := last l.

(** What [trim] removes: the code points of WhiteSpace and LineTerminator
    in ECMA-262 (tab, line feed, vertical tab, form feed, carriage return,
    the space separators of category Zs, the line and paragraph separators
    and the byte order mark). *)
Definition white_space : list N :=
  [0x9; 0xA; 0xB; 0xC; 0xD; 0x20; 0xA0; 0x1680; 0x2000; 0x2001; 0x2002; 0x2003;
   0x2004; 0x2005; 0x2006; 0x2007; 0x2008; 0x2009; 0x200A; 0x2028; 0x2029;
   0x202F; 0x205F; 0x3000; 0xFEFF]%N.

Definition spaces : list string := map encode white_space.

(** The bytes of [s] in reverse order. *)
Definition reverse (s : string) : string :=
  string_of_list_ascii (rev (list_ascii_of_string s)).

(** [s] without the members of [ws] it starts with; a member of [ws] is at
    most three bytes long. *)
Fixpoint strip (ws : list string) (s : string) : string :=
  match s with
  | EmptyString => EmptyString
  | String a s1 =>
      if bool_decide (String a "" ∈ ws) then strip ws s1
      else
        match s1 with
        | String b s2 =>
            if bool_decide (String a (String b "") ∈ ws) then strip ws s2
            else
              match s2 with
              | String c s3 =>
                  if bool_decide (String a (String b (String c "")) ∈ ws)
                  then strip ws s3 else s
              | EmptyString => s
              end
        | EmptyString => s
        end
  end.

(** [s.trimStart()] *)
Definition trimStart (s : string) : string := strip spaces s.

(** [s.trimEnd()]: the white space at the end of [s] is at the start of its
    reversal, each character with its bytes reversed. *)
Definition trimEnd (s : string) : string :=
  reverse (strip (map reverse spaces) (reverse s)).

(** [s.trim()] *)
Definition trim (s : string) : string := trimEnd (trimStart s).

(** [encodeURI(s)]: every byte of the UTF-8 encoding is escaped, except the
    reserved and unreserved characters of a URI and the number sign. *)
Definition uriUnescaped : string :=
  "ABCDEFGHIJKLMNOPQRSTUVWXYZabcdefghijklmnopqrstuvwxyz0123456789;/?:@&=+$,#-_.!~*'()".

Definition hexDigit (n : N) : ascii :=
  default "0"%char (String.get (N.to_nat n) "0123456789ABCDEF").

Fixpoint encodeURI (s : string) : string :=
  match s with
  | EmptyString => EmptyString
  | String c s' =>
      if includes uriUnescaped (String c "") then String c (encodeURI s')
      else String "%" (String (hexDigit (byte c / 16))
                         (String (hexDigit (byte c mod 16)) (encodeURI s')))
  end.

(** Truthiness of a string: [Boolean(s)], [!s]. *)
Definition truthy (s : string) : bool :=
  match s with EmptyString => false | _ => true end.

(** [[...new Set(arr)]]: distinct values in order of first occurrence. *)
Definition set_to_array (arr : list string) : list string :=
  fold_left (fun acc x => if decide (x ∈ acc) then acc else acc ++ [x]) arr [].

(** [new Map(entries)]: a later entry for a key replaces an earlier one. *)
Definition new_Map {V} (entries : list (string * V)) : gmap string V :=
  fold_left (fun m kv => <[kv.1 := kv.2]> m) entries ∅.

(** [new Set(arr)] when only [has] is used afterwards. *)
Definition new_Set (arr : list string) : gset string := list_to_set arr.

Definition has (s : gset string) (x : string) : bool := bool_decide (x ∈ s).

End JS.

(** ** Records of the store's collections *)

(** Timestamps ([created_at], [updated_at], [Date.now()]) are instants in
    milliseconds since the epoch; the ISO-8601 text that travels between
    the browser and a timestamp column denotes the same instant. *)
Definition Timestamp := Z.

(** A row of [profiles]. The components read [full_name] and [email]
    through [?.], so both may be null. *)
Module Profile.
Record t := mk {
  id : string;
  full_name : option string;
  email : option string;
  role : string;
  department : option string;
  year : option string;
  created_at : Timestamp;
}.
Definition with_role (r : string) (p : t) : t :=
  mk (id p) (full_name p) (email p) r (department p) (year p) (created_at p).
End Profile.
Abbreviation Profile := Profile.t.

Module Talent.
Record t := mk {
  id : string;
  user_id : string;
  title : string;
  description : string;
  category : string;
  tags : option (list string);
  media_url : string;
  media_type : string;
  created_at : Timestamp;
  likes_count : Z;
}.
Definition with_likes_count (n : Z) (r : t) : t :=
  mk (id r) (user_id r) (title r) (description r) (category r) (tags r)
     (media_url r) (media_type r) (created_at r) n.
End Talent.
Abbreviation Talent := Talent.t.

Module TalentLike.
Record t := mk { talent_id : string; user_id : string }.
#[global] Instance eq_dec : EqDecision t.
Proof. solve_decision. Defined.
End TalentLike.
Abbreviation TalentLike := TalentLike.t.

Module HostelService.
Record t := mk {
  id : string;
  created_at : Timestamp;
  service_type : string;
  room_number : string;
  hostel_block : string;
  status : string;
  priority : string;
  description : string;
  user_id : string;
  updated_at : Timestamp;
}.
Definition with_status (s : string) (ts : Timestamp) (r : t) : t :=
  mk (id r) (created_at r) (service_type r) (room_number r) (hostel_block r)
     s (priority r) (description r) (user_id r) ts.
End HostelService.
Abbreviation HostelService := HostelService.t.

Module TalentComment.
Record t := mk {
  id : string;
  created_at : Timestamp;
  content : string;
  user_id : string;
  talent_id : string;
}.
End TalentComment.
Abbreviation TalentComment := TalentComment.t.

(** The columns [id, full_name, email] of a profile. *)
Module ProfileBrief.
Record t := mk { id : string; full_name : option string; email : option string }.
Definition of_profile (p : Profile) : t :=
  mk (Profile.id p) (Profile.full_name p) (Profile.email p).
End ProfileBrief.
Abbreviation ProfileBrief := ProfileBrief.t.

(** A browser [File]. *)
Module File.
Record t := mk { name : string; size : Z; type : string }.
End File.
Abbreviation File := File.t.

(** The authenticated principal supplied by [useAuth()]. *)
Module User.
Record t := mk { id : string; email : string }.
End User.
Abbreviation User := User.t.

(** Columns by which the feed can be ordered. *)
Inductive SortKey := created_at | likes_count.

Definition sort_key (k : SortKey) (t : Talent) : Z :=
  match k with
  | created_at => Talent.created_at t
  | likes_count => Talent.likes_count t
  end.

(** The payload of [from('talents').insert({...})]. *)
Module NewTalent.
Record t := mk {
  user_id : string;
  title : string;
  description : string;
  category : string;
  media_url : string;
  media_type : string;
  tags : list string;
}.
End NewTalent.
Abbreviation NewTalent := NewTalent.t.

(** ** The record store

    The store is outside the repository. Its tables and the meaning of the
    requests sent to it follow the spec's interface section: filtered and
    ordered queries, insert, update and delete by key, and the batched
    membership query. *)
Module Db.

Record t := mk {
  talents : list Talent;
  profiles : list Profile;
  talent_likes : list TalentLike;
  talent_comments : list TalentComment;
  hostel_services : list HostelService;
  talent_media : list (string * File);
  clock : Timestamp;
  serial : N;
  url : string;
}.

Definition with_talents (x : list Talent) (d : t) : t :=
  mk x (profiles d) (talent_likes d) (talent_comments d) (hostel_services d)
     (talent_media d) (clock d) (serial d) (url d).
Definition with_profiles (x : list Profile) (d : t) : t :=
  mk (talents d) x (talent_likes d) (talent_comments d) (hostel_services d)
     (talent_media d) (clock d) (serial d) (url d).
Definition with_talent_likes (x : list TalentLike) (d : t) : t :=
  mk (talents d) (profiles d) x (talent_comments d) (hostel_services d)
     (talent_media d) (clock d) (serial d) (url d).
Definition with_talent_comments (x : list TalentComment) (d : t) : t :=
  mk (talents d) (profiles d) (talent_likes d) x (hostel_services d)
     (talent_media d) (clock d) (serial d) (url d).
Definition with_hostel_services (x : list HostelService) (d : t) : t :=
  mk (talents d) (profiles d) (talent_likes d) (talent_comments d) x
     (talent_media d) (clock d) (serial d) (url d).
Definition with_talent_media (x : list (string * File)) (d : t) : t :=
  mk (talents d) (profiles d) (talent_likes d) (talent_comments d)
     (hostel_services d) x (clock d) (serial d) (url d).
Definition with_serial (x : N) (d : t) : t :=
  mk (talents d) (profiles d) (talent_likes d) (talent_comments d)
     (hostel_services d) (talent_media d) (clock d) x (url d).

(** [.order(col, { ascending: false })]: a stable sort, largest key first. *)
Fixpoint place {A} (key : A -> Z) (x : A) (l : list A) : list A :=
  match l with
  | [] => [x]
  | y :: l' => if key y <=? key x then x :: l else y :: place key x l'
  end.

Definition order_desc {A} (key : A -> Z) (l : list A) : list A :=
  foldr (place key) [] l.

(** [.order(col, { ascending: true })] *)
Definition order_asc {A} (key : A -> Z) (l : list A) : list A :=
  order_desc (fun x => - key x) l.

(** [from('talents').select('*').order(k, { ascending: false })] *)
Definition select_talents (k : SortKey) (d : t) : list Talent :=
  order_desc (sort_key k) (talents d).

(** [from('profiles').select(...).in('id', ids)] *)
Definition select_profiles_in (ids : list string) (d : t) : list Profile :=
  filter (fun p => Profile.id p ∈ ids) (profiles d).

(** [from('profiles').select('id, full_name, email').in('id', ids)] *)
Definition select_profiles_brief_in (ids : list string) (d : t) : list ProfileBrief :=
  map ProfileBrief.of_profile (select_profiles_in ids d).

(** [from('profiles').select('*').order('created_at', { ascending: false })] *)
Definition select_profiles (d : t) : list Profile :=
  order_desc Profile.created_at (profiles d).

(** [from('talent_likes').select('talent_id').eq('user_id', uid)] *)
Definition select_likes (uid : string) (d : t) : list TalentLike :=
  filter (fun l => TalentLike.user_id l = uid) (talent_likes d).

(** Modelled from the spec: the store's reaction bookkeeping, which is not
    client code. [likes_count] is "denormalized", "maintained by the store's
    reaction bookkeeping" and "read-only from this layer's perspective":
    every reaction row added for an item raises the item's count by one and
    every reaction row removed lowers it by one. *)
Definition bump_likes (tid : string) (delta : Z) (l : list Talent) : list Talent :=
  map (fun r => if decide (Talent.id r = tid)
                then Talent.with_likes_count (Talent.likes_count r + delta) r
                else r) l.

Definition matches (tid uid : string) (l : TalentLike) : Prop :=
  TalentLike.talent_id l = tid ∧ TalentLike.user_id l = uid.

#[global] Instance matches_dec tid uid l : Decision (matches tid uid l).
Proof. unfold matches. apply _. Defined.

(** [from('talent_likes').insert({ talent_id, user_id })] *)
Definition insert_like (tid uid : string) (d : t) : t :=
  with_talents (bump_likes tid 1 (talents d))
    (with_talent_likes (talent_likes d ++ [TalentLike.mk tid uid]) d).

(** [from('talent_likes').delete().match({ talent_id, user_id })] *)
Definition delete_likes_match (tid uid : string) (d : t) : t :=
  let gone := filter (matches tid uid) (talent_likes d) in
  with_talents (bump_likes tid (- Z.of_nat (length gone)) (talents d))
    (with_talent_likes (filter (fun l => ¬ matches tid uid l) (talent_likes d)) d).

(** [from('profiles').update({ role }).eq('id', id)] *)
Definition update_profile_role (id role : string) (d : t) : t :=
  with_profiles
    (map (fun p => if decide (Profile.id p = id) then Profile.with_role role p else p)
         (profiles d)) d.

(** [from('hostel_services').select('*').order('created_at', { ascending: false })] *)
Definition select_hostel_services (d : t) : list HostelService :=
  order_desc HostelService.created_at (hostel_services d).

(** [from('hostel_services').update({ status, updated_at }).eq('id', id)] *)
Definition update_hostel_service (id status : string) (ts : Timestamp) (d : t) : t :=
  with_hostel_services
    (map (fun r => if decide (HostelService.id r = id)
                   then HostelService.with_status status ts r else r)
         (hostel_services d)) d.

(** [from('talents').delete().eq('id', id)] *)
Definition delete_talent (id : string) (d : t) : t :=
  with_talents (filter (fun r => Talent.id r ≠ id) (talents d)) d.

(** [from('talent_comments').select(...).eq('talent_id', tid)
      .order('created_at', { ascending: true })] *)
Definition select_comments (tid : string) (d : t) : list TalentComment :=
  order_asc TalentComment.created_at
    (filter (fun c => TalentComment.talent_id c = tid) (talent_comments d)).

(** The embedded resource [profiles(full_name)] of a comment, as the
    component reads it ([comment.profiles?.full_name]): the name in the
    author's profile, if there is a profile and it has a name. *)
Definition author_name (c : TalentComment) (d : t) : option string :=
  List.find (fun p => bool_decide (Profile.id p = TalentComment.user_id c)) (profiles d)
    ≫= Profile.full_name.

(** Rows created by the store get a fresh identity and the store's time. *)
Definition fresh_id (d : t) : string := pretty (serial d).

(** [from('talent_comments').insert({ content, talent_id, user_id })] *)
Definition insert_comment (content tid uid : string) (d : t) : t :=
  with_serial (serial d + 1)
    (with_talent_comments
       (talent_comments d ++ [TalentComment.mk (fresh_id d) (clock d) content uid tid]) d).

(** [storage.from('talent-media').upload(path, file)] *)
Definition upload (path : string) (f : File) (d : t) : t :=
  with_talent_media (talent_media d ++ [(path, f)]) d.

(** [storage.from('talent-media').getPublicUrl(path)]: computed by the
    client library from the project's address, without a round trip, and
    passed through [encodeURI]. *)
Definition getPublicUrl (path : string) (d : t) : string :=
  JS.encodeURI (url d +:+ "/storage/v1/object/public/talent-media/" +:+ path).

(** [from('talents').insert({...})]: the reaction count starts at zero. *)
Definition insert_talent (n : NewTalent) (d : t) : t :=
  with_serial (serial d + 1)
    (with_talents
       (talents d ++
        [Talent.mk (fresh_id d) (NewTalent.user_id n) (NewTalent.title n)
           (NewTalent.description n) (NewTalent.category n)
           (Some (NewTalent.tags n)) (NewTalent.media_url n)
           (NewTalent.media_type n) (clock d) 0]) d).

End Db.

(** ** Requests, the browser and the effect monad *)

(** One constructor per request the components send. *)
Inductive Call :=
| SelectTalents (order : SortKey)
| SelectProfilesIn (columns : string) (ids : list string)
| SelectLikes (user_id : string)
| InsertLike (talent_id user_id : string)
| DeleteLikesMatch (talent_id user_id : string)
| SelectProfiles
| UpdateProfileRole (id role : string)
| SelectHostelServices
| UpdateHostelService (id status : string) (updated_at : Timestamp)
| DeleteTalent (id : string)
| SelectComments (talent_id : string)
| InsertComment (content talent_id user_id : string)
| StorageUpload (path : string) (file : File)
| InsertTalent (row : NewTalent).

(** Everything outside a component: the store, the answers it will give to
    the coming round trips ([None]: served, [Some msg]: answered with an
    error whose message is [msg]; an exhausted script serves every request),
    the requests sent so far (oldest first), the browser clock, and what
    [alert] and [console.error] have shown. *)
Record World := mkWorld {
  db : Db.t;
  faults : list (option string);
  calls : list Call;
  now : Timestamp;
  alerts : list string;
  console : list (string * string);
}.

Inductive Res (A : Type) : Type :=
| Ok (a : A)
| Throw (message : string).
Arguments Ok {A} a.
Arguments Throw {A} message.

(** A computation over component state [S]. *)
Definition M (S A : Type) : Type := S -> World -> Res A * S * World.

Definition ret {S A} (a : A) : M S A := fun s w => (Ok a, s, w).

Definition bind {S A B} (m : M S A) (k : A -> M S B) : M S B :=
  fun s w =>
    match m s w with
    | (Ok a, s', w') => k a s' w'
    | (Throw e, s', w') => (Throw e, s', w')
    end.

Definition throw {S A} (e : string) : M S A := fun s w => (Throw e, s, w).

(** [try { body } catch (e) { handler }] *)
Definition try_catch {S A} (body : M S A) (handler : string -> M S A) : M S A :=
  fun s w =>
    match body s w with
    | (Ok a, s', w') => (Ok a, s', w')
    | (Throw e, s', w') => handler e s' w'
    end.

(** [try { body } finally { final }] *)
Definition try_finally {S A} (body : M S A) (final : M S unit) : M S A :=
  fun s w =>
    match body s w with
    | (r, s', w') =>
        match final s' w' with
        | (Ok _, s'', w'') => (r, s'', w'')
        | (Throw e, s'', w'') => (Throw e, s'', w'')
        end
    end.

Declare Scope m_scope.
Delimit Scope m_scope with M.
Notation "'let*' x := c 'in' k" := (bind c (fun x => k))
  (at level 10, x name, c at level 100, k at level 200,
   format "'[v' 'let*'  x  :=  c  'in' '/' k ']'") : m_scope.
Notation "c ;; k" := (bind c (fun _ => k))
  (at level 100, k at level 200, right associativity,
   format "'[v' c  ;; '/' k ']'") : m_scope.
Local Open Scope m_scope.

Definition get_state {S} : M S S := fun s w => (Ok s, s, w).
Definition set_state {S} (f : S -> S) : M S unit := fun s w => (Ok tt, f s, w).

(** A child component mounted under a parent with state [P] has state
    [P * S]; the parent's callbacks run on the first component. *)
Definition in_parent {P S A} (m : M P A) : M (P * S) A :=
  fun ps w =>
    match m ps.1 w with
    | (r, p', w') => (r, (p', ps.2), w')
    end.
Definition get_own {P S} : M (P * S) S := fun ps w => (Ok ps.2, ps, w).
Definition set_own {P S} (f : S -> S) : M (P * S) unit :=
  fun ps w => (Ok tt, (ps.1, f ps.2), w).

Definition alert {S} (msg : string) : M S unit :=
  fun s w => (Ok tt, s,
              mkWorld (db w) (faults w) (calls w) (now w) (alerts w ++ [msg]) (console w)).

Definition console_error {S} (msg err : string) : M S unit :=
  fun s w => (Ok tt, s,
              mkWorld (db w) (faults w) (calls w) (now w) (alerts w)
                      (console w ++ [(msg, err)])).

(** [supabase.storage.from('talent-media').getPublicUrl(path)] *)
Definition getPublicUrl {S} (path : string) : M S string :=
  fun s w => (Ok (Db.getPublicUrl path (db w)), s, w).

(** [Date.now()], [new Date()] *)
Definition Date_now {S} : M S Timestamp := fun s w => (Ok (now w), s, w).

(** What an awaited request resolves to: [{ data, error }]. *)
Module Reply.
Record t (A : Type) := mk { data : option A; error : option string }.
Arguments mk {A} data error.
Arguments data {A} t.
Arguments error {A} t.
End Reply.
Abbreviation Reply := Reply.t.

(** The answer scripted for the next round trip, and the rest of the script. *)
Definition next_fault (w : World) : option string * list (option string) :=
  match faults w with
  | [] => (None, [])
  | f :: rest => (f, rest)
  end.

(** A round trip that reads: the request is logged; the store either
    answers with an error or returns what [read] finds. *)
Definition query {S A} (c : Call) (read : Db.t -> A) : M S (Reply A) :=
  fun s w =>
    let '(f, rest) := next_fault w in
    let w' := mkWorld (db w) rest (calls w ++ [c]) (now w) (alerts w) (console w) in
    match f with
    | Some e => (Ok (Reply.mk None (Some e)), s, w')
    | None => (Ok (Reply.mk (Some (read (db w))) None), s, w')
    end.

(** A round trip that writes: on an error answer the store is unchanged. *)
Definition command {S} (c : Call) (write : Db.t -> Db.t) : M S (Reply unit) :=
  fun s w =>
    let '(f, rest) := next_fault w in
    match f with
    | Some e =>
        (Ok (Reply.mk None (Some e)), s,
         mkWorld (db w) rest (calls w ++ [c]) (now w) (alerts w) (console w))
    | None =>
        (Ok (Reply.mk None None), s,
         mkWorld (write (db w)) rest (calls w ++ [c]) (now w) (alerts w) (console w))
    end.

(** ** [TalentShowcase.tsx] *)
Module TalentShowcase.

(** [type TalentWithProfile]: a row of [talents] (the object spread
    [...t] copies every column) with the attached [profile] and the
    viewer's [is_liked]. *)
Record TalentWithProfile := mkView {
  row : Talent;
  profile : option Profile;
  is_liked : bool;
}.

Definition id (t : TalentWithProfile) : string := Talent.id (row t).
Definition likes_count (t : TalentWithProfile) : Z := Talent.likes_count (row t).

(** The [useState] cells of the component. *)
Record State := mk {
  talents : list TalentWithProfile;
  loading : bool;
  showUploadModal : bool;
  searchQuery : string;
  sortBy : SortKey;
}.

Definition setTalents (x : list TalentWithProfile) : M State unit :=
  set_state (fun s => mk x (loading s) (showUploadModal s) (searchQuery s) (sortBy s)).
Definition setLoading (x : bool) : M State unit :=
  set_state (fun s => mk (talents s) x (showUploadModal s) (searchQuery s) (sortBy s)).
Definition setShowUploadModal (x : bool) : M State unit :=
  set_state (fun s => mk (talents s) (loading s) x (searchQuery s) (sortBy s)).
Definition setSearchQuery (x : string) : M State unit :=
  set_state (fun s => mk (talents s) (loading s) (showUploadModal s) x (sortBy s)).
Definition setSortBy (x : SortKey) : M State unit :=
  set_state (fun s => mk (talents s) (loading s) (showUploadModal s) (searchQuery s) x).

(** Line 302: every row starts with no profile and not liked. *)
Definition initial (talentsData : list Talent) : list TalentWithProfile :=
  map (fun t => mkView t None false) talentsData.

(** Line 304 *)
Definition userIds (talentsData : list Talent) : list string :=
  JS.set_to_array (map Talent.user_id talentsData).

(** Lines 313-317: [profilesMap.get(talent.user_id) || null] for each row. *)
Definition withProfiles (profilesData : list Profile)
    (processedTalents : list TalentWithProfile) : list TalentWithProfile :=
  let profilesMap := JS.new_Map (map (fun p => (Profile.id p, p)) profilesData) in
  map (fun talent =>
         mkView (row talent) (profilesMap !! Talent.user_id (row talent))
                (is_liked talent))
      processedTalents.

(** Lines 304-318: the join against [profiles]. *)
Definition attachProfiles {S} (talentsData : list Talent)
    (processedTalents : list TalentWithProfile) : M S (list TalentWithProfile) :=
  let userIds := userIds talentsData in
  if (0 <? length userIds)%nat then
    let* r := query (SelectProfilesIn "*" userIds) (Db.select_profiles_in userIds) in
    match Reply.error r with
    | Some profilesError => throw profilesError
    | None =>
        match Reply.data r with
        | None => throw "TypeError: profilesData is null"
        | Some profilesData => ret (withProfiles profilesData processedTalents)
        end
    end
  else ret processedTalents.

(** Line 322: [new Set(likesData?.map(like => like.talent_id) || [])] *)
Definition likedIds (likesData : option (list TalentLike)) : gset string :=
  JS.new_Set (match likesData with
              | Some rows => map TalentLike.talent_id rows
              | None => []
              end).

(** Lines 323-326 *)
Definition withLikes (likedIds : gset string)
    (processedTalents : list TalentWithProfile) : list TalentWithProfile :=
  map (fun talent =>
         mkView (row talent) (profile talent) (JS.has likedIds (id talent)))
      processedTalents.

(** Lines 320-327: the viewer's reactions. The reply's [error] is not read. *)
Definition attachLikes {S} (user : option User)
    (processedTalents : list TalentWithProfile) : M S (list TalentWithProfile) :=
  match user with
  | Some u =>
      let* r := query (SelectLikes (User.id u)) (Db.select_likes (User.id u)) in
      ret (withLikes (likedIds (Reply.data r)) processedTalents)
  | None => ret processedTalents
  end.

(** Lines 302-327: from the primary rows to the list handed to [setTalents]. *)
Definition aggregate {S} (user : option User) (talentsData : list Talent)
    : M S (list TalentWithProfile) :=
  let* processedTalents := attachProfiles talentsData (initial talentsData) in
  attachLikes user processedTalents.

(** Lines 288-336 *)
Definition fetchTalents (user : option User) : M State unit :=
  setLoading true ;;
  try_finally
    (try_catch
       (let* s := get_state in
        let* r := query (SelectTalents (sortBy s)) (Db.select_talents (sortBy s)) in
        match Reply.error r with
        | Some talentsError => throw talentsError
        | None =>
            match Reply.data r with
            | None => setTalents []
            | Some talentsData =>
                let* processedTalents := aggregate user talentsData in
                setTalents processedTalents
            end
        end)
       (fun error => console_error "Error fetching talents:" error))
    (setLoading false).

(** Lines 338-357. The replies of the two writes are discarded, and
    [fetchTalents()] is started without being awaited: it handles its own
    failures. *)
Definition handleLike (user : option User) (talentId : string) : M State unit :=
  match user with
  | None => alert "You must be logged in to like a post."
  | Some u =>
      let* s := get_state in
      match find (fun t => bool_decide (id t = talentId)) (talents s) with
      | None => ret tt
      | Some talent =>
          try_catch
            ((if is_liked talent
              then command (DeleteLikesMatch talentId (User.id u))
                           (Db.delete_likes_match talentId (User.id u))
              else command (InsertLike talentId (User.id u))
                           (Db.insert_like talentId (User.id u))) ;;
             try_catch (fetchTalents user) (fun _ => ret tt))
            (fun error => console_error "Error liking talent:" error)
      end
  end.

(** [talent.tags?.some(tag => tag.toLowerCase().includes(q))] as a condition:
    an absent [tags] counts as false. *)
Definition tagsSome (q : string) (tags : option (list string)) : bool :=
  match tags with
  | Some l => existsb (fun tag => JS.includes (JS.toLowerCase tag) q) l
  | None => false
  end.

(** Lines 359-364 *)
Definition filteredTalents (s : State) : list TalentWithProfile :=
  let q := JS.toLowerCase (searchQuery s) in
  List.filter
    (fun talent =>
       JS.includes (JS.toLowerCase (Talent.title (row talent))) q
       || JS.includes (JS.toLowerCase (Talent.description (row talent))) q
       || tagsSome q (Talent.tags (row talent)))%bool
    (talents s).

End TalentShowcase.

(** ** [CommentsModal] (in [TalentShowcase.tsx]) *)
Module CommentsModal.

(** [interface TalentComment]: a comment with its embedded author name. *)
Record CommentView := mkView {
  comment : TalentComment;
  profiles : option string;
}.

Record State := mk {
  comments : list CommentView;
  newComment : string;
  loading : bool;
}.

Definition setComments (x : list CommentView) : M State unit :=
  set_state (fun s => mk x (newComment s) (loading s)).
Definition setNewComment (x : string) : M State unit :=
  set_state (fun s => mk (comments s) x (loading s)).
Definition setLoading (x : bool) : M State unit :=
  set_state (fun s => mk (comments s) (newComment s) x).

Definition read_comments (talent_id : string) (d : Db.t) : list CommentView :=
  map (fun c => mkView c (Db.author_name c d)) (Db.select_comments talent_id d).

(** Lines 36-51 *)
Definition fetchComments (talent_id : string) : M State unit :=
  try_finally
    (try_catch
       (let* r := query (SelectComments talent_id) (read_comments talent_id) in
        match Reply.error r with
        | Some error => throw error
        | None => setComments (default [] (Reply.data r))
        end)
       (fun error => console_error "Error fetching comments:" error))
    (setLoading false).

(** Lines 53-73 *)
Definition handlePostComment (user : option User) (talent_id : string) : M State unit :=
  let* s := get_state in
  match user with
  | None => ret tt
  | Some u =>
      if negb (JS.truthy (JS.trim (newComment s))) then ret tt
      else
        try_catch
          (let* r := command (InsertComment (newComment s) talent_id (User.id u))
                             (Db.insert_comment (newComment s) talent_id (User.id u)) in
           match Reply.error r with
           | Some error => throw error
           | None =>
               setNewComment "" ;;
               try_catch (fetchComments talent_id) (fun _ => ret tt)
           end)
          (fun error =>
             console_error "Error posting comment:" error ;;
             alert "Failed to post comment.")
  end.

End CommentsModal.

(** ** [UploadTalentModal] (in [TalentShowcase.tsx]) *)
Module UploadTalentModal.

Record FormData := mkForm {
  title : string;
  description : string;
  category : string;
  tags : string;
}.

Record State := mk {
  loading : bool;
  formData : FormData;
  mediaFile : option File;
  fileError : string;
}.

Definition initialState : State := mk false (mkForm "" "" "Other" "") None "".

Section Mounted.
Context {P : Type}.

Definition setLoading (x : bool) : M (P * State) unit :=
  set_own (fun s => mk x (formData s) (mediaFile s) (fileError s)).
Definition setFormData (x : FormData) : M (P * State) unit :=
  set_own (fun s => mk (loading s) x (mediaFile s) (fileError s)).
Definition setMediaFile (x : option File) : M (P * State) unit :=
  set_own (fun s => mk (loading s) (formData s) x (fileError s)).
Definition setFileError (x : string) : M (P * State) unit :=
  set_own (fun s => mk (loading s) (formData s) (mediaFile s) x).

(** [10 * 1024 * 1024] *)
Definition maxSize : Z := 10 * 1024 * 1024.

(** Lines 125-135; [files] is [e.target.files]. *)
Definition handleFileChange (files : list File) : M (P * State) unit :=
  match files with
  | file :: _ =>
      if maxSize <? File.size file then
        setFileError "File is too large. Please select a file smaller than 10MB."
      else
        setFileError "" ;;
        setMediaFile (Some file)
  | [] => ret tt
  end.

(** Line 147: [mediaFile.name.split('.').pop()] inside a template string. *)
Definition fileExt (f : File) : string :=
  default "undefined" (JS.pop (JS.split "." (File.name f))).

(** Line 148 *)
Definition filePath (u : User) (now : Timestamp) (f : File) : string :=
  User.id u +:+ "-" +:+ pretty now +:+ "." +:+ fileExt f.

(** Line 156 *)
Definition mediaType (f : File) : string :=
  if JS.startsWith (File.type f) "video" then "video" else "image".

(** Line 165 *)
Definition tagList (tags : string) : list string :=
  List.filter JS.truthy (map JS.trim (JS.split "," tags)).

(** Lines 158-166 *)
Definition newRow (u : User) (form : FormData) (publicUrl : string) (f : File)
    : NewTalent :=
  NewTalent.mk (User.id u) (title form) (description form) (category form)
               publicUrl (mediaType f) (tagList (tags form)).

(** Lines 137-177; [onSuccess] and [onClose] are the parent's callbacks. *)
Definition handleSubmit (user : option User) (onSuccess onClose : M P unit)
    : M (P * State) unit :=
  let* s := get_own in
  match user, mediaFile s with
  | Some u, Some file =>
      setLoading true ;;
      setFileError "" ;;
      try_finally
        (try_catch
           (let* now := Date_now in
            let path := filePath u now file in
            let* up := command (StorageUpload path file) (Db.upload path file) in
            match Reply.error up with
            | Some uploadError => throw uploadError
            | None =>
                let* publicUrl := getPublicUrl path in
                if negb (JS.truthy publicUrl)
                then throw "Could not get public URL for the media."
                else
                  let row := newRow u (formData s) publicUrl file in
                  let* ins := command (InsertTalent row) (Db.insert_talent row) in
                  match Reply.error ins with
                  | Some insertError => throw insertError
                  | None => in_parent onSuccess ;; in_parent onClose
                  end
            end)
           (fun error =>
              console_error "Error uploading talent:" error ;;
              alert ("Error uploading talent: " +:+ error)))
        (setLoading false)
  | _, _ => setFileError "Please select a media file to upload."
  end.

End Mounted.

(** Line 409: the modal as [TalentShowcase] mounts it, with
    [onSuccess={fetchTalents}] and [onClose={() => setShowUploadModal(false)}]. *)
Definition submit (user : option User) : M (TalentShowcase.State * State) unit :=
  handleSubmit user (TalentShowcase.fetchTalents user)
               (TalentShowcase.setShowUploadModal false).

End UploadTalentModal.

(** ** [AdminTalentShowcase.tsx] *)
Module AdminTalentShowcase.

Record TalentWithProfile := mkView {
  row : Talent;
  profile : option ProfileBrief;
}.

Record State := mk {
  talents : list TalentWithProfile;
  loading : bool;
  error : string;
}.

Definition setTalents (x : list TalentWithProfile) : M State unit :=
  set_state (fun s => mk x (loading s) (error s)).
Definition setLoading (x : bool) : M State unit :=
  set_state (fun s => mk (talents s) x (error s)).
Definition setError (x : string) : M State unit :=
  set_state (fun s => mk (talents s) (loading s) x).

(** Line 37 *)
Definition userIds (talentsData : list Talent) : list string :=
  JS.set_to_array (map Talent.user_id talentsData).

(** Lines 50-54 *)
Definition withProfiles (profilesData : list ProfileBrief)
    (talentsData : list Talent) : list TalentWithProfile :=
  let profilesMap := JS.new_Map (map (fun p => (ProfileBrief.id p, p)) profilesData) in
  map (fun talent => mkView talent (profilesMap !! Talent.user_id talent)) talentsData.

(** Lines 32-56: what happens to the rows of a served primary query. *)
Definition resolve (talentsData : list Talent) : M State unit :=
  if (length talentsData =? 0)%nat then setTalents []
  else
    let userIds := userIds talentsData in
    if (length userIds =? 0)%nat
    then setTalents (map (fun t => mkView t None) talentsData)
    else
      let* r := query (SelectProfilesIn "id, full_name, email" userIds)
                      (Db.select_profiles_brief_in userIds) in
      match Reply.error r with
      | Some profilesError => throw profilesError
      | None =>
          match Reply.data r with
          | None => throw "TypeError: profilesData is null"
          | Some profilesData => setTalents (withProfiles profilesData talentsData)
          end
      end.

(** Lines 21-64 *)
Definition fetchAllTalents : M State unit :=
  setLoading true ;;
  setError "" ;;
  try_finally
    (try_catch
       (let* r := query (SelectTalents created_at) (Db.select_talents created_at) in
        match Reply.error r with
        | Some talentsError => throw talentsError
        | None =>
            match Reply.data r with
            | None => setTalents []
            | Some talentsData => resolve talentsData
            end
        end)
       (fun err =>
          console_error "Error fetching talents:" err ;;
          setError "Failed to fetch talents. Please check the console."))
    (setLoading false).

(** Lines 66-81; [confirmed] is the operator's answer to [window.confirm]. *)
Definition handleDelete (confirmed : bool) (talentId : string) : M State unit :=
  if confirmed then
    try_catch
      (let* r := command (DeleteTalent talentId) (Db.delete_talent talentId) in
       match Reply.error r with
       | Some error => throw error
       | None => try_catch fetchAllTalents (fun _ => ret tt)
       end)
      (fun err =>
         console_error "Error deleting talent:" err ;;
         alert ("Failed to delete talent: " +:+ err))
  else ret tt.

End AdminTalentShowcase.

(** A [<select>] as rendered: the browser delivers a change event, and so
    runs [onChange], only for a control that is not disabled. *)
Record Select (S : Type) := mkSelect {
  value : string;
  options : list string;
  disabled : bool;
  onChange : string -> M S unit;
}.
Arguments mkSelect {S} value options disabled onChange.
Arguments value {S} s.
Arguments options {S} s.
Arguments disabled {S} s.
Arguments onChange {S} s.

Definition change {S} (control : Select S) (chosen : string) : M S unit :=
  if disabled control then ret tt else onChange control chosen.

(** ** [AdminUserManagement] *)
Module AdminUserManagement.

Record State := mk {
  users : list Profile;
  loading : bool;
  error : string;
  searchQuery : string;
}.

Definition setUsers (x : list Profile) : M State unit :=
  set_state (fun s => mk x (loading s) (error s) (searchQuery s)).
Definition setLoading (x : bool) : M State unit :=
  set_state (fun s => mk (users s) x (error s) (searchQuery s)).
Definition setError (x : string) : M State unit :=
  set_state (fun s => mk (users s) (loading s) x (searchQuery s)).

(** Lines 15-32 *)
Definition fetchAllUsers : M State unit :=
  setLoading true ;;
  setError "" ;;
  try_finally
    (try_catch
       (let* r := query SelectProfiles Db.select_profiles in
        match Reply.error r with
        | Some error => throw error
        | None => setUsers (default [] (Reply.data r))
        end)
       (fun err =>
          console_error "Error fetching users:" err ;;
          setError "Failed to fetch users. Ensure you are logged in as an admin."))
    (setLoading false).

(** Lines 34-48 *)
Definition handleRoleChange (userId newRole : string) : M State unit :=
  try_catch
    (let* r := command (UpdateProfileRole userId newRole)
                       (Db.update_profile_role userId newRole) in
     match Reply.error r with
     | Some error => throw error
     | None => try_catch fetchAllUsers (fun _ => ret tt)
     end)
    (fun err =>
       console_error "Error updating role:" err ;;
       alert ("Failed to update role: " +:+ err)).

(** [field?.toLowerCase().includes(q)] as a condition: a null [field]
    counts as false. *)
Definition lowerIncludes (field : option string) (q : string) : bool :=
  match field with
  | Some text => JS.includes (JS.toLowerCase text) q
  | None => false
  end.

(** Lines 50-56 *)
Definition filteredUsers (s : State) : list Profile :=
  if negb (JS.truthy (searchQuery s)) then users s
  else
    let q := JS.toLowerCase (searchQuery s) in
    List.filter
      (fun user =>
         lowerIncludes (Profile.full_name user) q
         || lowerIncludes (Profile.email user) q)%bool
      (users s).

(** Line 109 *)
Definition protectedEmail : string := "udhayas1309@gmail.com".

(** Lines 104-113: the role control of the row rendered for [user]. *)
Definition roleSelect (user : Profile) : Select State :=
  mkSelect (Profile.role user) ["user"; "admin"]
           (bool_decide (Profile.email user = Some protectedEmail))
           (fun chosen => handleRoleChange (Profile.id user) chosen).

End AdminUserManagement.

(** ** [AdminHostelServices] *)
Module AdminHostelServices.

(** [interface HostelServiceWithProfile] *)
Record HostelServiceWithProfile := mkView {
  row : HostelService;
  profiles : option ProfileBrief;
}.

Record State := mk {
  services : list HostelServiceWithProfile;
  loading : bool;
  error : string;
  expandedRow : option string;
}.

Definition setServices (x : list HostelServiceWithProfile) : M State unit :=
  set_state (fun s => mk x (loading s) (error s) (expandedRow s)).
Definition setLoading (x : bool) : M State unit :=
  set_state (fun s => mk (services s) x (error s) (expandedRow s)).
Definition setError (x : string) : M State unit :=
  set_state (fun s => mk (services s) (loading s) x (expandedRow s)).
Definition setExpandedRow (x : option string) : M State unit :=
  set_state (fun s => mk (services s) (loading s) (error s) x).

(** Lines 69-74 *)
Definition withProfiles (profilesData : list ProfileBrief)
    (servicesData : list HostelService) : list HostelServiceWithProfile :=
  let profilesMap := JS.new_Map (map (fun p => (ProfileBrief.id p, p)) profilesData) in
  map (fun service => mkView service (profilesMap !! HostelService.user_id service))
      servicesData.

(** Lines 43-84 *)
Definition fetchAllServices : M State unit :=
  setLoading true ;;
  setError "" ;;
  try_finally
    (try_catch
       (let* r := query SelectHostelServices Db.select_hostel_services in
        match Reply.error r with
        | Some servicesError => throw servicesError
        | None =>
            match Reply.data r with
            | None => setServices [] ;; setLoading false
            | Some [] => setServices [] ;; setLoading false
            | Some servicesData =>
                let userIds := JS.set_to_array (map HostelService.user_id servicesData) in
                let* p := query (SelectProfilesIn "id, full_name, email" userIds)
                                (Db.select_profiles_brief_in userIds) in
                match Reply.error p with
                | Some profilesError => throw profilesError
                | None =>
                    match Reply.data p with
                    | None => throw "TypeError: profilesData is null"
                    | Some profilesData =>
                        setServices (withProfiles profilesData servicesData)
                    end
                end
            end
        end)
       (fun err =>
          console_error "Error fetching services:" err ;;
          setError "Failed to fetch service requests. Please check the console."))
    (setLoading false).

(** Lines 86-98: [updated_at] is [new Date().toISOString()], the browser's
    clock. *)
Definition handleStatusChange (serviceId newStatus : string) : M State unit :=
  try_catch
    (let* updated_at := Date_now in
     let* r := command (UpdateHostelService serviceId newStatus updated_at)
                       (Db.update_hostel_service serviceId newStatus updated_at) in
     match Reply.error r with
     | Some error => throw error
     | None => try_catch fetchAllServices (fun _ => ret tt)
     end)
    (fun err =>
       console_error "Error updating status:" err ;;
       alert "Failed to update status.").

(** Lines 100-102 *)
Definition toggleRow (id : string) : M State unit :=
  let* s := get_state in
  setExpandedRow (if decide (expandedRow s = Some id) then None else Some id).

(** Lines 156-165: the status control of a row; it is never disabled. *)
Definition statusSelect (service : HostelServiceWithProfile) : Select State :=
  mkSelect (HostelService.status (row service))
           ["Pending"; "In Progress"; "Completed"]
           false
           (fun chosen => handleStatusChange (HostelService.id (row service)) chosen).

End AdminHostelServices.

(** ** A small store for worked examples *)
Module Scenario.

Definition root : Profile :=
  Profile.mk "u0" (Some "Udhaya") (Some "udhayas1309@gmail.com") "admin" None None 50.
Definition alice : Profile :=
  Profile.mk "u1" (Some "Alice") (Some "alice@example.com") "user" (Some "CSE") (Some "2")
             100.

(** Two items of [alice] and one whose owner has no profile. *)
Definition song : Talent :=
  Talent.mk "t1" "u1" "Evening song" "An unplugged set" "Music"
            (Some ["guitar"; "acoustic"]) "https://cdn.example/t1.png" "image" 1000 1.
Definition sketch : Talent :=
  Talent.mk "t2" "u9" "Harbour" "Pencil on paper" "Art" None "" "image" 2000 0.
Definition reel : Talent :=
  Talent.mk "t3" "u1" "Street reel" "Thirty seconds of dance" "Dance"
            (Some []) "https://cdn.example/t3.mp4" "video" 3000 0.

Definition leak : HostelService :=
  HostelService.mk "req-1" 10 "Plumbing" "12" "B" "Completed" "High"
                   "Leaking tap" "u1" 20.

Definition store : Db.t :=
  Db.mk [song; sketch; reel] [root; alice] [TalentLike.mk "t1" "u1"] []
        [leak] [] 5000 7 "https://project.example".

(** The browser clock (9000) is ahead of the store's (5000). *)
Definition world : World := mkWorld store [] [] 9000 [] [].

(** The same, but the next request is answered with an error. *)
Definition refusing : World := mkWorld store [Some "permission denied"] [] 9000 [] [].

Definition viewer : User := User.mk "u1" "alice@example.com".

Definition fresh : TalentShowcase.State := TalentShowcase.mk [] true false "" created_at.

(** A list loaded some time ago: only [sketch], not liked. *)
Definition stale : TalentShowcase.State :=
  TalentShowcase.mk [TalentShowcase.mkView sketch None false] false false "" created_at.

Definition users : AdminUserManagement.State := AdminUserManagement.mk [root; alice] false "" "".

Definition services : AdminHostelServices.State :=
  AdminHostelServices.mk
    [AdminHostelServices.mkView leak (Some (ProfileBrief.of_profile alice))] false "" None.

Definition admin : AdminTalentShowcase.State := AdminTalentShowcase.mk [] true "".

Definition clip : File := File.mk "dance.final.mp4" (2 * 1024 * 1024) "video/mp4".
Definition huge : File := File.mk "raw.mov" (15 * 1024 * 1024) "video/quicktime".

End Scenario.

(** * Observations used in the statements *)

Local Open Scope m_scope.

Definition result_of {S A} (x : Res A * S * World) : Res A := x.1.1.
Definition state_of {S A} (x : Res A * S * World) : S := x.1.2.
Definition world_of {S A} (x : Res A * S * World) : World := x.2.

(** The requests sent between two worlds of one run. *)
Definition sent (before after : World) : list Call :=
  drop (length (calls before)) (calls after).

(** The store serves every request still to come. *)
Definition served (w : World) : Prop := Forall (fun f => f = None) (faults w).

Definition is_profiles_query (c : Call) : bool :=
  match c with SelectProfilesIn _ _ => true | _ => false end.
Definition is_likes_query (c : Call) : bool :=
  match c with SelectLikes _ => true | _ => false end.
Definition is_upload (c : Call) : bool :=
  match c with StorageUpload _ _ => true | _ => false end.
Definition is_insert (c : Call) : bool :=
  match c with InsertTalent _ | InsertLike _ _ | InsertComment _ _ _ => true | _ => false end.
Definition is_write (c : Call) : bool :=
  match c with
  | InsertTalent _ | InsertLike _ _ | InsertComment _ _ _ | DeleteLikesMatch _ _
  | UpdateProfileRole _ _ | UpdateHostelService _ _ _ | DeleteTalent _
  | StorageUpload _ _ => true
  | _ => false
  end.

(** The world after one more round trip. *)
Definition after_call (c : Call) (d : Db.t) (w : World) : World :=
  mkWorld d (tail (faults w)) (calls w ++ [c]) (now w) (alerts w) (console w).

(** A world reached from [w] by read-only round trips [cs], all served. *)
Definition reads (w : World) (cs : list Call) (w' : World) : Prop :=
  db w' = db w ∧ (served w -> served w') ∧ calls w' = calls w ++ cs
  ∧ now w' = now w ∧ alerts w' = alerts w ∧ console w' = console w.

(** The requests of the join and of the personalization step. *)
Definition profile_calls (talentsData : list Talent) : list Call :=
  match TalentShowcase.userIds talentsData with
  | [] => []
  | ids => [SelectProfilesIn "*" ids]
  end.

Definition likes_calls (user : option User) : list Call :=
  match user with
  | Some u => [SelectLikes (User.id u)]
  | None => []
  end.

Definition with_console_error (msg err : string) (w : World) : World :=
  mkWorld (db w) (faults w) (calls w) (now w) (alerts w) (console w ++ [(msg, err)]).

Definition with_alert (msg : string) (w : World) : World :=
  mkWorld (db w) (faults w) (calls w) (now w) (alerts w ++ [msg]) (console w).

Definition with_talents (x : list TalentShowcase.TalentWithProfile) (l : bool)
    (s : TalentShowcase.State) : TalentShowcase.State :=
  TalentShowcase.mk x l (TalentShowcase.showUploadModal s)
                    (TalentShowcase.searchQuery s) (TalentShowcase.sortBy s).

(** The filter condition in the spec's words, to be compared with
    [TalentShowcase.filteredTalents]: [text] contains [filterText] as a
    case-insensitive substring when some substring of [text] equals
    [filterText] up to the case of its letters. Two characters are the same
    letter up to case when they are equal or are the capital and the small
    form of one of the letters A to Z. *)
Definition capital (c : ascii) : Prop := (65 <= JS.byte c <= 90)%N.

Definition same_letter (a b : ascii) : Prop :=
  a = b
  ∨ (capital a ∧ JS.byte b = JS.byte a + 32)%N
  ∨ (capital b ∧ JS.byte a = JS.byte b + 32)%N.

Fixpoint same_ignoring_case (a b : string) : Prop :=
  match a, b with
  | EmptyString, EmptyString => True
  | String x a', String y b' => same_letter x y ∧ same_ignoring_case a' b'
  | _, _ => False
  end.

Definition contains_ignoring_case (text filterText : string) : Prop :=
  ∃ pre mid post,
    text = pre +:+ mid +:+ post ∧ same_ignoring_case mid filterText.

Definition spec_matches (filterText : string) (t : TalentShowcase.TalentWithProfile) : Prop :=
  contains_ignoring_case (Talent.title (TalentShowcase.row t)) filterText
  ∨ contains_ignoring_case (Talent.description (TalentShowcase.row t)) filterText
  ∨ ∃ tags tag, Talent.tags (TalentShowcase.row t) = Some tags ∧ tag ∈ tags
                ∧ contains_ignoring_case tag filterText.

(** The claim of C7 as the spec words it, for one state of the component. *)
Definition keeps_matching (s : TalentShowcase.State) : Prop :=
  ∀ t, t ∈ TalentShowcase.filteredTalents s
       ↔ t ∈ TalentShowcase.talents s ∧ spec_matches (TalentShowcase.searchQuery s) t.

(** Text of the basic Latin block: every character is one byte below 128. *)
Fixpoint basic_latin (s : string) : Prop :=
  match s with
  | EmptyString => True
  | String c s' => (JS.byte c < 128)%N ∧ basic_latin s'
  end.

Definition basic_latin_talent (t : TalentShowcase.TalentWithProfile) : Prop :=
  basic_latin (Talent.title (TalentShowcase.row t))
  ∧ basic_latin (Talent.description (TalentShowcase.row t))
  ∧ ∀ tags tag, Talent.tags (TalentShowcase.row t) = Some tags -> tag ∈ tags ->
                basic_latin tag.

Definition basic_latin_field (field : option string) : Prop :=
  match field with
  | Some text => basic_latin text
  | None => True
  end.

(** The lower-cased search text occurs in the lower-cased [text]. *)
Definition contains_lowered (text filterText : string) : Prop :=
  ∃ pre post, JS.toLowerCase text = pre +:+ JS.toLowerCase filterText +:+ post.

Definition lowered_matches (filterText : string) (t : TalentShowcase.TalentWithProfile)
    : Prop :=
  contains_lowered (Talent.title (TalentShowcase.row t)) filterText
  ∨ contains_lowered (Talent.description (TalentShowcase.row t)) filterText
  ∨ ∃ tags tag, Talent.tags (TalentShowcase.row t) = Some tags ∧ tag ∈ tags
                ∧ contains_lowered tag filterText.

(** The letters A to Z replaced by their small forms. *)
Definition small (c : ascii) : ascii :=
  if decide (capital c) then ascii_of_N (JS.byte c + 32) else c.

Fixpoint small_letters (s : string) : string :=
  match s with
  | EmptyString => EmptyString
  | String c s' => String (small c) (small_letters s')
  end.

(** The claim of C8 as the spec words it: the inserted [media_type] is
    "video" for a MIME type of the form "video/..." and "image" for anything
    else. *)
Definition media_type_by_mime (f : File) : string :=
  if JS.startsWith (File.type f) "video/" then "video" else "image".

Definition inserts_by_mime (file : File) (u : User) (p : TalentShowcase.State)
    (s : UploadTalentModal.State) (w : World) : Prop :=
  let x := (UploadTalentModal.handleFileChange [file] ;;
            UploadTalentModal.submit (Some u)) (p, s) w in
  ∀ row, InsertTalent row ∈ sent w (world_of x) ->
         NewTalent.media_type row = media_type_by_mime file.

(** What a fully served [fetchTalents] computes from the store. *)
Definition view (user : option User) (k : SortKey) (d : Db.t)
    : list TalentShowcase.TalentWithProfile :=
  let talentsData := Db.select_talents k d in
  let joined :=
    match TalentShowcase.userIds talentsData with
    | [] => TalentShowcase.initial talentsData
    | ids => TalentShowcase.withProfiles (Db.select_profiles_in ids d)
                                         (TalentShowcase.initial talentsData)
    end in
  match user with
  | Some u =>
      TalentShowcase.withLikes
        (TalentShowcase.likedIds (Some (Db.select_likes (User.id u) d))) joined
  | None => joined
  end.

Definition fetch_calls (user : option User) (k : SortKey) (d : Db.t) : list Call :=
  SelectTalents k :: profile_calls (Db.select_talents k d) ++ likes_calls user.

Definition find_talent (talentId : string) (l : list TalentShowcase.TalentWithProfile)
    : option TalentShowcase.TalentWithProfile :=
  List.find (fun t => bool_decide (TalentShowcase.id t = talentId)) l.

(** The request [handleLike] sends for a record, and what it does to the
    store when served. *)
Definition toggle_call (talentId : string) (u : User)
    (talent : TalentShowcase.TalentWithProfile) : Call :=
  if TalentShowcase.is_liked talent
  then DeleteLikesMatch talentId (User.id u)
  else InsertLike talentId (User.id u).

Definition toggle_write (talentId : string) (u : User)
    (talent : TalentShowcase.TalentWithProfile) (d : Db.t) : Db.t :=
  if TalentShowcase.is_liked talent
  then Db.delete_likes_match talentId (User.id u) d
  else Db.insert_like talentId (User.id u) d.

(** The world after the write of [handleLike]: the store changes only when
    the request is served. *)
Definition after_toggle (talentId : string) (u : User)
    (talent : TalentShowcase.TalentWithProfile) (w : World) : World :=
  mkWorld (match (next_fault w).1 with
           | None => toggle_write talentId u talent (db w)
           | Some _ => db w
           end)
          (next_fault w).2 (calls w ++ [toggle_call talentId u talent])
          (now w) (alerts w) (console w).

(** The store after [handleLike] on a loaded list, when served. *)
Definition toggled (u : User) (talentId : string)
    (l : list TalentShowcase.TalentWithProfile) (d : Db.t) : Db.t :=
  match find_talent talentId l with
  | Some talent => toggle_write talentId u talent d
  | None => d
  end.

(** The claim of C9 as the spec words it: the timestamp written with the new
    status is the store's own time. *)
Definition stamps_store_time (serviceId newStatus : string)
    (s : AdminHostelServices.State) (w : World) : Prop :=
  let x := AdminHostelServices.handleStatusChange serviceId newStatus s w in
  ∀ r, r ∈ Db.hostel_services (db (world_of x)) -> HostelService.id r = serviceId ->
       HostelService.status r = newStatus ∧ HostelService.updated_at r = Db.clock (db w).

(** ** Sequences of user actions *)

(** The viewer clicks the like buttons of the items [ids], one after the
    other; each click runs [handleLike] to its end. *)
Fixpoint likeAll (user : option User) (ids : list string) : M TalentShowcase.State unit :=
  match ids with
  | [] => ret tt
  | talentId :: rest => TalentShowcase.handleLike user talentId ;; likeAll user rest
  end.

(** The file dialog is used several times; each element of [picks] is the
    [e.target.files] of one change event. *)
Fixpoint chooseAll {P} (picks : list (list File)) : M (P * UploadTalentModal.State) unit :=
  match picks with
  | [] => ret tt
  | files :: rest => UploadTalentModal.handleFileChange files ;; chooseAll rest
  end.

(** [sep] does not occur in [s]. *)
Fixpoint free_of (sep : ascii) (s : string) : Prop :=
  match s with
  | EmptyString => True
  | String c s' => c ≠ sep ∧ free_of sep s'
  end.

(** White space by code point, as ECMA-262 lists it: the characters tab to
    carriage return, the space, the no-break space, the other space
    separators, the line and paragraph separators and the byte order mark. *)
Definition white (c : N) : Prop :=
  (9 <= c <= 13 ∨ c = 0x20 ∨ c = 0xA0 ∨ c = 0x1680 ∨ 0x2000 <= c <= 0x200A
   ∨ c = 0x2028 ∨ c = 0x2029 ∨ c = 0x202F ∨ c = 0x205F ∨ c = 0x3000 ∨ c = 0xFEFF)%N.

(** [s] consists of white space only (or is empty). *)
Definition only_spaces (s : string) : Prop :=
  ∃ l, Forall white l ∧ s = JS.fromCodePoints l.

(** [s] starts, or ends, with a white space character. *)
Definition starts_with_space (s : string) : Prop :=
  ∃ c rest, white c ∧ s = JS.encode c +:+ rest.

Definition ends_with_space (s : string) : Prop :=
  ∃ c pre, white c ∧ s = pre +:+ JS.encode c.

(** Words written one after the other, and two conditions on a set of
    words: each is one to three bytes long, and none starts with another. *)
Definition concat_all (l : list string) : string := fold_right append "" l.

Definition short (ws : list string) : Prop :=
  Forall (fun w => (1 <= String.length w <= 3)%nat) ws.

Definition prefix_free (ws : list string) : Prop :=
  Forall (fun w => Forall (fun w' => JS.startsWith w' w = true -> w = w') ws) ws.

(** The form holds no file above the size limit. *)
Definition within_limit (s : UploadTalentModal.State) : Prop :=
  match UploadTalentModal.mediaFile s with
  | Some f => File.size f <= UploadTalentModal.maxSize
  | None => True
  end.

(** [s] ends with [suffix]. *)
Definition ends_with (s suffix : string) : Prop := ∃ pre, s = pre +:+ suffix.

(** More sample data: a comment thread and refusal scripts. *)
Module Cases.

Definition praise : TalentComment := TalentComment.mk "c1" 1500 "Lovely!" "u1" "t1".
Definition aside : TalentComment := TalentComment.mk "c2" 1600 "Nice lines" "u0" "t2".

Definition store : Db.t :=
  Db.mk [Scenario.song; Scenario.sketch; Scenario.reel] [Scenario.root; Scenario.alice]
        [TalentLike.mk "t1" "u1"] [praise; aside] [Scenario.leak] [] 5000 7
        "https://project.example".

Definition world : World := mkWorld store [] [] 9000 [] [].

(** The next request is refused. *)
Definition refusing : World := mkWorld store [Some "permission denied"] [] 9000 [] [].

(** The next request is served, the one after it is refused. *)
Definition refusing_second : World :=
  mkWorld store [None; Some "row-level security"] [] 9000 [] [].

Definition thread : CommentsModal.State := CommentsModal.mk [] "  Encore!  " true.
(** A draft made of a space, a no-break space, an em space and a tab. *)
Definition blank : CommentsModal.State :=
  CommentsModal.mk [] (JS.fromCodePoints [0x20; 0xA0; 0x2003; 0x9]%N) false.

(** A feed with text outside basic Latin, and the search text typed. *)
Definition ecole : Talent :=
  Talent.mk "t4" "u1" "École de danse" "Cours du soir" "Dance" None "" "image" 4000 0.
Definition mousike : Talent :=
  Talent.mk "t5" "u1" "ΜΟΥΣΙΚΗ" "ΧΟΡΟΣ" "Music" None "" "image" 5000 0.

Definition feed (searchQuery : string) : TalentShowcase.State :=
  TalentShowcase.mk
    [TalentShowcase.mkView ecole None false; TalentShowcase.mkView mousike None false]
    false false searchQuery created_at.

(** A user list with a profile that has neither name nor email. *)
Definition nameless : Profile := Profile.mk "u2" None None "user" None None 150.

Definition people (searchQuery : string) : AdminUserManagement.State :=
  AdminUserManagement.mk [Scenario.root; Scenario.alice; nameless] false "" searchQuery.

(** A file whose type starts with "video" without being a "video/..." type. *)
Definition tape : File := File.mk "lecture.tape" (2 * 1024 * 1024) "videotape/x".

(** The tags field "rock,_, jazz_,pop", where _ is a no-break space. *)
Definition spaced : string :=
  "rock," +:+ JS.encode 0xA0 +:+ ", jazz" +:+ JS.encode 0xA0 +:+ ",pop".

Definition picked : UploadTalentModal.State :=
  UploadTalentModal.mk false
    (UploadTalentModal.mkForm "Reel" "Dance" "Dance" " hiphop, street ,,")
    (Some Scenario.clip) "".

End Cases.

(** * Properties *)

(** ** Observing a run *)

Lemma sent_refl w : sent w w = [].
Proof. unfold sent. apply drop_all. Qed.

Lemma sent_app w w' l : calls w' = calls w ++ l -> sent w w' = l.
Proof. intros E. unfold sent. rewrite E. apply drop_app_length. Qed.

Lemma served_tail d c w : served w -> served (after_call c d w).
Proof.
  unfold served. simpl. destruct (faults w); simpl; [done|].
  intros H. by apply Forall_cons in H as [_ H].
Qed.

Lemma next_fault_served w : served w -> next_fault w = (None, tail (faults w)).
Proof.
  unfold served, next_fault. destruct (faults w) as [|f l]; [done|].
  intros H. apply Forall_cons in H as [-> _]. done.
Qed.

Lemma query_served {S A} (c : Call) (read : Db.t -> A) (s : S) w :
  served w ->
  query c read s w = (Ok (Reply.mk (Some (read (db w))) None), s, after_call c (db w) w).
Proof. intros H. unfold query. by rewrite next_fault_served. Qed.

Lemma command_served {S} (c : Call) (write : Db.t -> Db.t) (s : S) w :
  served w ->
  command c write s w = (Ok (Reply.mk None None), s, after_call c (write (db w)) w).
Proof. intros H. unfold command. by rewrite next_fault_served. Qed.

Lemma query_failed {S A} (c : Call) (read : Db.t -> A) (s : S) w e rest :
  faults w = Some e :: rest ->
  query c read s w =
    (Ok (Reply.mk None (Some e)), s,
     mkWorld (db w) rest (calls w ++ [c]) (now w) (alerts w) (console w)).
Proof. intros H. unfold query, next_fault. by rewrite H. Qed.

Lemma command_failed {S} (c : Call) (write : Db.t -> Db.t) (s : S) w e rest :
  faults w = Some e :: rest ->
  command c write s w =
    (Ok (Reply.mk None (Some e)), s,
     mkWorld (db w) rest (calls w ++ [c]) (now w) (alerts w) (console w)).
Proof. intros H. unfold command, next_fault. by rewrite H. Qed.

(** ** Sets and maps built from arrays *)

Section SetToArray.

Local Abbreviation step :=
  (fun (acc : list string) (x : string) => if decide (x ∈ acc) then acc else acc ++ [x]).

Lemma set_to_array_acc (arr acc : list string) :
  NoDup acc ->
  NoDup (fold_left step arr acc)
  ∧ (∀ x, x ∈ fold_left step arr acc ↔ x ∈ acc ∨ x ∈ arr)
  ∧ (fold_left step arr acc = [] ↔ acc = [] ∧ arr = []).
Proof.
  revert acc. induction arr as [|a arr IH]; intros acc Hnd; simpl.
  - split; [done|]. split; [set_solver|naive_solver].
  - destruct (decide (a ∈ acc)) as [Hin|Hin].
    + destruct (IH acc Hnd) as (H1 & H2 & H3). split; [done|]. split.
      * intros x. rewrite H2. set_solver.
      * rewrite H3. split; [|naive_solver]. intros [-> _]. by apply elem_of_nil in Hin.
    + assert (NoDup (acc ++ [a])) as Hnd'.
      { apply NoDup_app. split; [done|]. split; [|apply NoDup_singleton].
        intros x Hx Hx'. apply list_elem_of_singleton in Hx' as ->. done. }
      destruct (IH _ Hnd') as (H1 & H2 & H3). split; [done|]. split.
      * intros x. rewrite H2. set_solver.
      * rewrite H3. split; [|naive_solver]. intros [E _]. by destruct acc.
Qed.

End SetToArray.

Lemma set_to_array_NoDup arr : NoDup (JS.set_to_array arr).
Proof. apply (set_to_array_acc arr []). constructor. Qed.

Lemma elem_of_set_to_array arr x : x ∈ JS.set_to_array arr ↔ x ∈ arr.
Proof.
  destruct (set_to_array_acc arr [] (NoDup_nil_2)) as (_ & H & _).
  unfold JS.set_to_array. rewrite H. set_solver.
Qed.

Lemma set_to_array_nil arr : JS.set_to_array arr = [] ↔ arr = [].
Proof.
  destruct (set_to_array_acc arr [] (NoDup_nil_2)) as (_ & _ & H).
  unfold JS.set_to_array. rewrite H. naive_solver.
Qed.

Lemma find_append {A} (f : A -> bool) (l1 l2 : list A) :
  List.find f (l1 ++ l2)
  = match List.find f l1 with Some x => Some x | None => List.find f l2 end.
Proof. induction l1 as [|a l1 IH]; simpl; [done|]. by destruct (f a). Qed.

Section NewMap.
Context {V : Type} (key : V -> string).

Lemma new_Map_acc (l : list V) (m : gmap string V) (k : string) :
  fold_left (fun m kv => <[kv.1 := kv.2]> m) (map (fun p => (key p, p)) l) m !! k
  = match List.find (fun p => bool_decide (key p = k)) (rev l) with
    | Some p => Some p
    | None => m !! k
    end.
Proof.
  revert m. induction l as [|a l IH]; intros m; simpl; [done|].
  rewrite IH. rewrite find_append.
  destruct (List.find _ (rev l)); [done|]. simpl.
  case_bool_decide as E.
  - by rewrite <- E, lookup_insert_eq.
  - by rewrite lookup_insert_ne.
Qed.

(** [profilesMap.get(k)] is the last entry whose key is [k]. *)
Lemma new_Map_lookup (l : list V) (k : string) :
  JS.new_Map (map (fun p => (key p, p)) l) !! k
  = List.find (fun p => bool_decide (key p = k)) (rev l).
Proof.
  unfold JS.new_Map. rewrite new_Map_acc, lookup_empty. by destruct (List.find _ _).
Qed.

Lemma new_Map_lookup_None (l : list V) (k : string) :
  JS.new_Map (map (fun p => (key p, p)) l) !! k = None ↔ ∀ p, p ∈ l -> key p ≠ k.
Proof.
  rewrite new_Map_lookup. split.
  - intros H p Hp E.
    assert (bool_decide (key p = k) = false) as F.
    { apply (find_none _ _ H p). apply -> in_rev. by apply list_elem_of_In. }
    by apply bool_decide_eq_false in F.
  - intros H. destruct (List.find _ _) as [p|] eqn:E; [|done].
    apply find_some in E as [Hin Hk]. apply bool_decide_eq_true in Hk.
    apply in_rev, list_elem_of_In in Hin. by destruct (H p Hin).
Qed.

Lemma new_Map_lookup_Some (l : list V) (k : string) (p : V) :
  JS.new_Map (map (fun p => (key p, p)) l) !! k = Some p -> p ∈ l ∧ key p = k.
Proof.
  rewrite new_Map_lookup. intros E. apply find_some in E as [Hin Hk].
  apply bool_decide_eq_true in Hk. by apply in_rev, list_elem_of_In in Hin.
Qed.

End NewMap.

(** ** The join against [profiles] *)

Lemma elem_of_select_profiles_in ids d p :
  p ∈ Db.select_profiles_in ids d ↔ Profile.id p ∈ ids ∧ p ∈ Db.profiles d.
Proof. unfold Db.select_profiles_in. by rewrite list_elem_of_filter. Qed.


Lemma userIds_nil (talentsData : list Talent) :
  TalentShowcase.userIds talentsData = [] ↔ talentsData = [].
Proof.
  unfold TalentShowcase.userIds. rewrite set_to_array_nil.
  split; [apply fmap_nil_inv | by intros ->].
Qed.

(** What [attachProfiles] does, whatever the store answers. *)
Lemma attachProfiles_run {S} talentsData processed (s : S) w :
  TalentShowcase.attachProfiles talentsData processed s w =
  match TalentShowcase.userIds talentsData with
  | [] => (Ok processed, s, w)
  | ids =>
      let w' := mkWorld (db w) (next_fault w).2 (calls w ++ [SelectProfilesIn "*" ids])
                        (now w) (alerts w) (console w) in
      match (next_fault w).1 with
      | None => (Ok (TalentShowcase.withProfiles (Db.select_profiles_in ids (db w)) processed),
                 s, w')
      | Some e => (Throw e, s, w')
      end
  end.
Proof.
  unfold TalentShowcase.attachProfiles.
  destruct (TalentShowcase.userIds talentsData) as [|k ids]; [done|].
  change (0 <? length (k :: ids))%nat with true. cbv iota.
  unfold bind, query, throw, ret. by destruct (next_fault w) as [[e|] rest].
Qed.

Lemma withProfiles_rows profilesData processed :
  map TalentShowcase.row (TalentShowcase.withProfiles profilesData processed)
  = map TalentShowcase.row processed.
Proof. unfold TalentShowcase.withProfiles. rewrite map_map. done. Qed.

Lemma withProfiles_liked profilesData processed :
  map TalentShowcase.is_liked (TalentShowcase.withProfiles profilesData processed)
  = map TalentShowcase.is_liked processed.
Proof. unfold TalentShowcase.withProfiles. rewrite map_map. done. Qed.

Lemma initial_rows talentsData :
  map TalentShowcase.row (TalentShowcase.initial talentsData) = talentsData.
Proof. unfold TalentShowcase.initial. rewrite map_map. simpl. apply map_id. Qed.

Lemma initial_blank talentsData t :
  t ∈ TalentShowcase.initial talentsData ->
  TalentShowcase.profile t = None ∧ TalentShowcase.is_liked t = false.
Proof.
  unfold TalentShowcase.initial. intros H.
  apply list_elem_of_fmap in H as (r & -> & _). done.
Qed.

(** The profile attached to a row is absent exactly when the queried
    profiles contain none with the row's [user_id]. *)
Lemma withProfiles_profile profilesData processed t :
  t ∈ TalentShowcase.withProfiles profilesData processed ->
  (TalentShowcase.profile t = None
   ↔ ∀ p, p ∈ profilesData -> Profile.id p ≠ Talent.user_id (TalentShowcase.row t))
  ∧ (∀ p, TalentShowcase.profile t = Some p ->
          p ∈ profilesData ∧ Profile.id p = Talent.user_id (TalentShowcase.row t)).
Proof.
  unfold TalentShowcase.withProfiles. intros H.
  apply list_elem_of_fmap in H as (r & -> & _). simpl. split.
  - apply new_Map_lookup_None.
  - intros p. apply new_Map_lookup_Some.
Qed.



Lemma admin_resolve_run talentsData (s : AdminTalentShowcase.State) w :
  AdminTalentShowcase.resolve talentsData s w =
  match talentsData with
  | [] => (Ok tt, AdminTalentShowcase.mk [] (AdminTalentShowcase.loading s)
                    (AdminTalentShowcase.error s), w)
  | _ =>
      let ids := AdminTalentShowcase.userIds talentsData in
      let w' := mkWorld (db w) (next_fault w).2
                        (calls w ++ [SelectProfilesIn "id, full_name, email" ids])
                        (now w) (alerts w) (console w) in
      match (next_fault w).1 with
      | None =>
          (Ok tt,
           AdminTalentShowcase.mk
             (AdminTalentShowcase.withProfiles (Db.select_profiles_brief_in ids (db w))
                                               talentsData)
             (AdminTalentShowcase.loading s) (AdminTalentShowcase.error s), w')
      | Some e => (Throw e, s, w')
      end
  end.
Proof.
  unfold AdminTalentShowcase.resolve. destruct talentsData as [|r l]; [done|].
  change (length (r :: l) =? 0)%nat with false. cbv iota.
  destruct (AdminTalentShowcase.userIds (r :: l)) as [|k ids] eqn:E.
  { by apply (userIds_nil (r :: l)) in E. }
  change (length (k :: ids) =? 0)%nat with false. cbv iota zeta.
  unfold bind, query, throw, ret. by destruct (next_fault w) as [[e|] rest].
Qed.

Lemma admin_withProfiles_rows profilesData talentsData :
  map AdminTalentShowcase.row (AdminTalentShowcase.withProfiles profilesData talentsData)
  = talentsData.
Proof. unfold AdminTalentShowcase.withProfiles. rewrite map_map. apply map_id. Qed.

Lemma elem_of_select_profiles_brief_in ids d b :
  b ∈ Db.select_profiles_brief_in ids d
  ↔ ∃ p, b = ProfileBrief.of_profile p ∧ Profile.id p ∈ ids ∧ p ∈ Db.profiles d.
Proof.
  unfold Db.select_profiles_brief_in. rewrite list_elem_of_fmap.
  setoid_rewrite elem_of_select_profiles_in. done.
Qed.


(** ** The viewer's reactions and the whole fetch *)

Lemma reads_nil w : reads w [] w.
Proof. unfold reads. by rewrite app_nil_r. Qed.

Lemma reads_query w c rest :
  (served w -> Forall (fun f => f = None) rest) ->
  reads w [c] (mkWorld (db w) rest (calls w ++ [c]) (now w) (alerts w) (console w)).
Proof. unfold reads. naive_solver. Qed.

Lemma reads_trans w1 w2 w3 cs cs' :
  reads w1 cs w2 -> reads w2 cs' w3 -> reads w1 (cs ++ cs') w3.
Proof.
  unfold reads. intros (?&?&?&?&?&?) (?&?&E&?&?&?).
  rewrite E, app_assoc. repeat split; try congruence; auto.
Qed.

Lemma served_rest w : served w -> Forall (fun f => f = None) (next_fault w).2.
Proof.
  unfold served, next_fault. destruct (faults w); simpl; [done|].
  intros H. by apply Forall_cons in H as [_ H].
Qed.

Lemma attachLikes_run {S} user processed (s : S) w :
  TalentShowcase.attachLikes user processed s w =
  match user with
  | None => (Ok processed, s, w)
  | Some u =>
      let likesData :=
        match (next_fault w).1 with
        | None => Some (Db.select_likes (User.id u) (db w))
        | Some _ => None
        end in
      (Ok (TalentShowcase.withLikes (TalentShowcase.likedIds likesData) processed), s,
       mkWorld (db w) (next_fault w).2 (calls w ++ [SelectLikes (User.id u)])
               (now w) (alerts w) (console w))
  end.
Proof.
  unfold TalentShowcase.attachLikes. destruct user as [u|]; [|done].
  unfold bind, query, ret. by destruct (next_fault w) as [[e|] rest].
Qed.

Lemma withLikes_rows liked processed :
  map TalentShowcase.row (TalentShowcase.withLikes liked processed)
  = map TalentShowcase.row processed.
Proof. unfold TalentShowcase.withLikes. by rewrite map_map. Qed.

Lemma withLikes_profiles liked processed :
  map TalentShowcase.profile (TalentShowcase.withLikes liked processed)
  = map TalentShowcase.profile processed.
Proof. unfold TalentShowcase.withLikes. by rewrite map_map. Qed.

Lemma withLikes_flag liked processed t :
  t ∈ TalentShowcase.withLikes liked processed ->
  TalentShowcase.is_liked t = bool_decide (TalentShowcase.id t ∈ liked).
Proof.
  unfold TalentShowcase.withLikes. intros H.
  apply list_elem_of_fmap in H as (r & -> & _). done.
Qed.

Lemma attachProfiles_effect {S} talentsData processed (s : S) w :
  let x := TalentShowcase.attachProfiles talentsData processed s w in
  state_of x = s ∧ reads w (profile_calls talentsData) (world_of x)
  ∧ ∀ out, result_of x = Ok out ->
           map TalentShowcase.row out = map TalentShowcase.row processed
           ∧ map TalentShowcase.is_liked out = map TalentShowcase.is_liked processed.
Proof.
  intros x. subst x. rewrite attachProfiles_run. unfold profile_calls.
  destruct (TalentShowcase.userIds talentsData) as [|k ks].
  { split; [done|]. split; [apply reads_nil|]. by intros out [= <-]. }
  cbv zeta. pose proof (served_rest w) as Hs.
  destruct (next_fault w) as [[e|] rest]; cbn [fst snd] in *.
  - split; [done|]. split; [by apply reads_query|]. done.
  - split; [done|]. split; [by apply reads_query|]. unfold result_of. cbn [fst].
    intros out E.
    replace out with (TalentShowcase.withProfiles
                        (Db.select_profiles_in (k :: ks) (db w)) processed) by congruence.
    by rewrite withProfiles_rows, withProfiles_liked.
Qed.

Lemma attachLikes_effect {S} user processed (s : S) w :
  let x := TalentShowcase.attachLikes user processed s w in
  state_of x = s ∧ reads w (likes_calls user) (world_of x)
  ∧ ∃ out, result_of x = Ok out
           ∧ map TalentShowcase.row out = map TalentShowcase.row processed
           ∧ map TalentShowcase.profile out = map TalentShowcase.profile processed.
Proof.
  intros x. subst x. rewrite attachLikes_run. destruct user as [u|].
  - cbv zeta. split; [done|]. split; [apply reads_query, served_rest|].
    eexists. split; [done|]. by rewrite withLikes_rows, withLikes_profiles.
  - split; [done|]. split; [apply reads_nil|]. by exists processed.
Qed.

Lemma aggregate_effect {S} user talentsData (s : S) w :
  let x := TalentShowcase.aggregate user talentsData s w in
  state_of x = s
  ∧ reads w (profile_calls talentsData ++
             match result_of x with Ok _ => likes_calls user | Throw _ => [] end)
          (world_of x)
  ∧ ∀ out, result_of x = Ok out ->
           map TalentShowcase.row out = talentsData
           ∧ (user = None -> Forall (fun t => TalentShowcase.is_liked t = false) out).
Proof.
  intros x. subst x. unfold TalentShowcase.aggregate, bind.
  pose proof (attachProfiles_effect talentsData (TalentShowcase.initial talentsData) s w)
    as (Hs & Hw & Hout).
  destruct (TalentShowcase.attachProfiles _ _ s w) as [[[mid|e] s1] w1];
    unfold state_of, world_of, result_of in *; cbn [fst snd] in *.
  - subst s1. destruct (Hout mid eq_refl) as [Hrows Hliked].
    pose proof (attachLikes_effect user mid s w1) as (Hs' & Hw' & out & Ho & Hr & _).
    pose proof (attachLikes_run user mid s w1) as Hrun.
    destruct (TalentShowcase.attachLikes user mid s w1) as [[r2 s2] w2];
      unfold state_of, world_of, result_of in *; cbn [fst snd] in *.
    split; [done|]. subst r2. split; [by eapply reads_trans|].
    intros out' E. assert (out' = out) as -> by congruence.
    split; [by rewrite Hr, Hrows, initial_rows|].
    intros ->. assert (out = mid) as -> by congruence.
    apply Forall_forall. intros t Ht.
    assert (TalentShowcase.is_liked t ∈ map TalentShowcase.is_liked mid) as Hin
      by (apply list_elem_of_fmap; eauto).
    rewrite Hliked in Hin. apply list_elem_of_fmap in Hin as (t0 & -> & Ht0).
    by apply initial_blank in Ht0 as [_ ?].
  - rewrite app_nil_r. done.
Qed.

(** [fetchTalents], whatever the store answers. *)
Lemma fetchTalents_run user s w :
  TalentShowcase.fetchTalents user s w =
  let k := TalentShowcase.sortBy s in
  let w1 := mkWorld (db w) (next_fault w).2 (calls w ++ [SelectTalents k])
                    (now w) (alerts w) (console w) in
  match (next_fault w).1 with
  | Some e =>
      (Ok tt, with_talents (TalentShowcase.talents s) false s,
       with_console_error "Error fetching talents:" e w1)
  | None =>
      match TalentShowcase.aggregate user (Db.select_talents k (db w))
              (with_talents (TalentShowcase.talents s) true s) w1 with
      | (Ok out, _, w') => (Ok tt, with_talents out false s, w')
      | (Throw e, _, w') =>
          (Ok tt, with_talents (TalentShowcase.talents s) false s,
           with_console_error "Error fetching talents:" e w')
      end
  end.
Proof.
  unfold TalentShowcase.fetchTalents, bind, try_finally, try_catch,
    TalentShowcase.setLoading, TalentShowcase.setTalents, set_state, get_state,
    query, console_error, throw.
  cbn [TalentShowcase.sortBy]. cbv zeta.
  destruct (next_fault w) as [[e|] rest]; cbn [fst snd Reply.error Reply.data]; [done|].
  pose proof (aggregate_effect user (Db.select_talents (TalentShowcase.sortBy s) (db w))
    (with_talents (TalentShowcase.talents s) true s)
    (mkWorld (db w) rest (calls w ++ [SelectTalents (TalentShowcase.sortBy s)])
       (now w) (alerts w) (console w))) as (Hs & _).
  unfold with_talents in *.
  destruct (TalentShowcase.aggregate user _ _ _) as [[[out|e] s'] w'];
    unfold state_of in Hs; cbn [fst snd] in Hs; subst s'; done.
Qed.

Lemma snoc_neq {A} (l : list A) (x : A) : l ++ [x] ≠ l.
Proof.
  intros E. apply (f_equal length) in E. rewrite length_app in E. simpl in E. lia.
Qed.

Lemma reads_snoc_neq {A} (l l1 : list A) (x : A) : (l ++ l1) ++ [x] ≠ l.
Proof.
  intros E. apply (f_equal length) in E. rewrite !length_app in E. simpl in E. lia.
Qed.

(** A fetch either ends silently with the rows of the primary query, or
    reports an error and leaves the list as it was. *)
Lemma fetchTalents_outcome (user : option User) (s : TalentShowcase.State) (w : World) :
  let x := TalentShowcase.fetchTalents user s w in
  (console (world_of x) = console w
   ∧ map TalentShowcase.row (TalentShowcase.talents (state_of x))
     = Db.select_talents (TalentShowcase.sortBy s) (db w))
  ∨ (console (world_of x) ≠ console w
     ∧ TalentShowcase.talents (state_of x) = TalentShowcase.talents s).
Proof.
  intros x. subst x. rewrite fetchTalents_run. cbv zeta.
  destruct (next_fault w) as [[e|] rest]; cbn [fst snd].
  { right. unfold world_of. cbn. split; [apply snoc_neq|done]. }
  pose proof (aggregate_effect user (Db.select_talents (TalentShowcase.sortBy s) (db w))
    (with_talents (TalentShowcase.talents s) true s)
    (mkWorld (db w) rest (calls w ++ [SelectTalents (TalentShowcase.sortBy s)])
       (now w) (alerts w) (console w))) as (_ & Hr & Hout).
  destruct (TalentShowcase.aggregate user _ _ _) as [[[out|e] s'] w'];
    unfold state_of, world_of, result_of in *; cbn [fst snd] in *.
  - left. destruct Hr as (_ & _ & _ & _ & _ & Hc). cbn in *. split; [done|].
    by apply Hout.
  - right. destruct Hr as (_ & _ & _ & _ & _ & Hc). cbn in *. rewrite Hc.
    split; [apply snoc_neq|done].
Qed.

(** C10. A fetch that ends without reporting an error leaves in [talents]
    one record per row of the primary query, in the query's order, and each
    record carries its row unchanged: only [profile] and [is_liked] are
    added. *)
Theorem C10_fetch_frame (user : option User) (s : TalentShowcase.State) (w : World) :
  let x := TalentShowcase.fetchTalents user s w in
  console (world_of x) = console w ->
  map TalentShowcase.row (TalentShowcase.talents (state_of x))
  = Db.select_talents (TalentShowcase.sortBy s) (db w).
Proof.
  intros x Hc. by destruct (fetchTalents_outcome user s w) as [[_ ?]|[? _]].
Qed.

Lemma reads_sent w cs w' : reads w cs w' -> sent w w' = cs.
Proof. intros (_ & _ & E & _). by apply sent_app. Qed.

Lemma elem_of_likedIds (uid : string) (d : Db.t) (i : string) :
  i ∈ TalentShowcase.likedIds (Some (Db.select_likes uid d))
  ↔ ∃ l, l ∈ Db.talent_likes d ∧ TalentLike.user_id l = uid ∧ TalentLike.talent_id l = i.
Proof.
  unfold TalentShowcase.likedIds, JS.new_Set, Db.select_likes.
  rewrite elem_of_list_to_set, list_elem_of_fmap.
  setoid_rewrite list_elem_of_filter. naive_solver.
Qed.

Lemma profile_calls_no_likes talentsData :
  List.filter is_likes_query (profile_calls talentsData) = [].
Proof. unfold profile_calls. by destruct (TalentShowcase.userIds talentsData). Qed.

(** C6. Personalization. Without a viewer the pipeline of [fetchTalents]
    sends no reaction query and every record it returns has
    [is_liked = false]; the personalization step itself then leaves the
    list and the world as they are. With a viewer the step sends exactly one
    request, the reaction query scoped to that viewer, and sets each
    record's flag to membership of the record's id in the set built from the
    answer: the talent ids of the viewer's reaction rows when the query is
    served, the empty set when it is answered with an error. *)
Theorem C6_personalization (talentsData : list Talent)
    (recs : list TalentShowcase.TalentWithProfile) (u : User)
    (s : TalentShowcase.State) (w : World) :
  let x := TalentShowcase.aggregate None talentsData s w in
  let y := TalentShowcase.attachLikes (Some u) recs s w in
  ((∀ out, result_of x = Ok out ->
           Forall (fun t => TalentShowcase.is_liked t = false) out)
   ∧ List.filter is_likes_query (sent w (world_of x)) = [])
  ∧ TalentShowcase.attachLikes None recs s w = (Ok recs, s, w)
  ∧ sent w (world_of y) = [SelectLikes (User.id u)]
  ∧ ∃ (out : list TalentShowcase.TalentWithProfile) (liked : gset string),
      result_of y = Ok out
      ∧ map TalentShowcase.row out = map TalentShowcase.row recs
      ∧ map TalentShowcase.profile out = map TalentShowcase.profile recs
      ∧ (∀ t, t ∈ out ->
              TalentShowcase.is_liked t = bool_decide (TalentShowcase.id t ∈ liked))
      ∧ ((next_fault w).1 = None ->
         ∀ i, i ∈ liked ↔ ∃ l, l ∈ Db.talent_likes (db w)
                               ∧ TalentLike.user_id l = User.id u
                               ∧ TalentLike.talent_id l = i)
      ∧ (∀ e, (next_fault w).1 = Some e -> liked = ∅).
Proof.
  intros x y. split; [|split; [done|]].
  - pose proof (aggregate_effect None talentsData s w) as (_ & Hr & Hout).
    fold x in Hr, Hout. split.
    + intros out E. by apply (Hout out E).
    + apply reads_sent in Hr. rewrite Hr, List.filter_app, profile_calls_no_likes.
      by destruct (result_of x).
  - subst y. rewrite attachLikes_run. cbv zeta. unfold world_of, result_of. cbn [fst snd].
    split; [by apply sent_app|].
    eexists. eexists. split; [done|].
    split; [apply withLikes_rows|]. split; [apply withLikes_profiles|].
    split; [apply withLikes_flag|]. split.
    + intros ->. apply elem_of_likedIds.
    + by intros e ->.
Qed.

(** ** The search filter *)

Lemma append_nil (s : string) : "" +:+ s = s.
Proof. done. Qed.

Lemma append_cons (c : ascii) (s t : string) : String c s +:+ t = String c (s +:+ t).
Proof. done. Qed.

Lemma string_length_app (a b : string) :
  String.length (a +:+ b) = (String.length a + String.length b)%nat.
Proof. induction a as [|c a IH]; simpl; [done|]. by rewrite IH. Qed.

Lemma string_app_nil_r (s : string) : s +:+ "" = s.
Proof. induction s as [|c s IH]; [done|]. by rewrite append_cons, IH. Qed.

Lemma string_app_assoc (a b c : string) : (a +:+ b) +:+ c = a +:+ (b +:+ c).
Proof. induction a as [|x a IH]; [done|]. by rewrite !append_cons, IH. Qed.

Lemma startsWith_spec s p : JS.startsWith s p = true ↔ ∃ post, s = p +:+ post.
Proof.
  revert s. induction p as [|a p IH]; intros s.
  - split; [by exists s|by destruct s].
  - destruct s as [|b s]; simpl.
    { split; [done|]. by intros [post E]. }
    destruct (decide (a = b)) as [->|Hne].
    + rewrite IH. split.
      * intros [post ->]. by exists post.
      * intros [post E]. simpl in E. injection E as ->. by exists post.
    + split; [done|]. intros [post E]. simpl in E. injection E as E _. by destruct Hne.
Qed.

Lemma includes_unfold s q :
  JS.includes s q =
  if JS.startsWith s q then true
  else match s with
       | EmptyString => false
       | String _ s' => JS.includes s' q
       end.
Proof. by destruct s. Qed.

Lemma includes_spec s q : JS.includes s q = true ↔ ∃ pre post, s = pre +:+ q +:+ post.
Proof.
  induction s as [|c s IH]; rewrite includes_unfold.
  - destruct (JS.startsWith "" q) eqn:E.
    + apply startsWith_spec in E as [post E]. split; [|done]. by exists "", post.
    + split; [done|]. intros (pre & post & E'). destruct pre; [|done]. simpl in E'.
      assert (JS.startsWith "" q = true) by (apply startsWith_spec; eauto). congruence.
  - destruct (JS.startsWith (String c s) q) eqn:E.
    + apply startsWith_spec in E as [post E]. split; [|done]. by exists "", post.
    + rewrite IH. split.
      * intros (pre & post & ->). by exists (String c pre), post.
      * intros (pre & post & E'). destruct pre as [|c' pre].
        -- simpl in E'.
           assert (JS.startsWith (String c s) q = true) by (apply startsWith_spec; eauto).
           congruence.
        -- simpl in E'. injection E' as -> ->. eauto.
Qed.

(** *** Lower-casing basic Latin text *)

Lemma byte_inj a b : JS.byte a = JS.byte b -> a = b.
Proof.
  unfold JS.byte. intros E. apply (f_equal ascii_of_N) in E.
  by rewrite !ascii_N_embedding in E.
Qed.

Lemma byte_small c :
  JS.byte (small c) = (if decide (capital c) then JS.byte c + 32 else JS.byte c)%N.
Proof.
  unfold small. destruct (decide (capital c)) as [H|H]; [|done].
  unfold JS.byte, capital in *. apply N_ascii_embedding. unfold JS.byte in H. lia.
Qed.

Lemma small_eq a b : small a = small b ↔ same_letter a b.
Proof.
  split.
  - intros E. apply (f_equal JS.byte) in E. rewrite !byte_small in E.
    unfold same_letter.
    destruct (decide (capital a)) as [Ha|Ha], (decide (capital b)) as [Hb|Hb];
      unfold capital in *.
    + left. apply byte_inj. lia.
    + right. left. split; [done|]. lia.
    + right. right. split; [done|]. lia.
    + left. by apply byte_inj.
  - intros [->|[[Ha E]|[Hb E]]]; [done|..]; apply byte_inj; rewrite !byte_small;
      unfold capital in *;
      destruct (decide (65 <= JS.byte a <= 90)%N), (decide (65 <= JS.byte b <= 90)%N); lia.
Qed.

Lemma small_letters_eq a b : small_letters a = small_letters b ↔ same_ignoring_case a b.
Proof.
  revert b. induction a as [|x a IH]; intros [|y b]; simpl; try done.
  rewrite <- IH, <- small_eq. split; [by intros [= -> ->]|by intros [-> ->]].
Qed.

Lemma small_letters_app a b : small_letters (a +:+ b) = small_letters a +:+ small_letters b.
Proof. induction a as [|c a IH]; [done|]. rewrite append_cons. simpl. by rewrite IH. Qed.

Lemma small_letters_split s a b :
  small_letters s = a +:+ b ->
  ∃ s1 s2, s = s1 +:+ s2 ∧ small_letters s1 = a ∧ small_letters s2 = b.
Proof.
  revert s. induction a as [|c a IH]; intros s E.
  - by exists "", s.
  - destruct s as [|c' s]; [done|]. rewrite append_cons in E. simpl in E.
    injection E as Hc E.
    destruct (IH s E) as (s1 & s2 & -> & <- & <-).
    exists (String c' s1), s2. simpl. by rewrite Hc.
Qed.

Lemma basic_latin_app a b : basic_latin (a +:+ b) ↔ basic_latin a ∧ basic_latin b.
Proof.
  induction a as [|c a IH]; [rewrite append_nil; simpl; tauto|].
  rewrite append_cons. simpl. rewrite IH. tauto.
Qed.

Lemma codePoints_basic c s :
  (JS.byte c < 128)%N -> JS.codePoints (String c s) = JS.byte c :: JS.codePoints s.
Proof.
  intros H. apply N.ltb_lt in H. cbn [JS.codePoints]. cbv zeta. by rewrite H.
Qed.

Lemma lower_basic c (b : bool) (rest : list N) :
  (JS.byte c < 128)%N ->
  (if (JS.byte c =? 0x3A3)%N && b && negb (JS.before_cased rest) then [0x3C2%N]
   else if (JS.byte c =? 0x130)%N then [0x69%N; 0x307%N]
   else [JS.lower_simple (JS.byte c)]) = [JS.byte (small c)]
  ∧ JS.encode (JS.byte (small c)) = String (small c) "".
Proof.
  destruct c as [[] [] [] [] [] [] [] []]; intros H; try (by vm_compute in H);
    vm_compute; done.
Qed.

Lemma lower_from_basic s b :
  basic_latin s ->
  JS.fromCodePoints (JS.lower_from b (JS.codePoints s)) = small_letters s.
Proof.
  revert b. induction s as [|c s IH]; intros b; [done|]. intros [Hc Hs].
  rewrite (codePoints_basic _ _ Hc). cbn [JS.lower_from].
  destruct (lower_basic c b (JS.codePoints s) Hc) as [-> E].
  cbn [app JS.fromCodePoints fold_right]. rewrite E, append_cons, append_nil.
  simpl. f_equal. by apply IH.
Qed.

Lemma toLowerCase_basic s : basic_latin s -> JS.toLowerCase s = small_letters s.
Proof. apply lower_from_basic. Qed.

(** On basic Latin text the source's test is containment up to the case of
    the letters. *)
Lemma includes_basic text filterText :
  basic_latin text -> basic_latin filterText ->
  JS.includes (JS.toLowerCase text) (JS.toLowerCase filterText) = true
  ↔ contains_ignoring_case text filterText.
Proof.
  intros Ht Hq. rewrite (toLowerCase_basic _ Ht), (toLowerCase_basic _ Hq).
  rewrite includes_spec. unfold contains_ignoring_case. split.
  - intros (pre & post & E). apply small_letters_split in E as (s1 & s' & -> & H1 & E).
    apply small_letters_split in E as (s2 & s3 & -> & H2 & H3).
    exists s1, s2, s3. split; [done|]. by apply small_letters_eq.
  - intros (pre & mid & post & -> & E). apply small_letters_eq in E.
    exists (small_letters pre), (small_letters post).
    by rewrite !small_letters_app, E.
Qed.

Lemma includes_lowered text filterText :
  JS.includes (JS.toLowerCase text) (JS.toLowerCase filterText) = true
  ↔ contains_lowered text filterText.
Proof. apply includes_spec. Qed.

Lemma includes_empty s : JS.includes s "" = true.
Proof. by destruct s. Qed.

Lemma filter_all {A} (f : A -> bool) (l : list A) :
  (∀ x, f x = true) -> List.filter f l = l.
Proof. intros H. induction l as [|a l IH]; simpl; [done|]. by rewrite H, IH. Qed.

Lemma filter_sublist {A} (f : A -> bool) (l : list A) : sublist (List.filter f l) l.
Proof.
  induction l as [|a l IH]; simpl; [constructor|].
  destruct (f a); by constructor.
Qed.

Lemma tagsSome_spec (P : string -> Prop) q (tags : option (list string)) :
  (∀ tag, (∃ l, tags = Some l ∧ tag ∈ l) ->
          JS.includes (JS.toLowerCase tag) q = true ↔ P tag) ->
  TalentShowcase.tagsSome q tags = true ↔ ∃ l tag, tags = Some l ∧ tag ∈ l ∧ P tag.
Proof.
  intros HP. unfold TalentShowcase.tagsSome. destruct tags as [l|].
  - rewrite existsb_exists. split.
    + intros (tag & Hin & Htag). apply list_elem_of_In in Hin. exists l, tag.
      split; [done|]. split; [done|]. apply HP; eauto.
    + intros (l' & tag & [= <-] & Hin & Htag). exists tag.
      split; [by apply list_elem_of_In|]. apply HP; eauto.
  - split; [done|]. by intros (? & ? & ? & _).
Qed.

(** C7. The client-side filter keeps, in their order, exactly the records
    for which the lower-cased search text occurs in the lower-cased title,
    in the lower-cased description or in some lower-cased tag; records
    without tags can only match by title or description. When the search
    text and the record are basic Latin text, these are exactly the records
    whose title, description or some tag contains the search text as a
    case-insensitive substring. With the empty search text the filter
    returns the whole list. *)
Theorem C7_search_filter (s : TalentShowcase.State) :
  let q := TalentShowcase.searchQuery s in
  (∀ t, t ∈ TalentShowcase.filteredTalents s
        ↔ t ∈ TalentShowcase.talents s ∧ lowered_matches q t)
  ∧ (basic_latin q ->
     ∀ t, basic_latin_talent t ->
          (t ∈ TalentShowcase.filteredTalents s
           ↔ t ∈ TalentShowcase.talents s ∧ spec_matches q t))
  ∧ sublist (TalentShowcase.filteredTalents s) (TalentShowcase.talents s)
  ∧ (q = "" -> TalentShowcase.filteredTalents s = TalentShowcase.talents s).
Proof.
  intros q. unfold TalentShowcase.filteredTalents. cbv zeta. fold q.
  split; [|split; [|split]].
  - intros t. rewrite list_elem_of_In, filter_In, <- list_elem_of_In.
    apply and_iff_compat_l. rewrite !orb_true_iff, !includes_lowered.
    rewrite (tagsSome_spec (fun tag => contains_lowered tag q))
      by (intros tag _; apply includes_lowered).
    unfold lowered_matches. tauto.
  - intros Hq t (Ht & Hd & Htags).
    rewrite list_elem_of_In, filter_In, <- list_elem_of_In.
    apply and_iff_compat_l. rewrite !orb_true_iff, !includes_basic by done.
    rewrite (tagsSome_spec (fun tag => contains_ignoring_case tag q)).
    + unfold spec_matches. tauto.
    + intros tag (l & El & Hin). apply includes_basic; [|done]. by apply (Htags l).
  - apply filter_sublist.
  - intros E. rewrite E. apply filter_all. intros t.
    change (JS.toLowerCase "") with "". by rewrite includes_empty.
Qed.

(** ** Ordering *)

Lemma place_perm {A} (key : A -> Z) (x : A) (l : list A) : Db.place key x l ≡ₚ x :: l.
Proof.
  induction l as [|y l IH]; simpl; [done|].
  destruct (key y <=? key x); [done|]. rewrite IH. apply Permutation_swap.
Qed.

Lemma order_desc_perm {A} (key : A -> Z) (l : list A) : Db.order_desc key l ≡ₚ l.
Proof.
  unfold Db.order_desc. induction l as [|x l IH]; simpl; [done|].
  by rewrite place_perm, IH.
Qed.

Lemma elem_of_order_desc {A} (key : A -> Z) (l : list A) (x : A) :
  x ∈ Db.order_desc key l ↔ x ∈ l.
Proof. by rewrite order_desc_perm. Qed.

(** ** Role changes *)

Lemma fetchAllUsers_run (s : AdminUserManagement.State) w :
  AdminUserManagement.fetchAllUsers s w =
  let w1 := mkWorld (db w) (next_fault w).2 (calls w ++ [SelectProfiles])
                    (now w) (alerts w) (console w) in
  match (next_fault w).1 with
  | Some e =>
      (Ok tt,
       AdminUserManagement.mk (AdminUserManagement.users s) false
         "Failed to fetch users. Ensure you are logged in as an admin."
         (AdminUserManagement.searchQuery s),
       with_console_error "Error fetching users:" e w1)
  | None =>
      (Ok tt,
       AdminUserManagement.mk (Db.select_profiles (db w)) false ""
         (AdminUserManagement.searchQuery s), w1)
  end.
Proof.
  unfold AdminUserManagement.fetchAllUsers, bind, try_finally, try_catch,
    AdminUserManagement.setLoading, AdminUserManagement.setError,
    AdminUserManagement.setUsers, set_state, query, console_error, throw.
  by destruct (next_fault w) as [[e|] rest].
Qed.

Lemma handleRoleChange_run userId newRole (s : AdminUserManagement.State) w :
  AdminUserManagement.handleRoleChange userId newRole s w =
  let c := UpdateProfileRole userId newRole in
  match (next_fault w).1 with
  | Some e =>
      (Ok tt, s,
       with_alert ("Failed to update role: " +:+ e)
         (with_console_error "Error updating role:" e
            (mkWorld (db w) (next_fault w).2 (calls w ++ [c])
                     (now w) (alerts w) (console w))))
  | None =>
      AdminUserManagement.fetchAllUsers s
        (mkWorld (Db.update_profile_role userId newRole (db w)) (next_fault w).2
                 (calls w ++ [c]) (now w) (alerts w) (console w))
  end.
Proof.
  unfold AdminUserManagement.handleRoleChange, bind, try_catch, command,
    console_error, alert, throw.
  destruct (next_fault w) as [[e|] rest]; cbn [fst snd Reply.error]; [done|].
  rewrite fetchAllUsers_run. cbv zeta. cbn [db faults calls now alerts console].
  by destruct (next_fault _).1.
Qed.

(** C1. The role control of a row. For the protected identity the control
    is disabled and a change request does nothing at all: no request is
    sent, the store (and with it the stored role) and the component are as
    before. For any other row, when the store serves its requests, the
    change is written for the target's id and the list is fetched again:
    every stored profile with that id appears in the fetched list with the
    new role. *)
Theorem C1_role_update (target : Profile) (newRole : string)
    (s : AdminUserManagement.State) (w : World) :
  let x := change (AdminUserManagement.roleSelect target) newRole s w in
  (Profile.email target = Some AdminUserManagement.protectedEmail ->
     disabled (AdminUserManagement.roleSelect target) = true ∧ x = (Ok tt, s, w))
  ∧ (Profile.email target ≠ Some AdminUserManagement.protectedEmail -> served w ->
     db (world_of x) = Db.update_profile_role (Profile.id target) newRole (db w)
     ∧ sent w (world_of x) = [UpdateProfileRole (Profile.id target) newRole; SelectProfiles]
     ∧ alerts (world_of x) = alerts w
     ∧ AdminUserManagement.users (state_of x) = Db.select_profiles (db (world_of x))
     ∧ (∀ p, p ∈ Db.profiles (db w) -> Profile.id p = Profile.id target ->
             Profile.with_role newRole p ∈ AdminUserManagement.users (state_of x))
     ∧ (∀ p, p ∈ AdminUserManagement.users (state_of x) ->
             Profile.id p = Profile.id target -> Profile.role p = newRole)).
Proof.
  intros x. subst x. unfold change, AdminUserManagement.roleSelect.
  cbn [disabled onChange]. split.
  - intros E. by rewrite bool_decide_eq_true_2.
  - intros Hne Hs. rewrite bool_decide_eq_false_2 by done.
    rewrite handleRoleChange_run. cbv zeta.
    rewrite (next_fault_served w Hs). cbn [fst snd].
    rewrite fetchAllUsers_run. cbv zeta.
    set (w1 := mkWorld _ _ _ _ _ _).
    assert (served w1) as Hs1.
    { unfold served, w1. cbn. unfold served in Hs. destruct (faults w); [done|].
      by apply Forall_cons in Hs as [_ ?]. }
    rewrite (next_fault_served w1 Hs1). unfold world_of, state_of. cbn.
    split; [done|]. split; [apply sent_app; by rewrite <- app_assoc|].
    split; [done|]. split; [done|].
    unfold Db.select_profiles, Db.update_profile_role. cbn. split.
    + intros p Hp E. apply elem_of_order_desc, list_elem_of_fmap. exists p.
      by rewrite decide_True.
    + intros p Hp E. apply elem_of_order_desc, list_elem_of_fmap in Hp as (q & -> & _).
      destruct (decide (Profile.id q = Profile.id target)) as [|Hn]; [done|].
      by destruct Hn.
Qed.

(** ** Service-request status *)

Lemma services_withProfiles_rows profilesData servicesData :
  map AdminHostelServices.row (AdminHostelServices.withProfiles profilesData servicesData)
  = servicesData.
Proof. unfold AdminHostelServices.withProfiles. rewrite map_map. apply map_id. Qed.

Lemma fetchAllServices_served (s : AdminHostelServices.State) w :
  served w ->
  let x := AdminHostelServices.fetchAllServices s w in
  result_of x = Ok tt
  ∧ map AdminHostelServices.row (AdminHostelServices.services (state_of x))
    = Db.select_hostel_services (db w)
  ∧ db (world_of x) = db w
  ∧ alerts (world_of x) = alerts w
  ∧ console (world_of x) = console w
  ∧ ∃ rest, calls (world_of x) = calls w ++ SelectHostelServices :: rest.
Proof.
  intros Hs x. subst x.
  unfold AdminHostelServices.fetchAllServices, bind, try_finally, try_catch,
    AdminHostelServices.setLoading, AdminHostelServices.setError,
    AdminHostelServices.setServices, set_state, console_error, throw.
  rewrite (query_served _ _ _ _ Hs). cbn [Reply.error Reply.data].
  destruct (Db.select_hostel_services (db w)) as [|r l] eqn:E.
  { unfold state_of, world_of, result_of. cbn. repeat split; try done. by exists []. }
  rewrite query_served by (by apply served_tail).
  unfold state_of, world_of, result_of.
  cbn [fst snd AdminHostelServices.services db alerts console calls after_call
       Reply.error Reply.data].
  rewrite services_withProfiles_rows.
  repeat split; try done. eexists. by rewrite <- app_assoc.
Qed.

(** A call that is not awaited never throws into its caller. *)
Lemma not_awaited {S} (m : M S unit) (s : S) w :
  ∃ s' w', try_catch m (fun _ => ret tt) s w = (Ok tt, s', w').
Proof. unfold try_catch, ret. destruct (m s w) as [[[[]|e] s'] w']; eauto. Qed.

Lemma handleStatusChange_run serviceId newStatus (s : AdminHostelServices.State) w :
  AdminHostelServices.handleStatusChange serviceId newStatus s w =
  let c := UpdateHostelService serviceId newStatus (now w) in
  match (next_fault w).1 with
  | Some e =>
      (Ok tt, s,
       with_alert "Failed to update status."
         (with_console_error "Error updating status:" e
            (mkWorld (db w) (next_fault w).2 (calls w ++ [c])
                     (now w) (alerts w) (console w))))
  | None =>
      try_catch AdminHostelServices.fetchAllServices (fun _ => ret tt) s
        (mkWorld (Db.update_hostel_service serviceId newStatus (now w) (db w))
                 (next_fault w).2 (calls w ++ [c]) (now w) (alerts w) (console w))
  end.
Proof.
  unfold AdminHostelServices.handleStatusChange, bind, command,
    console_error, alert, throw, Date_now.
  unfold try_catch at 1.
  destruct (next_fault w) as [[e|] rest]; cbn [fst snd Reply.error]; [done|].
  set (w1 := mkWorld _ _ _ _ _ _).
  destruct (not_awaited AdminHostelServices.fetchAllServices s w1) as (s' & w' & E).
  by rewrite E.
Qed.

(** C9 as amended. When the store serves its requests, [handleStatusChange]
    writes [status = newStatus] together with an update timestamp read from
    the caller's own clock (the browser's [new Date()], not the store's
    clock) to every request with the given id, whatever status the request
    had, and then fetches the list again. No order of statuses is enforced:
    a regression such as Completed to Pending goes through like any other
    change. *)
Theorem C9_status_update (serviceId newStatus : string)
    (s : AdminHostelServices.State) (w : World) :
  served w ->
  let x := AdminHostelServices.handleStatusChange serviceId newStatus s w in
  db (world_of x) = Db.update_hostel_service serviceId newStatus (now w) (db w)
  ∧ (∀ r, r ∈ Db.hostel_services (db w) -> HostelService.id r = serviceId ->
          HostelService.with_status newStatus (now w) r
          ∈ Db.hostel_services (db (world_of x)))
  ∧ (∀ r, r ∈ Db.hostel_services (db (world_of x)) -> HostelService.id r = serviceId ->
          HostelService.status r = newStatus ∧ HostelService.updated_at r = now w)
  ∧ (∃ rest, sent w (world_of x)
             = UpdateHostelService serviceId newStatus (now w)
               :: SelectHostelServices :: rest)
  ∧ map AdminHostelServices.row (AdminHostelServices.services (state_of x))
    = Db.select_hostel_services (db (world_of x))
  ∧ alerts (world_of x) = alerts w.
Proof.
  intros Hs x. subst x. rewrite handleStatusChange_run. cbv zeta.
  rewrite (next_fault_served w Hs). cbn [fst snd].
  set (w1 := mkWorld _ _ _ _ _ _).
  assert (served w1) as Hs1 by apply (served_tail _ _ _ Hs).
  pose proof (fetchAllServices_served s w1 Hs1) as (Hok & Hrows & Hdb & Hal & _ & rest & Hc).
  unfold try_catch.
  destruct (AdminHostelServices.fetchAllServices s w1) as [[r s'] w'].
  unfold result_of, state_of, world_of in *. cbn [fst snd] in *. subst r.
  cbn [fst snd]. rewrite Hrows, Hdb, Hal. subst w1. cbn [db alerts calls] in *.
  split; [done|]. unfold Db.update_hostel_service.
  cbn [Db.hostel_services Db.with_hostel_services].
  split; [|split; [|split; [|done]]].
  - intros r Hr E. apply list_elem_of_fmap. exists r. by rewrite decide_True.
  - intros r Hr E. apply list_elem_of_fmap in Hr as (q & -> & _).
    destruct (decide (HostelService.id q = serviceId)) as [|Hn]; [done|]. by destruct Hn.
  - exists rest. apply sent_app. rewrite Hc, <- app_assoc. done.
Qed.

(** ** Loading and toggling reactions *)

Lemma fetchTalents_ok user s w : result_of (TalentShowcase.fetchTalents user s w) = Ok tt.
Proof.
  rewrite fetchTalents_run. cbv zeta. destruct (next_fault w).1; [done|].
  by destruct (TalentShowcase.aggregate _ _ _ _) as [[[out|e] s'] w'].
Qed.

Lemma aggregate_served {S} user talentsData (s : S) w :
  served w ->
  ∃ w', TalentShowcase.aggregate user talentsData s w
        = (Ok (match user with
               | Some u =>
                   TalentShowcase.withLikes
                     (TalentShowcase.likedIds (Some (Db.select_likes (User.id u) (db w))))
               | None => fun l => l
               end
                 match TalentShowcase.userIds talentsData with
                 | [] => TalentShowcase.initial talentsData
                 | ids => TalentShowcase.withProfiles (Db.select_profiles_in ids (db w))
                            (TalentShowcase.initial talentsData)
                 end), s, w')
        ∧ reads w (profile_calls talentsData ++ likes_calls user) w'.
Proof.
  intros Hs. unfold TalentShowcase.aggregate, bind. rewrite attachProfiles_run.
  unfold profile_calls.
  destruct (TalentShowcase.userIds talentsData) as [|k ks].
  - rewrite attachLikes_run. destruct user as [u|].
    + cbv zeta. rewrite (next_fault_served w Hs). cbn [fst snd].
      eexists. split; [done|]. apply reads_query. intros _.
      unfold served in Hs. destruct (faults w); [done|].
      by apply Forall_cons in Hs as [_ ?].
    + eexists. split; [done|]. apply reads_nil.
  - cbv zeta. rewrite (next_fault_served w Hs). cbn [fst snd].
    set (w1 := mkWorld _ _ _ _ _ _).
    assert (reads w [SelectProfilesIn "*" (k :: ks)] w1) as Hr.
    { apply reads_query. intros _. unfold served in Hs. destruct (faults w); [done|].
      by apply Forall_cons in Hs as [_ ?]. }
    assert (served w1) as Hs1 by (by apply Hr).
    rewrite attachLikes_run. destruct user as [u|].
    + cbv zeta. rewrite (next_fault_served w1 Hs1). cbn [fst snd].
      eexists. split; [done|]. eapply reads_trans; [done|].
      apply reads_query. intros _. unfold served in Hs1. destruct (faults w1); [done|].
      by apply Forall_cons in Hs1 as [_ ?].
    + eexists. split; [done|]. by rewrite app_nil_r.
Qed.

Lemma fetchTalents_served user s w :
  served w ->
  ∃ w', TalentShowcase.fetchTalents user s w
        = (Ok tt, with_talents (view user (TalentShowcase.sortBy s) (db w)) false s, w')
        ∧ reads w (fetch_calls user (TalentShowcase.sortBy s) (db w)) w'.
Proof.
  intros Hs. rewrite fetchTalents_run. cbv zeta.
  rewrite (next_fault_served w Hs). cbn [fst snd].
  set (w1 := mkWorld _ _ _ _ _ _).
  assert (reads w [SelectTalents (TalentShowcase.sortBy s)] w1) as Hr.
  { apply reads_query. intros _. unfold served in Hs. destruct (faults w); [done|].
    by apply Forall_cons in Hs as [_ ?]. }
  assert (served w1) as Hs1 by (by apply Hr).
  destruct (aggregate_served user (Db.select_talents (TalentShowcase.sortBy s) (db w))
              (with_talents (TalentShowcase.talents s) true s) w1 Hs1) as (w' & E & Hr').
  rewrite E. exists w'. split.
  - unfold view. change (db w1) with (db w). by destruct user.
  - unfold fetch_calls. by apply (reads_trans _ _ _ [_] _ Hr).
Qed.

Lemma handleLike_run u talentId talent s w :
  find_talent talentId (TalentShowcase.talents s) = Some talent ->
  TalentShowcase.handleLike (Some u) talentId s w
  = TalentShowcase.fetchTalents (Some u) s (after_toggle talentId u talent w).
Proof.
  unfold find_talent. intros Hfind.
  unfold TalentShowcase.handleLike, bind, get_state. rewrite Hfind.
  unfold try_catch at 1. unfold bind.
  assert ((if TalentShowcase.is_liked talent
           then command (DeleteLikesMatch talentId (User.id u))
                        (Db.delete_likes_match talentId (User.id u))
           else command (InsertLike talentId (User.id u))
                        (Db.insert_like talentId (User.id u))) s w
          = (Ok (Reply.mk None (next_fault w).1), s, after_toggle talentId u talent w)) as ->.
  { unfold after_toggle, toggle_call, toggle_write, command.
    destruct (TalentShowcase.is_liked talent); by destruct (next_fault w) as [[e|] rest]. }
  destruct (not_awaited (TalentShowcase.fetchTalents (Some u)) s
              (after_toggle talentId u talent w)) as (s' & w' & E).
  rewrite E. unfold try_catch in E.
  pose proof (fetchTalents_ok (Some u) s (after_toggle talentId u talent w)) as Hok.
  destruct (TalentShowcase.fetchTalents (Some u) s _) as [[r s''] w''].
  unfold result_of in Hok. cbn in Hok. subst r. done.
Qed.

(** What every [fetchTalents] does to the world: the primary query is sent
    first, only reads follow, the store and the alerts stay as they are. *)
Lemma fetchTalents_requests user s w :
  let x := TalentShowcase.fetchTalents user s w in
  ∃ rest, calls (world_of x) = calls w ++ SelectTalents (TalentShowcase.sortBy s) :: rest
          ∧ List.filter is_write rest = []
          ∧ db (world_of x) = db w
          ∧ alerts (world_of x) = alerts w.
Proof.
  intros x. subst x. rewrite fetchTalents_run. cbv zeta.
  destruct (next_fault w) as [[e|] rest]; cbn [fst snd].
  { exists []. unfold world_of. cbn. done. }
  set (w1 := mkWorld _ _ _ _ _ _).
  pose proof (aggregate_effect user (Db.select_talents (TalentShowcase.sortBy s) (db w))
    (with_talents (TalentShowcase.talents s) true s) w1) as (_ & Hr & _).
  destruct (TalentShowcase.aggregate user _ _ _) as [[r s'] w'].
  unfold state_of, world_of, result_of in Hr. cbn [fst snd] in Hr.
  destruct Hr as (Hdb & _ & Hc & _ & Hal & _). subst w1. cbn [db calls alerts] in *.
  exists (profile_calls (Db.select_talents (TalentShowcase.sortBy s) (db w))
          ++ match r with Ok _ => likes_calls user | Throw _ => [] end).
  assert (List.filter is_write
            (profile_calls (Db.select_talents (TalentShowcase.sortBy s) (db w))
             ++ match r with Ok _ => likes_calls user | Throw _ => [] end) = []) as Hro.
  { rewrite List.filter_app. unfold profile_calls, likes_calls.
    destruct (TalentShowcase.userIds _); destruct r; by destruct user. }
  destruct r as [out|e]; unfold world_of; cbn [fst snd with_console_error db calls alerts];
    by rewrite Hc, <- app_assoc.
Qed.

(** C3. [handleLike]. Without a viewer it only alerts: no request is sent
    and the store is untouched. With a viewer and a record for the item in
    the loaded list, the first request is one write chosen by the record's
    [is_liked] as last loaded, the delete matching (item, viewer) when liked
    and the insert of (item, viewer) when not; the primary query of
    [fetchTalents] follows it, and after that only reads. The list this
    leaves is either the previous one or made of the rows the store returned
    after the write, never a local edit of a count. When the store serves
    its requests, the requests are the write and those of one full fetch,
    the store holds the written state, and the list is the view of that
    state. When the item is not in the loaded list nothing happens. *)
Theorem C3_toggle_reaction (user : option User) (talentId : string)
    (s : TalentShowcase.State) (w : World) :
  let x := TalentShowcase.handleLike user talentId s w in
  match user with
  | None => x = (Ok tt, s, with_alert "You must be logged in to like a post." w)
  | Some u =>
      match find_talent talentId (TalentShowcase.talents s) with
      | None => x = (Ok tt, s, w)
      | Some talent =>
          let write := if TalentShowcase.is_liked talent
                       then DeleteLikesMatch talentId (User.id u)
                       else InsertLike talentId (User.id u) in
          let written := if TalentShowcase.is_liked talent
                         then Db.delete_likes_match talentId (User.id u) (db w)
                         else Db.insert_like talentId (User.id u) (db w) in
          (∃ rest, sent w (world_of x)
                   = write :: SelectTalents (TalentShowcase.sortBy s) :: rest
                   ∧ List.filter is_write rest = [])
          ∧ alerts (world_of x) = alerts w
          ∧ ((next_fault w).1 = None -> db (world_of x) = written)
          ∧ (TalentShowcase.talents (state_of x) = TalentShowcase.talents s
             ∨ map TalentShowcase.row (TalentShowcase.talents (state_of x))
               = Db.select_talents (TalentShowcase.sortBy s) (db (world_of x)))
          ∧ (served w ->
             sent w (world_of x)
             = write :: fetch_calls (Some u) (TalentShowcase.sortBy s) written
             ∧ state_of x
               = with_talents (view (Some u) (TalentShowcase.sortBy s) written) false s)
      end
  end.
Proof.
  intros x. subst x. destruct user as [u|]; [|done].
  destruct (find_talent talentId (TalentShowcase.talents s)) as [talent|] eqn:Hfind.
  2:{ unfold TalentShowcase.handleLike, bind, get_state, find_talent in *. by rewrite Hfind. }
  cbv zeta. rewrite (handleLike_run _ _ _ _ _ Hfind).
  set (w1 := after_toggle talentId u talent w).
  assert (calls w1 = calls w ++ [if TalentShowcase.is_liked talent
                                 then DeleteLikesMatch talentId (User.id u)
                                 else InsertLike talentId (User.id u)]) as Hc1 by done.
  assert ((next_fault w).1 = None ->
          db w1 = if TalentShowcase.is_liked talent
                  then Db.delete_likes_match talentId (User.id u) (db w)
                  else Db.insert_like talentId (User.id u) (db w)) as Hdb1.
  { intros E. unfold w1, after_toggle, toggle_write. cbn [db]. by rewrite E. }
  destruct (fetchTalents_requests (Some u) s w1) as (rest & Hc & Hro & Hdb & Hal).
  split; [|split; [|split; [|split]]].
  - exists rest. split; [|done]. apply sent_app. by rewrite Hc, Hc1, <- app_assoc.
  - by rewrite Hal.
  - intros E. by rewrite Hdb, Hdb1.
  - rewrite Hdb.
    destruct (fetchTalents_outcome (Some u) s w1) as [[_ ?]|[_ ?]]; [by right|by left].
  - intros Hs. assert (served w1) as Hs1.
    { unfold w1, after_toggle, served. cbn [faults]. by apply served_rest. }
    rewrite <- (Hdb1 (f_equal fst (next_fault_served w Hs))).
    destruct (fetchTalents_served (Some u) s w1 Hs1) as (w' & E & Hr).
    rewrite E. unfold world_of, state_of. cbn [fst snd]. split; [|done].
    destruct Hr as (_ & _ & Hc' & _). apply sent_app.
    by rewrite Hc', Hc1, <- app_assoc.
Qed.

(** *** Store algebra of the two writes *)

Lemma with_likes_count_id n r : Talent.id (Talent.with_likes_count n r) = Talent.id r.
Proof. done. Qed.

Lemma bump_likes_twice tid a b l :
  Db.bump_likes tid a (Db.bump_likes tid b l) = Db.bump_likes tid (b + a) l.
Proof.
  unfold Db.bump_likes. rewrite map_map. apply map_ext. intros r.
  destruct (decide (Talent.id r = tid)) as [E|E].
  - rewrite decide_True by done. unfold Talent.with_likes_count. cbn. f_equal. lia.
  - by rewrite decide_False.
Qed.

Lemma bump_likes_zero tid l : Db.bump_likes tid 0 l = l.
Proof.
  unfold Db.bump_likes. rewrite <- (map_id l) at 2. apply map_ext. intros r.
  destruct (decide (Talent.id r = tid)); [|done].
  destruct r. unfold Talent.with_likes_count. cbn. f_equal. lia.
Qed.

Lemma bump_likes_ids tid a l : map Talent.id (Db.bump_likes tid a l) = map Talent.id l.
Proof.
  unfold Db.bump_likes. rewrite map_map. apply map_ext. intros r.
  by destruct (decide (Talent.id r = tid)).
Qed.

Lemma matches_eq tid uid l : Db.matches tid uid l ↔ l = TalentLike.mk tid uid.
Proof. unfold Db.matches. destruct l as [t u']. cbn. split; [by intros [-> ->]|by intros [= -> ->]]. Qed.

Lemma filter_matches_absent tid uid (l : list TalentLike) :
  TalentLike.mk tid uid ∉ l ->
  filter (Db.matches tid uid) l = [] ∧ filter (fun x => ¬ Db.matches tid uid x) l = l.
Proof.
  induction l as [|x l IH]; [done|]. intros Hn.
  apply not_elem_of_cons in Hn as [Hx Hl]. destruct (IH Hl) as [E1 E2].
  assert (¬ Db.matches tid uid x) as Hm by (rewrite matches_eq; congruence).
  rewrite !filter_cons. rewrite decide_False by done. rewrite decide_True by done.
  by rewrite E1, E2.
Qed.

Lemma filter_matches_present tid uid (l : list TalentLike) :
  NoDup l -> TalentLike.mk tid uid ∈ l ->
  length (filter (Db.matches tid uid) l) = 1%nat.
Proof.
  induction l as [|x l IH]; intros Hnd Hin; [by apply elem_of_nil in Hin|].
  apply NoDup_cons in Hnd as [Hx Hnd]. rewrite filter_cons.
  destruct (decide (Db.matches tid uid x)) as [Hm|Hm].
  - apply matches_eq in Hm as ->.
    destruct (filter_matches_absent tid uid l Hx) as [-> _]. done.
  - apply elem_of_cons in Hin as [E|Hin]; [by destruct Hm; apply matches_eq|].
    by apply IH.
Qed.

Lemma elem_of_filter_unmatched tid uid (l : list TalentLike) x :
  x ∈ filter (fun x => ¬ Db.matches tid uid x) l ↔ x ≠ TalentLike.mk tid uid ∧ x ∈ l.
Proof. rewrite list_elem_of_filter, matches_eq. done. Qed.

(** *** The loaded view *)

Lemma view_rows user k d : map TalentShowcase.row (view user k d) = Db.select_talents k d.
Proof.
  unfold view. cbv zeta.
  destruct user; rewrite ?withLikes_rows;
    destruct (TalentShowcase.userIds _); by rewrite ?withProfiles_rows, initial_rows.
Qed.

Lemma view_flag u k d t :
  t ∈ view (Some u) k d ->
  TalentShowcase.is_liked t
  = bool_decide (TalentLike.mk (TalentShowcase.id t) (User.id u) ∈ Db.talent_likes d).
Proof.
  unfold view. cbv zeta. intros H. apply withLikes_flag in H. rewrite H.
  apply bool_decide_ext. rewrite elem_of_likedIds. split.
  - intros ([a b] & Hin & E1 & E2). cbn in *. by subst.
  - intros Hin. eexists. split; [done|]. done.
Qed.

Lemma view_ext u k d d' :
  Db.talents d' = Db.talents d ->
  Db.profiles d' = Db.profiles d ->
  (∀ i, TalentLike.mk i (User.id u) ∈ Db.talent_likes d'
        ↔ TalentLike.mk i (User.id u) ∈ Db.talent_likes d) ->
  view (Some u) k d' = view (Some u) k d.
Proof.
  intros Ht Hp Hl. unfold view, Db.select_talents, Db.select_profiles_in. cbv zeta.
  rewrite Ht, Hp. f_equal. apply set_eq. intros i. rewrite !elem_of_likedIds.
  split; intros ([a b] & Hin & E1 & E2); cbn in *; subst;
    (eexists; split; [by apply Hl|done]).
Qed.

Lemma find_talent_Some tid l t :
  find_talent tid l = Some t -> t ∈ l ∧ TalentShowcase.id t = tid.
Proof.
  unfold find_talent. intros H. apply find_some in H as [Hin E].
  apply bool_decide_eq_true in E. by apply list_elem_of_In in Hin.
Qed.

Lemma find_talent_is_Some tid l :
  is_Some (find_talent tid l) ↔ tid ∈ map TalentShowcase.id l.
Proof.
  unfold find_talent. rewrite list_elem_of_fmap. split.
  - intros [t H]. apply find_some in H as [Hin E]. apply bool_decide_eq_true in E.
    apply list_elem_of_In in Hin. eauto.
  - intros (t & -> & Hin). destruct (List.find _ l) as [t'|] eqn:E; [by eexists|].
    apply list_elem_of_In in Hin. pose proof (find_none _ _ E t Hin) as F.
    by apply bool_decide_eq_false in F.
Qed.

Lemma view_ids user k d x :
  x ∈ map TalentShowcase.id (view user k d) ↔ x ∈ map Talent.id (Db.talents d).
Proof.
  unfold TalentShowcase.id.
  rewrite <- (map_map TalentShowcase.row Talent.id), view_rows.
  unfold Db.select_talents. by rewrite order_desc_perm.
Qed.

(** *** Two toggles in a row *)

Lemma toggle_write_ids tid u t d :
  map Talent.id (Db.talents (toggle_write tid u t d)) = map Talent.id (Db.talents d).
Proof.
  unfold toggle_write, Db.delete_likes_match, Db.insert_like.
  destruct (TalentShowcase.is_liked t);
    cbn [Db.talents Db.with_talents Db.with_talent_likes]; apply bump_likes_ids.
Qed.

(** One served toggle on a freshly loaded list flips the viewer's flag of
    the item. *)
Lemma toggle_flips u tid k d t :
  find_talent tid (view (Some u) k d) = Some t ->
  ∃ t1, find_talent tid (view (Some u) k (toggle_write tid u t d)) = Some t1
        ∧ TalentShowcase.is_liked t1 = negb (TalentShowcase.is_liked t).
Proof.
  intros F. pose proof (find_talent_Some _ _ _ F) as [Hin Hid].
  assert (is_Some (find_talent tid (view (Some u) k (toggle_write tid u t d)))) as [t1 F1].
  { apply find_talent_is_Some, view_ids. rewrite toggle_write_ids.
    apply (view_ids (Some u) k), find_talent_is_Some. by eexists. }
  exists t1. split; [done|].
  pose proof (find_talent_Some _ _ _ F1) as [Hin1 Hid1].
  rewrite (view_flag _ _ _ _ Hin1), (view_flag _ _ _ _ Hin), Hid, Hid1.
  unfold toggle_write. rewrite (view_flag _ _ _ _ Hin), Hid.
  destruct (decide (TalentLike.mk tid (User.id u) ∈ Db.talent_likes d)) as [Hl|Hl].
  - rewrite (bool_decide_eq_true_2 _ Hl). cbn.
    apply bool_decide_eq_false. rewrite elem_of_filter_unmatched. by intros [? _].
  - rewrite (bool_decide_eq_false_2 _ Hl). cbn.
    apply bool_decide_eq_true. apply elem_of_app. right. by apply list_elem_of_singleton.
Qed.

Lemma toggle_twice_db u tid k d :
  NoDup (Db.talent_likes d) ->
  let d1 := toggled u tid (view (Some u) k d) d in
  let d2 := toggled u tid (view (Some u) k d1) d1 in
  view (Some u) k d2 = view (Some u) k d.
Proof.
  intros Hnd d1 d2. subst d2 d1. unfold toggled at 2 3.
  destruct (find_talent tid (view (Some u) k d)) as [t|] eqn:F.
  2:{ unfold toggled. by rewrite F. }
  destruct (toggle_flips u tid k d t F) as (t1 & F1 & Hflip).
  unfold toggled. rewrite F1.
  pose proof (find_talent_Some _ _ _ F) as [Hin Hid].
  pose proof (view_flag _ _ _ _ Hin) as Hb. rewrite Hid in Hb.
  unfold toggle_write. rewrite Hflip.
  destruct (TalentShowcase.is_liked t); cbn [negb].
  - symmetry in Hb. apply bool_decide_eq_true in Hb.
    apply view_ext; unfold Db.insert_like, Db.delete_likes_match;
      cbn [Db.talents Db.profiles Db.talent_likes Db.with_talents Db.with_talent_likes].
    + rewrite bump_likes_twice, (filter_matches_present _ _ _ Hnd Hb).
      apply bump_likes_zero.
    + done.
    + intros i. rewrite elem_of_app, elem_of_filter_unmatched, list_elem_of_singleton.
      split; [intros [[_ ?]| ->]; done|].
      intros Hi. destruct (decide (i = tid)) as [->|Hne]; [by right|left].
      split; [congruence|done].
  - symmetry in Hb. apply bool_decide_eq_false in Hb.
    destruct (filter_matches_absent _ _ _ Hb) as [E1 E2].
    apply view_ext; unfold Db.insert_like, Db.delete_likes_match;
      cbn [Db.talents Db.profiles Db.talent_likes Db.with_talents Db.with_talent_likes].
    + rewrite !filter_app, E1. rewrite filter_cons, decide_True by done.
      rewrite filter_nil. cbn. rewrite bump_likes_twice. apply bump_likes_zero.
    + done.
    + intros i. rewrite filter_app, E2, filter_cons.
      rewrite decide_False by (intros H; by apply H).
      rewrite filter_nil, app_nil_r. done.
Qed.

Lemma handleLike_served u tid s w :
  served w ->
  TalentShowcase.talents s = view (Some u) (TalentShowcase.sortBy s) (db w) ->
  ∃ s' w', TalentShowcase.handleLike (Some u) tid s w = (Ok tt, s', w')
           ∧ served w'
           ∧ TalentShowcase.sortBy s' = TalentShowcase.sortBy s
           ∧ db w' = toggled u tid (TalentShowcase.talents s) (db w)
           ∧ TalentShowcase.talents s'
             = view (Some u) (TalentShowcase.sortBy s) (db w').
Proof.
  intros Hs Hv. unfold toggled.
  destruct (find_talent tid (TalentShowcase.talents s)) as [t|] eqn:F.
  - rewrite (handleLike_run _ _ _ _ _ F).
    set (w1 := after_toggle tid u t w).
    assert (served w1 ∧ db w1 = toggle_write tid u t (db w)) as [Hs1 Hd1].
    { unfold w1, after_toggle. rewrite (next_fault_served w Hs). cbn [fst snd].
      split; [|done]. unfold served in *. cbn. destruct (faults w); [done|].
      by apply Forall_cons in Hs as [_ ?]. }
    destruct (fetchTalents_served (Some u) s w1 Hs1) as (w' & E & Hr).
    rewrite E. eexists. exists w'. split; [done|].
    destruct Hr as (Hdb & Hsv & _). rewrite Hdb, Hd1. auto.
  - exists s, w. split; [|done].
    unfold TalentShowcase.handleLike, bind, get_state, find_talent in *. by rewrite F.
Qed.

(** C4. Load the feed, then toggle the same item twice as the same viewer,
    each toggle followed by its fetch. When the store serves the requests
    and holds at most one reaction row per (item, viewer), the list after
    the second toggle is the list that was loaded, so the item has its
    original [is_liked] and [likes_count]; and the first toggle did flip the
    item's [is_liked]. *)
Theorem C4_toggle_twice (u : User) (talentId : string)
    (s : TalentShowcase.State) (w : World) :
  served w ->
  NoDup (Db.talent_likes (db w)) ->
  let x0 := TalentShowcase.fetchTalents (Some u) s w in
  let x1 := TalentShowcase.handleLike (Some u) talentId (state_of x0) (world_of x0) in
  let x2 := TalentShowcase.handleLike (Some u) talentId (state_of x1) (world_of x1) in
  TalentShowcase.talents (state_of x2) = TalentShowcase.talents (state_of x0)
  ∧ (∀ t, find_talent talentId (TalentShowcase.talents (state_of x0)) = Some t ->
       (∃ t1, find_talent talentId (TalentShowcase.talents (state_of x1)) = Some t1
              ∧ TalentShowcase.is_liked t1 = negb (TalentShowcase.is_liked t))
       ∧ ∃ t2, find_talent talentId (TalentShowcase.talents (state_of x2)) = Some t2
               ∧ TalentShowcase.is_liked t2 = TalentShowcase.is_liked t
               ∧ TalentShowcase.likes_count t2 = TalentShowcase.likes_count t).
Proof.
  intros Hs Hnd x0 x1 x2.
  destruct (fetchTalents_served (Some u) s w Hs) as (w0 & E0 & Hdb0 & Hs0 & _).
  specialize (Hs0 Hs). set (k := TalentShowcase.sortBy s) in *.
  set (s0 := with_talents (view (Some u) k (db w)) false s) in *.
  assert (state_of x0 = s0 ∧ world_of x0 = w0) as [Es0 Ew0] by (subst x0; by rewrite E0).
  assert (TalentShowcase.talents s0 = view (Some u) (TalentShowcase.sortBy s0) (db w0)) as Hv0.
  { by rewrite Hdb0. }
  destruct (handleLike_served u talentId s0 w0 Hs0 Hv0) as (s1 & w1 & E1 & Hs1 & Hk1 & Hdb1 & Hv1).
  assert (state_of x1 = s1 ∧ world_of x1 = w1) as [Es1 Ew1].
  { subst x1. by rewrite Es0, Ew0, E1. }
  rewrite <- Hk1 in Hv1.
  destruct (handleLike_served u talentId s1 w1 Hs1 Hv1) as (s2 & w2 & E2 & Hs2 & Hk2 & Hdb2 & Hv2).
  assert (state_of x2 = s2) as Es2.
  { subst x2. by rewrite Es1, Ew1, E2. }
  rewrite Es0, Es1, Es2.
  assert (TalentShowcase.talents s2 = TalentShowcase.talents s0) as Hback.
  { rewrite Hv2, Hdb2, Hv1, Hdb1, Hk1. cbn [TalentShowcase.talents s0 with_talents].
    change (TalentShowcase.sortBy s0) with k. rewrite Hdb0.
    apply toggle_twice_db. done. }
  split; [done|]. intros t F. split.
  - rewrite Hv1, Hdb1, Hk1. unfold toggled. rewrite F.
    change (TalentShowcase.sortBy s0) with k. rewrite Hdb0.
    apply toggle_flips. exact F.
  - exists t. by rewrite Hback.
Qed.

(** ** Upload *)

Lemma fetch_calls_read_only user k d : List.filter is_write (fetch_calls user k d) = [].
Proof.
  unfold fetch_calls, profile_calls, likes_calls.
  destruct (TalentShowcase.userIds _); by destruct user.
Qed.

Lemma is_upload_write c : is_upload c = true -> is_write c = true.
Proof. by destruct c. Qed.

Lemma is_insert_write c : is_insert c = true -> is_write c = true.
Proof. by destruct c. Qed.

Lemma filter_read_only (f : Call -> bool) (l : list Call) :
  (∀ c, f c = true -> is_write c = true) ->
  List.filter is_write l = [] -> List.filter f l = [].
Proof.
  intros Hf. induction l as [|c l IH]; [done|]. simpl.
  destruct (is_write c) eqn:E; [done|]. intros H.
  destruct (f c) eqn:F; [|by apply IH]. apply Hf in F. congruence.
Qed.

Lemma encodeURI_truthy s : JS.truthy (JS.encodeURI s) = JS.truthy s.
Proof.
  destruct s as [|c s]; [done|]. cbn [JS.encodeURI].
  by destruct (JS.includes JS.uriUnescaped (String c "")).
Qed.

Lemma publicUrl_truthy path d : JS.truthy (Db.getPublicUrl path d) = true.
Proof. unfold Db.getPublicUrl. rewrite encodeURI_truthy. by destruct (Db.url d). Qed.

Lemma handleFileChange_run {P} (file : File) (files : list File)
    (p : P) (s : UploadTalentModal.State) w :
  UploadTalentModal.handleFileChange (file :: files) (p, s) w =
  if UploadTalentModal.maxSize <? File.size file
  then (Ok tt,
        (p, UploadTalentModal.mk (UploadTalentModal.loading s)
              (UploadTalentModal.formData s) (UploadTalentModal.mediaFile s)
              "File is too large. Please select a file smaller than 10MB."), w)
  else (Ok tt,
        (p, UploadTalentModal.mk (UploadTalentModal.loading s)
              (UploadTalentModal.formData s) (Some file) ""), w).
Proof.
  unfold UploadTalentModal.handleFileChange.
  by destruct (UploadTalentModal.maxSize <? File.size file).
Qed.

Lemma submit_nothing_selected user (p : TalentShowcase.State)
    (s : UploadTalentModal.State) w :
  UploadTalentModal.mediaFile s = None ->
  UploadTalentModal.submit user (p, s) w =
  (Ok tt,
   (p, UploadTalentModal.mk (UploadTalentModal.loading s) (UploadTalentModal.formData s)
         None "Please select a media file to upload."), w).
Proof.
  intros E. unfold UploadTalentModal.submit, UploadTalentModal.handleSubmit, bind, get_own.
  cbn [snd]. rewrite E. unfold UploadTalentModal.setFileError, set_own.
  destruct user; cbn [fst snd]; by rewrite E.
Qed.

(** A served submission of a selected file: the two writes, then the
    parent's fetch. *)
Lemma submit_run u (p : TalentShowcase.State) (s : UploadTalentModal.State)
    (file : File) w :
  served w ->
  UploadTalentModal.mediaFile s = Some file ->
  let path := UploadTalentModal.filePath u (now w) file in
  let row := UploadTalentModal.newRow u (UploadTalentModal.formData s)
               (Db.getPublicUrl path (db w)) file in
  let w2 := after_call (InsertTalent row)
              (Db.insert_talent row (Db.upload path file (db w)))
              (after_call (StorageUpload path file) (Db.upload path file (db w)) w) in
  ∃ st w', UploadTalentModal.submit (Some u) (p, s) w = (Ok tt, st, w')
           ∧ reads w2 (fetch_calls (Some u) (TalentShowcase.sortBy p) (db w2)) w'.
Proof.
  intros Hs Hfile path row w2.
  unfold UploadTalentModal.submit, UploadTalentModal.handleSubmit.
  unfold bind at 1. unfold get_own. cbn [snd]. rewrite Hfile.
  unfold bind at 1. unfold UploadTalentModal.setLoading at 1. unfold set_own at 1.
  cbn [fst snd]. unfold bind at 1. unfold UploadTalentModal.setFileError, set_own.
  cbn [fst snd]. unfold try_finally, try_catch. unfold bind at 1. unfold Date_now.
  fold path. unfold bind at 1. rewrite (command_served _ _ _ _ Hs). cbn [Reply.error].
  unfold bind at 1. unfold getPublicUrl at 1. cbn [db after_call].
  change (Db.getPublicUrl path (Db.upload path file (db w)))
    with (Db.getPublicUrl path (db w)).
  rewrite publicUrl_truthy. cbn [negb]. fold row.
  unfold bind at 1.
  set (w1 := after_call (StorageUpload path file) (Db.upload path file (db w)) w).
  assert (served w1) as Hs1 by (by apply served_tail).
  rewrite (command_served _ _ _ _ Hs1). cbn [Reply.error].
  change (after_call (InsertTalent row) (Db.insert_talent row (db w1)) w1) with w2.
  assert (served w2) as Hs2 by (by apply served_tail).
  unfold bind, in_parent. cbn [fst snd].
  destruct (fetchTalents_served (Some u) p w2 Hs2) as (w' & E & Hr).
  rewrite E. unfold TalentShowcase.setShowUploadModal, set_state,
    UploadTalentModal.setLoading, set_own. cbn [fst snd]. eauto.
Qed.

Lemma submit_served u (p : TalentShowcase.State) (s : UploadTalentModal.State)
    (file : File) w :
  served w ->
  UploadTalentModal.mediaFile s = Some file ->
  let path := UploadTalentModal.filePath u (now w) file in
  let row := UploadTalentModal.newRow u (UploadTalentModal.formData s)
               (Db.getPublicUrl path (db w)) file in
  let x := UploadTalentModal.submit (Some u) (p, s) w in
  ∃ cs, sent w (world_of x) = StorageUpload path file :: InsertTalent row :: cs
        ∧ List.filter is_write cs = []
        ∧ alerts (world_of x) = alerts w
        ∧ db (world_of x) = Db.insert_talent row (Db.upload path file (db w)).
Proof.
  intros Hs Hfile path row x. subst x.
  destruct (submit_run u p s file w Hs Hfile) as (st & w' & E & Hr).
  rewrite E. unfold world_of. cbn [snd].
  destruct Hr as (Hdb & _ & Hc & _ & Hal & _).
  eexists.
  split; [|split; [apply fetch_calls_read_only|split; [by rewrite Hal|by rewrite Hdb]]].
  apply sent_app. rewrite Hc. cbn [calls after_call]. by rewrite <- !app_assoc.
Qed.

(** C8. An upload attempt: a file is chosen, then the form is submitted.
    A file above [10 * 1024 * 1024] bytes is refused when chosen: the error
    text is set, the selected file is left as it was and nothing is sent;
    submitting a form that has no accepted file sends nothing either. A
    file within the limit, submitted by a signed-in user to a store that
    serves its requests, makes exactly two writes, one upload of that file
    and then one insert, whose [media_type] is "video" when the file's type
    starts with "video" (so for every "video/..." type) and "image"
    otherwise. *)
Theorem C8_upload (file : File) (files : list File) (user : option User) (u : User)
    (p : TalentShowcase.State) (s : UploadTalentModal.State) (w : World) :
  let choose := UploadTalentModal.handleFileChange (file :: files) in
  (UploadTalentModal.maxSize < File.size file ->
     choose (p, s) w
     = (Ok tt,
        (p, UploadTalentModal.mk (UploadTalentModal.loading s)
              (UploadTalentModal.formData s) (UploadTalentModal.mediaFile s)
              "File is too large. Please select a file smaller than 10MB."), w)
     ∧ (UploadTalentModal.mediaFile s = None ->
        let x := (choose ;; UploadTalentModal.submit user) (p, s) w in
        world_of x = w
        ∧ UploadTalentModal.mediaFile (state_of x).2 = None
        ∧ UploadTalentModal.fileError (state_of x).2
          = "Please select a media file to upload."))
  ∧ (File.size file <= UploadTalentModal.maxSize -> served w ->
     let x := (choose ;; UploadTalentModal.submit (Some u)) (p, s) w in
     let path := UploadTalentModal.filePath u (now w) file in
     let row := UploadTalentModal.newRow u (UploadTalentModal.formData s)
                  (Db.getPublicUrl path (db w)) file in
     List.filter is_write (sent w (world_of x)) = [StorageUpload path file; InsertTalent row]
     ∧ List.filter is_upload (sent w (world_of x)) = [StorageUpload path file]
     ∧ List.filter is_insert (sent w (world_of x)) = [InsertTalent row]
     ∧ NewTalent.media_type row
       = (if JS.startsWith (File.type file) "video" then "video" else "image")
     ∧ (∀ rest, File.type file = "video/" +:+ rest -> NewTalent.media_type row = "video")
     ∧ alerts (world_of x) = alerts w).
Proof.
  intros choose. subst choose. split.
  - intros Hbig. rewrite handleFileChange_run.
    assert ((UploadTalentModal.maxSize <? File.size file) = true) as -> by lia.
    split; [done|]. intros Hnone. unfold bind. rewrite handleFileChange_run.
    assert ((UploadTalentModal.maxSize <? File.size file) = true) as -> by lia.
    rewrite submit_nothing_selected by done. done.
  - intros Hfit Hs. unfold bind. rewrite handleFileChange_run.
    assert ((UploadTalentModal.maxSize <? File.size file) = false) as -> by lia.
    set (s1 := UploadTalentModal.mk _ _ (Some file) "").
    destruct (submit_served u p s1 file w Hs eq_refl) as (cs & Hsent & Hcs & Hal & _).
    cbv zeta in Hsent, Hal |- *.
    change (UploadTalentModal.formData s1) with (UploadTalentModal.formData s) in *.
    rewrite Hsent, Hal. cbn [List.filter is_write is_upload is_insert].
    rewrite Hcs, (filter_read_only _ _ is_upload_write Hcs),
      (filter_read_only _ _ is_insert_write Hcs).
    repeat split; try done.
    intros rest E. cbn. unfold UploadTalentModal.mediaType. by rewrite E.
Qed.

(** ** Failed writes *)

(** The moderation handlers and the comment form, on a refused write: one
    request, no fetch, the component state as it was, and an alert. *)
Lemma refused_write_reported e rest w :
  faults w = Some e :: rest ->
  let w1 c := mkWorld (db w) rest (calls w ++ [c]) (now w) (alerts w) (console w) in
  (∀ id st s,
     AdminHostelServices.handleStatusChange id st s w
     = (Ok tt, s,
        with_alert "Failed to update status."
          (with_console_error "Error updating status:" e
             (w1 (UpdateHostelService id st (now w))))))
  ∧ (∀ id r s,
     AdminUserManagement.handleRoleChange id r s w
     = (Ok tt, s,
        with_alert ("Failed to update role: " +:+ e)
          (with_console_error "Error updating role:" e (w1 (UpdateProfileRole id r)))))
  ∧ (∀ id s,
     AdminTalentShowcase.handleDelete true id s w
     = (Ok tt, s,
        with_alert ("Failed to delete talent: " +:+ e)
          (with_console_error "Error deleting talent:" e (w1 (DeleteTalent id)))))
  ∧ (∀ u tid s,
     JS.truthy (JS.trim (CommentsModal.newComment s)) = true ->
     CommentsModal.handlePostComment (Some u) tid s w
     = (Ok tt, s,
        with_alert "Failed to post comment."
          (with_console_error "Error posting comment:" e
             (w1 (InsertComment (CommentsModal.newComment s) tid (User.id u)))))).
Proof.
  intros Hf w1. assert (next_fault w = (Some e, rest)) as Hn.
  { unfold next_fault. by rewrite Hf. }
  split; [|split; [|split]].
  - intros. rewrite handleStatusChange_run. cbv zeta. by rewrite Hn.
  - intros. rewrite handleRoleChange_run. cbv zeta. by rewrite Hn.
  - intros. unfold AdminTalentShowcase.handleDelete, try_catch, bind.
    by rewrite (command_failed _ _ _ _ _ _ Hf).
  - intros u tid s Ht. unfold CommentsModal.handlePostComment, bind, get_state.
    rewrite Ht. cbn [negb]. unfold try_catch, bind.
    by rewrite (command_failed _ _ _ _ _ _ Hf).
Qed.

(** C2, on the code: what [handleLike] does when the store refuses its
    write and serves the requests after it. The store is unchanged, yet the
    fetch is sent all the same and its result replaces the list; nothing is
    alerted and nothing is logged. The other handlers, under the same
    refusal, stop and alert ([refused_write_reported]). *)
Theorem C2_refused_like_goes_unreported (u : User) (talentId : string)
    (talent : TalentShowcase.TalentWithProfile) (s : TalentShowcase.State)
    (w : World) (e : string) (rest : list (option string)) :
  find_talent talentId (TalentShowcase.talents s) = Some talent ->
  faults w = Some e :: rest ->
  Forall (fun f => f = None) rest ->
  let x := TalentShowcase.handleLike (Some u) talentId s w in
  db (world_of x) = db w
  ∧ sent w (world_of x)
    = toggle_call talentId u talent
      :: fetch_calls (Some u) (TalentShowcase.sortBy s) (db w)
  ∧ TalentShowcase.talents (state_of x) = view (Some u) (TalentShowcase.sortBy s) (db w)
  ∧ alerts (world_of x) = alerts w
  ∧ console (world_of x) = console w.
Proof.
  intros Hfind Hf Hrest x. subst x. rewrite (handleLike_run _ _ _ _ _ Hfind).
  assert (next_fault w = (Some e, rest)) as Hn by (unfold next_fault; by rewrite Hf).
  set (w1 := after_toggle talentId u talent w).
  assert (served w1) as Hs1 by (unfold w1, after_toggle, served; by rewrite Hn).
  assert (db w1 = db w) as Hdb1 by (unfold w1, after_toggle; by rewrite Hn).
  destruct (fetchTalents_served (Some u) s w1 Hs1) as (w' & E & Hdb & _ & Hc & _ & Hal & Hco).
  rewrite E. unfold world_of, state_of. cbn [fst snd].
  rewrite Hdb, Hal, Hco, Hdb1. split; [done|]. split; [|done].
  apply sent_app. rewrite Hc, Hdb1. unfold w1, after_toggle. cbn [calls].
  by rewrite <- app_assoc.
Qed.

(** * Worked instances *)

Lemma served_world : served Scenario.world.
Proof. constructor. Qed.

(** C1 on the sample store: the protected row is inert, and the row of
    [alice] can be given the admin role. *)
Lemma C1_witness :
  change (AdminUserManagement.roleSelect Scenario.root) "user"
         Scenario.users Scenario.world
  = (Ok tt, Scenario.users, Scenario.world)
  ∧ Profile.with_role "admin" Scenario.alice
    ∈ AdminUserManagement.users
        (state_of (change (AdminUserManagement.roleSelect Scenario.alice) "admin"
                          Scenario.users Scenario.world)).
Proof.
  split.
  - apply (C1_role_update Scenario.root "user" Scenario.users Scenario.world).
    reflexivity.
  - apply (C1_role_update Scenario.alice "admin" Scenario.users Scenario.world).
    + vm_compute. discriminate.
    + constructor.
    + vm_compute. right. left.
    + reflexivity.
Defined.

(** C2 at the failing input: a signed-in viewer likes [sketch] from a stale
    list while the store refuses the insert. *)
Lemma C2_witness :
  let x := TalentShowcase.handleLike (Some Scenario.viewer) "t2"
             Scenario.stale Scenario.refusing in
  db (world_of x) = Scenario.store
  ∧ sent Scenario.refusing (world_of x)
    = [InsertLike "t2" "u1"; SelectTalents created_at;
       SelectProfilesIn "*" ["u1"; "u9"]; SelectLikes "u1"]
  ∧ TalentShowcase.talents (state_of x)
    = view (Some Scenario.viewer) created_at Scenario.store
  ∧ alerts (world_of x) = []
  ∧ console (world_of x) = [].
Proof.
  apply (C2_refused_like_goes_unreported Scenario.viewer "t2"
           (TalentShowcase.mkView Scenario.sketch None false) Scenario.stale
           Scenario.refusing "permission denied" []).
  - reflexivity.
  - reflexivity.
  - constructor.
Defined.

(** The list shown before the refused like is not the list shown after. *)
Example C2_list_replaced :
  TalentShowcase.talents
    (state_of (TalentShowcase.handleLike (Some Scenario.viewer) "t2"
                 Scenario.stale Scenario.refusing))
  ≠ TalentShowcase.talents Scenario.stale.
Proof. vm_compute. discriminate. Qed.

(** C3 on the sample store: liking [sketch] from the stale list sends the
    insert and then the three requests of a fetch, and the list shown
    afterwards carries the store's count for [sketch]; without a viewer
    there is only the alert. *)
Lemma C3_witness :
  served Scenario.world
  ∧ (let x := TalentShowcase.handleLike (Some Scenario.viewer) "t2" Scenario.stale
                Scenario.world in
     sent Scenario.world (world_of x)
     = [InsertLike "t2" "u1"; SelectTalents created_at;
        SelectProfilesIn "*" ["u1"; "u9"]; SelectLikes "u1"]
     ∧ map (fun t => (TalentShowcase.id t, TalentShowcase.likes_count t,
                      TalentShowcase.is_liked t))
           (TalentShowcase.talents (state_of x))
       = [("t3", 0, false); ("t2", 1, true); ("t1", 1, true)])
  ∧ TalentShowcase.handleLike None "t2" Scenario.stale Scenario.world
    = (Ok tt, Scenario.stale,
       with_alert "You must be logged in to like a post." Scenario.world).
Proof.
  assert (served Scenario.world) as Hs by constructor.
  split; [exact Hs|]. split.
  - pose proof (C3_toggle_reaction (Some Scenario.viewer) "t2" Scenario.stale
                  Scenario.world) as H.
    hnf in H. destruct H as (_ & _ & _ & _ & H). destruct (H Hs) as [Hsent Hstate].
    split; [exact Hsent|]. rewrite Hstate. vm_compute. reflexivity.
  - apply (C3_toggle_reaction None "t2" Scenario.stale Scenario.world).
Defined.

(** C4 on the sample store: [alice] unlikes and likes [song] again. *)
Lemma C4_witness :
  let x0 := TalentShowcase.fetchTalents (Some Scenario.viewer) Scenario.fresh
              Scenario.world in
  let x1 := TalentShowcase.handleLike (Some Scenario.viewer) "t1"
              (state_of x0) (world_of x0) in
  let x2 := TalentShowcase.handleLike (Some Scenario.viewer) "t1"
              (state_of x1) (world_of x1) in
  served Scenario.world ∧ NoDup (Db.talent_likes (db Scenario.world))
  ∧ TalentShowcase.talents (state_of x2) = TalentShowcase.talents (state_of x0).
Proof.
  intros x0 x1 x2.
  assert (served Scenario.world) as Hs by constructor.
  assert (NoDup (Db.talent_likes (db Scenario.world))) as Hnd by apply NoDup_singleton.
  split; [exact Hs|]. split; [exact Hnd|].
  apply (C4_toggle_twice Scenario.viewer "t1" Scenario.fresh Scenario.world Hs Hnd).
Defined.


(** C6 on the sample store: without a viewer no record is liked; with a
    viewer one reaction query is sent even when it will be refused. *)
Lemma C6_witness :
  Forall (fun t => TalentShowcase.is_liked t = false)
         (view None created_at Scenario.store)
  ∧ sent Scenario.refusing
         (world_of (TalentShowcase.attachLikes (Some Scenario.viewer)
                      (TalentShowcase.initial (Db.talents Scenario.store))
                      Scenario.fresh Scenario.refusing))
    = [SelectLikes "u1"].
Proof.
  pose proof (C6_personalization (Db.select_talents created_at Scenario.store)
                (TalentShowcase.initial (Db.talents Scenario.store))
                Scenario.viewer Scenario.fresh Scenario.world) as Hw.
  pose proof (C6_personalization (Db.select_talents created_at Scenario.store)
                (TalentShowcase.initial (Db.talents Scenario.store))
                Scenario.viewer Scenario.fresh Scenario.refusing) as Hr.
  cbv zeta in Hw, Hr. destruct Hw as [[Hnull _] _]. destruct Hr as (_ & _ & Hsent & _).
  split; [|exact Hsent]. apply Hnull. vm_compute. reflexivity.
Defined.

(** C7 on the sample list: the search text "GUITAR" keeps the item tagged
    "guitar". *)
Lemma C7_witness :
  TalentShowcase.mkView Scenario.song (Some Scenario.alice) false
  ∈ TalentShowcase.filteredTalents
      (TalentShowcase.mk (view None created_at Scenario.store) false false "GUITAR"
                         created_at).
Proof.
  pose proof (C7_search_filter
                (TalentShowcase.mk (view None created_at Scenario.store) false false
                                   "GUITAR" created_at)) as (_ & H & _).
  apply H.
  - vm_compute. tauto.
  - split; [vm_compute; tauto|]. split; [vm_compute; tauto|].
    intros tags tag [= <-] Htag.
    apply elem_of_cons in Htag as [->|Htag]; [vm_compute; tauto|].
    apply list_elem_of_singleton in Htag as ->. vm_compute. tauto.
  - split; [vm_compute; do 2 right; left|].
    right. right. exists ["guitar"; "acoustic"], "guitar".
    split; [reflexivity|]. split; [left|].
    exists "", "guitar", "". split; [reflexivity|].
    repeat split; right; right; (split; [unfold capital|]; vm_compute; intuition discriminate).
Defined.

(** The spec's wording fails where lower-casing depends on the position of
    a letter: the search text "ΜΟΥΣ" occurs in the title "ΜΟΥΣΙΚΗ", but its
    capital sigma ends a word and becomes a final sigma, which the
    lower-cased title does not hold. *)
Lemma C7_counterexample : ¬ keeps_matching (Cases.feed "ΜΟΥΣ").
Proof.
  intros H.
  assert (TalentShowcase.mkView Cases.mousike None false
          ∈ TalentShowcase.filteredTalents (Cases.feed "ΜΟΥΣ")) as Hin.
  { apply H. split; [right; left|]. left. exists "", "ΜΟΥΣ", "ΙΚΗ".
    split; [reflexivity|]. repeat split; left; reflexivity. }
  vm_compute in Hin. by apply elem_of_nil in Hin.
Qed.

Example search_guitar :
  map TalentShowcase.id
      (TalentShowcase.filteredTalents
         (TalentShowcase.mk (view None created_at Scenario.store) false false "GUITAR"
                            created_at))
  = ["t1"].
Proof. vm_compute. reflexivity. Qed.

Example search_empty :
  map TalentShowcase.id
      (TalentShowcase.filteredTalents
         (TalentShowcase.mk (view None created_at Scenario.store) false false ""
                            created_at))
  = ["t3"; "t2"; "t1"].
Proof. vm_compute. reflexivity. Qed.

(** Letters outside basic Latin are lower-cased too, and a capital sigma at
    the end of a word matches a final sigma. *)
Example search_ecole :
  map TalentShowcase.id (TalentShowcase.filteredTalents (Cases.feed "école")) = ["t4"].
Proof. vm_compute. reflexivity. Qed.

Example search_final_sigma :
  map TalentShowcase.id (TalentShowcase.filteredTalents (Cases.feed "χορος")) = ["t5"].
Proof. vm_compute. reflexivity. Qed.

Example search_capital_sigma :
  TalentShowcase.filteredTalents (Cases.feed "ΜΟΥΣ") = []
  ∧ map TalentShowcase.id (TalentShowcase.filteredTalents (Cases.feed "μουσ")) = ["t5"].
Proof. vm_compute. done. Qed.

(** C8 on the sample store: the 15 MB file sends nothing, the 2 MB clip is
    uploaded and inserted as a video. *)
Lemma C8_witness :
  world_of ((UploadTalentModal.handleFileChange [Scenario.huge] ;;
             UploadTalentModal.submit (Some Scenario.viewer))
              (Scenario.fresh, UploadTalentModal.initialState) Scenario.world)
  = Scenario.world
  ∧ List.filter is_write
      (sent Scenario.world
         (world_of ((UploadTalentModal.handleFileChange [Scenario.clip] ;;
                     UploadTalentModal.submit (Some Scenario.viewer))
                      (Scenario.fresh, UploadTalentModal.initialState) Scenario.world)))
    = [StorageUpload "u1-9000.mp4" Scenario.clip;
       InsertTalent
         (NewTalent.mk "u1" "" "" "Other"
            "https://project.example/storage/v1/object/public/talent-media/u1-9000.mp4"
            "video" [])].
Proof.
  split.
  - apply (C8_upload Scenario.huge [] (Some Scenario.viewer) Scenario.viewer
             Scenario.fresh UploadTalentModal.initialState Scenario.world).
    + vm_compute. reflexivity.
    + reflexivity.
  - apply (C8_upload Scenario.clip [] (Some Scenario.viewer) Scenario.viewer
             Scenario.fresh UploadTalentModal.initialState Scenario.world).
    + vm_compute. discriminate.
    + constructor.
Defined.

(** A file of type "videotape/x" is not of a "video/..." type, yet it is
    inserted as a video. *)
Lemma C8_counterexample :
  ¬ inserts_by_mime Cases.tape Scenario.viewer Scenario.fresh
      UploadTalentModal.initialState Scenario.world.
Proof.
  unfold inserts_by_mime. intros H.
  specialize (H (NewTalent.mk "u1" "" "" "Other"
                   "https://project.example/storage/v1/object/public/talent-media/u1-9000.tape"
                   "video" [])).
  assert ("video" = "image") as E; [|discriminate E].
  apply H. vm_compute. right. left.
Qed.

(** On the sample store the browser's clock reads 9000 and the store's 5000:
    the row is stamped 9000. *)
Lemma C9_counterexample :
  ¬ stamps_store_time "req-1" "Pending" Scenario.services Scenario.world.
Proof.
  unfold stamps_store_time. intros H.
  destruct (H (HostelService.with_status "Pending" 9000 Scenario.leak)) as [_ E].
  - vm_compute. left.
  - reflexivity.
  - vm_compute in E. discriminate.
Qed.

(** C9 on the sample store: a completed request is set back to pending. *)
Lemma C9_witness :
  served Scenario.world
  ∧ HostelService.status Scenario.leak = "Completed"
  ∧ HostelService.with_status "Pending" 9000 Scenario.leak
    ∈ Db.hostel_services
        (db (world_of (AdminHostelServices.handleStatusChange "req-1" "Pending"
                         Scenario.services Scenario.world))).
Proof.
  assert (served Scenario.world) as Hs by constructor.
  split; [exact Hs|]. split; [reflexivity|].
  apply (C9_status_update "req-1" "Pending" Scenario.services Scenario.world Hs).
  - vm_compute. left.
  - reflexivity.
Defined.

(** C10 on the sample store. *)
Lemma C10_witness :
  map TalentShowcase.row
      (TalentShowcase.talents
         (state_of (TalentShowcase.fetchTalents (Some Scenario.viewer) Scenario.fresh
                      Scenario.world)))
  = [Scenario.reel; Scenario.sketch; Scenario.song].
Proof.
  apply (C10_fetch_frame (Some Scenario.viewer) Scenario.fresh Scenario.world).
  reflexivity.
Defined.

(** * Further properties of the handlers *)

(** ** [fetchTalents] on every path *)

Lemma select_talents_nil k d : Db.select_talents k d = [] ↔ Db.talents d = [].
Proof.
  unfold Db.select_talents. split; intros E.
  - apply Permutation_nil_r. rewrite <- E. by rewrite order_desc_perm.
  - rewrite E. done.
Qed.

(** X1. [fetchTalents] settles on every path: it never throws, it ends with
    [loading = false], it leaves the sort key, the search text and the modal
    flag alone, it writes nothing to the store and alerts nothing. *)
Theorem fetchTalents_settles (user : option User) (s : TalentShowcase.State) (w : World) :
  let x := TalentShowcase.fetchTalents user s w in
  result_of x = Ok tt
  ∧ TalentShowcase.loading (state_of x) = false
  ∧ TalentShowcase.sortBy (state_of x) = TalentShowcase.sortBy s
  ∧ TalentShowcase.searchQuery (state_of x) = TalentShowcase.searchQuery s
  ∧ TalentShowcase.showUploadModal (state_of x) = TalentShowcase.showUploadModal s
  ∧ db (world_of x) = db w
  ∧ alerts (world_of x) = alerts w
  ∧ List.filter is_write (sent w (world_of x)) = [].
Proof.
  intros x. subst x. rewrite fetchTalents_run. cbv zeta.
  destruct (next_fault w) as [[e|] rest]; cbn [fst snd].
  { unfold result_of, state_of, world_of. cbn. repeat split; try done.
    by rewrite (sent_app _ _ [SelectTalents (TalentShowcase.sortBy s)]). }
  set (w1 := mkWorld _ _ _ _ _ _).
  pose proof (aggregate_effect user (Db.select_talents (TalentShowcase.sortBy s) (db w))
    (with_talents (TalentShowcase.talents s) true s) w1) as (_ & Hr & _).
  assert (∀ r, List.filter is_write
                 (SelectTalents (TalentShowcase.sortBy s)
                  :: profile_calls (Db.select_talents (TalentShowcase.sortBy s) (db w))
                  ++ match r : Res (list TalentShowcase.TalentWithProfile) with
                     | Ok _ => likes_calls user
                     | Throw _ => []
                     end) = []) as Hro.
  { intros r. cbn. rewrite List.filter_app. unfold profile_calls, likes_calls.
    destruct (TalentShowcase.userIds _); destruct r; by destruct user. }
  destruct (TalentShowcase.aggregate user _ _ _) as [[r s'] w'].
  unfold state_of, world_of, result_of in Hr. cbn [fst snd] in Hr.
  destruct Hr as (Hdb & _ & Hc & _ & Hal & _). subst w1. cbn [db calls alerts] in *.
  assert (sent w w' = SelectTalents (TalentShowcase.sortBy s)
                      :: profile_calls (Db.select_talents (TalentShowcase.sortBy s) (db w))
                      ++ match r with Ok _ => likes_calls user | Throw _ => [] end) as Hsent.
  { apply sent_app. by rewrite Hc, <- app_assoc. }
  destruct r as [out|e]; unfold state_of, world_of, result_of; cbn [fst snd];
    cbn [with_talents with_console_error TalentShowcase.loading TalentShowcase.sortBy
         TalentShowcase.searchQuery TalentShowcase.showUploadModal db alerts].
  - rewrite Hsent, Hdb, Hal. repeat split; try done. apply (Hro (Ok out)).
  - assert (sent w (with_console_error "Error fetching talents:" e w') = sent w w') as ->
      by done.
    rewrite Hsent, Hdb, Hal. repeat split; try done. apply (Hro (Throw e)).
Qed.

(** X2. [fetchTalents] stops at the first refusal. When the primary query is
    refused only that request is sent; when the profiles query is refused no
    reaction query follows. In both cases the list stays as it was, the
    store's message is logged, and the answers scripted for later requests
    are not consumed. *)
Theorem fetchTalents_stops_at_refusal (user : option User) (s : TalentShowcase.State)
    (w : World) (e : string) (rest : list (option string)) :
  let x := TalentShowcase.fetchTalents user s w in
  let k := TalentShowcase.sortBy s in
  (faults w = Some e :: rest ->
     sent w (world_of x) = [SelectTalents k]
     ∧ TalentShowcase.talents (state_of x) = TalentShowcase.talents s
     ∧ console (world_of x) = console w ++ [("Error fetching talents:", e)]
     ∧ faults (world_of x) = rest)
  ∧ (faults w = None :: Some e :: rest -> Db.talents (db w) ≠ [] ->
     sent w (world_of x)
     = [SelectTalents k; SelectProfilesIn "*" (TalentShowcase.userIds (Db.select_talents k (db w)))]
     ∧ TalentShowcase.talents (state_of x) = TalentShowcase.talents s
     ∧ console (world_of x) = console w ++ [("Error fetching talents:", e)]
     ∧ faults (world_of x) = rest).
Proof.
  intros x k. subst x k. split.
  - intros Hf.
    assert (TalentShowcase.fetchTalents user s w
            = (Ok tt, with_talents (TalentShowcase.talents s) false s,
               with_console_error "Error fetching talents:" e
                 (mkWorld (db w) rest (calls w ++ [SelectTalents (TalentShowcase.sortBy s)])
                          (now w) (alerts w) (console w)))) as ->.
    { rewrite fetchTalents_run. cbv zeta. unfold next_fault. by rewrite Hf. }
    unfold world_of, state_of. cbn. split; [by apply sent_app|done].
  - intros Hf Hne.
    destruct (TalentShowcase.userIds
                (Db.select_talents (TalentShowcase.sortBy s) (db w))) as [|i ids] eqn:E.
    { apply userIds_nil, select_talents_nil in E. done. }
    assert (TalentShowcase.fetchTalents user s w
            = (Ok tt, with_talents (TalentShowcase.talents s) false s,
               with_console_error "Error fetching talents:" e
                 (mkWorld (db w) rest
                    (calls w ++ [SelectTalents (TalentShowcase.sortBy s)]
                     ++ [SelectProfilesIn "*" (i :: ids)])
                    (now w) (alerts w) (console w)))) as ->.
    { rewrite fetchTalents_run. cbv zeta. unfold next_fault at 1 2 3. rewrite Hf.
      cbn [fst snd]. unfold TalentShowcase.aggregate, bind. rewrite attachProfiles_run.
      rewrite E. cbv zeta. unfold next_fault. cbn [faults fst snd db calls now alerts console].
      by rewrite <- app_assoc. }
    unfold world_of, state_of. cbn. split; [by apply sent_app|done].
Qed.

Lemma withLikes_elem liked processed t :
  t ∈ TalentShowcase.withLikes liked processed ->
  ∃ t', t' ∈ processed ∧ TalentShowcase.row t = TalentShowcase.row t'
        ∧ TalentShowcase.profile t = TalentShowcase.profile t'.
Proof.
  unfold TalentShowcase.withLikes. intros H.
  apply list_elem_of_fmap in H as (t' & -> & Hin). eauto.
Qed.

Lemma aggregate_profiles {S} user talentsData (s : S) w out s' w' :
  TalentShowcase.aggregate user talentsData s w = (Ok out, s', w') ->
  ∀ t p, t ∈ out -> TalentShowcase.profile t = Some p ->
         p ∈ Db.profiles (db w) ∧ Profile.id p = Talent.user_id (TalentShowcase.row t).
Proof.
  unfold TalentShowcase.aggregate, bind. rewrite attachProfiles_run.
  assert (∀ mid w1 out,
            (∀ t p, t ∈ mid -> TalentShowcase.profile t = Some p ->
                    p ∈ Db.profiles (db w)
                    ∧ Profile.id p = Talent.user_id (TalentShowcase.row t)) ->
            TalentShowcase.attachLikes user mid s w1 = (Ok out, s', w') ->
            ∀ t p, t ∈ out -> TalentShowcase.profile t = Some p ->
                   p ∈ Db.profiles (db w)
                   ∧ Profile.id p = Talent.user_id (TalentShowcase.row t)) as Hlikes.
  { intros mid w1 out0 Hmid. rewrite attachLikes_run. destruct user as [u|].
    - cbv zeta. intros [= <- _ _] t p Ht Hp.
      apply withLikes_elem in Ht as (t' & Ht' & -> & Hpr). rewrite Hpr in Hp. eauto.
    - intros [= <- _ _]. done. }
  destruct (TalentShowcase.userIds talentsData) as [|i ids].
  - apply Hlikes. intros t p Ht Hp. apply initial_blank in Ht as [Hn _]. congruence.
  - cbv zeta. destruct (next_fault w).1 as [e|]; [done|].
    apply Hlikes. intros t p Ht Hp.
    destruct (withProfiles_profile _ _ _ Ht) as [_ Hsome].
    destruct (Hsome p Hp) as [Hin Hid]. split; [|done].
    by apply elem_of_select_profiles_in in Hin as [_ ?].
Qed.

(** X3. After a fetch that reports no error, a record that carries a
    profile carries its owner's: the attached profile is a row of [profiles]
    whose [id] is the record's [user_id]. *)
Theorem fetched_profile_is_owner (user : option User) (s : TalentShowcase.State)
    (w : World) :
  let x := TalentShowcase.fetchTalents user s w in
  console (world_of x) = console w ->
  ∀ t p, t ∈ TalentShowcase.talents (state_of x) ->
         TalentShowcase.profile t = Some p ->
         p ∈ Db.profiles (db w) ∧ Profile.id p = Talent.user_id (TalentShowcase.row t).
Proof.
  intros x. subst x. rewrite fetchTalents_run. cbv zeta.
  destruct (next_fault w) as [[e|] rest]; cbn [fst snd].
  { unfold world_of. cbn. intros E. by apply snoc_neq in E. }
  set (w1 := mkWorld _ _ _ _ _ _).
  pose proof (aggregate_effect user (Db.select_talents (TalentShowcase.sortBy s) (db w))
    (with_talents (TalentShowcase.talents s) true s) w1) as (_ & Hr & _).
  pose proof (aggregate_profiles user (Db.select_talents (TalentShowcase.sortBy s) (db w))
    (with_talents (TalentShowcase.talents s) true s) w1) as Hp.
  destruct (TalentShowcase.aggregate user _ _ _) as [[[out|e] s'] w'];
    unfold state_of, world_of, result_of in *; cbn [fst snd] in *.
  - intros _. cbn. apply (Hp out s' w' eq_refl).
  - destruct Hr as (_ & _ & _ & _ & _ & Hc). cbn in *. rewrite Hc.
    intros E. by apply snoc_neq in E.
Qed.

(** ** Sequences of likes *)

Lemma toggle_keeps_unique u tid k d :
  NoDup (Db.talent_likes d) ->
  NoDup (Db.talent_likes (toggled u tid (view (Some u) k d) d)).
Proof.
  intros Hnd. unfold toggled.
  destruct (find_talent tid (view (Some u) k d)) as [t|] eqn:F; [|done].
  pose proof (find_talent_Some _ _ _ F) as [Hin Hid].
  pose proof (view_flag _ _ _ _ Hin) as Hb. rewrite Hid in Hb.
  unfold toggle_write. destruct (TalentShowcase.is_liked t).
  - unfold Db.delete_likes_match. cbn [Db.talent_likes Db.with_talents Db.with_talent_likes].
    by apply NoDup_filter.
  - symmetry in Hb. apply bool_decide_eq_false in Hb.
    unfold Db.insert_like. cbn [Db.talent_likes Db.with_talents Db.with_talent_likes].
    apply NoDup_app. split; [done|]. split; [|apply NoDup_singleton].
    intros x Hx Hx'. apply list_elem_of_singleton in Hx' as ->. done.
Qed.

Lemma likeAll_served u ids s w :
  served w ->
  NoDup (Db.talent_likes (db w)) ->
  TalentShowcase.talents s = view (Some u) (TalentShowcase.sortBy s) (db w) ->
  ∃ s' w', likeAll (Some u) ids s w = (Ok tt, s', w')
           ∧ served w'
           ∧ NoDup (Db.talent_likes (db w'))
           ∧ TalentShowcase.sortBy s' = TalentShowcase.sortBy s
           ∧ TalentShowcase.talents s' = view (Some u) (TalentShowcase.sortBy s) (db w')
           ∧ Db.profiles (db w') = Db.profiles (db w)
           ∧ map Talent.id (Db.talents (db w')) = map Talent.id (Db.talents (db w)).
Proof.
  revert s w. induction ids as [|tid ids IH]; intros s w Hs Hnd Hv.
  { exists s, w. done. }
  destruct (handleLike_served u tid s w Hs Hv) as (s1 & w1 & E1 & Hs1 & Hk1 & Hdb1 & Hv1).
  assert (NoDup (Db.talent_likes (db w1))) as Hnd1.
  { rewrite Hdb1, Hv. by apply toggle_keeps_unique. }
  assert (Db.profiles (db w1) = Db.profiles (db w)
          ∧ map Talent.id (Db.talents (db w1)) = map Talent.id (Db.talents (db w)))
    as [Hp1 Hi1].
  { rewrite Hdb1. unfold toggled. destruct (find_talent _ _); [|done].
    split; [|apply toggle_write_ids]. unfold toggle_write.
    by destruct (TalentShowcase.is_liked _). }
  rewrite <- Hk1 in Hv1.
  destruct (IH s1 w1 Hs1 Hnd1 Hv1) as (s' & w' & E & Hs' & Hnd' & Hk' & Hv' & Hp' & Hi').
  exists s', w'. cbn [likeAll]. unfold bind. rewrite E1, E.
  rewrite Hk1 in Hk', Hv'. rewrite Hp', Hi'. done.
Qed.

(** X4. Any sequence of likes and unlikes by one viewer, started from a
    loaded list on a store that serves its requests and holds at most one
    reaction row per (item, viewer): the store still holds at most one row
    per pair afterwards, the list shown is again the one a fresh load would
    give, and no item or profile has been added or removed. *)
Theorem likes_keep_reactions_unique (u : User) (ids : list string)
    (s : TalentShowcase.State) (w : World) :
  served w ->
  NoDup (Db.talent_likes (db w)) ->
  let x0 := TalentShowcase.fetchTalents (Some u) s w in
  let x := likeAll (Some u) ids (state_of x0) (world_of x0) in
  result_of x = Ok tt
  ∧ NoDup (Db.talent_likes (db (world_of x)))
  ∧ TalentShowcase.talents (state_of x)
    = view (Some u) (TalentShowcase.sortBy s) (db (world_of x))
  ∧ Db.profiles (db (world_of x)) = Db.profiles (db w)
  ∧ map Talent.id (Db.talents (db (world_of x))) = map Talent.id (Db.talents (db w)).
Proof.
  intros Hs Hnd x0 x.
  destruct (fetchTalents_served (Some u) s w Hs) as (w0 & E0 & Hdb0 & Hs0 & _).
  specialize (Hs0 Hs).
  set (s0 := with_talents (view (Some u) (TalentShowcase.sortBy s) (db w)) false s) in *.
  assert (state_of x0 = s0 ∧ world_of x0 = w0) as [Es0 Ew0] by (subst x0; by rewrite E0).
  assert (TalentShowcase.talents s0 = view (Some u) (TalentShowcase.sortBy s0) (db w0)) as Hv0.
  { by rewrite Hdb0. }
  rewrite <- Hdb0 in Hnd.
  destruct (likeAll_served u ids s0 w0 Hs0 Hnd Hv0) as (s' & w' & E & _ & Hnd' & _ & Hv' & Hp & Hi).
  subst x. rewrite Es0, Ew0, E. unfold result_of, state_of, world_of. cbn [fst snd].
  rewrite Hp, Hi, Hdb0. done.
Qed.

(** ** Moderation of the feed *)

Lemma fetchAllTalents_run (s : AdminTalentShowcase.State) w :
  AdminTalentShowcase.fetchAllTalents s w =
  let w1 := mkWorld (db w) (next_fault w).2 (calls w ++ [SelectTalents created_at])
                    (now w) (alerts w) (console w) in
  let failed := "Failed to fetch talents. Please check the console." in
  match (next_fault w).1 with
  | Some e =>
      (Ok tt, AdminTalentShowcase.mk (AdminTalentShowcase.talents s) false failed,
       with_console_error "Error fetching talents:" e w1)
  | None =>
      match AdminTalentShowcase.resolve (Db.select_talents created_at (db w))
              (AdminTalentShowcase.mk (AdminTalentShowcase.talents s) true "") w1 with
      | (Ok _, s', w') =>
          (Ok tt, AdminTalentShowcase.mk (AdminTalentShowcase.talents s') false
                    (AdminTalentShowcase.error s'), w')
      | (Throw e, s', w') =>
          (Ok tt, AdminTalentShowcase.mk (AdminTalentShowcase.talents s') false failed,
           with_console_error "Error fetching talents:" e w')
      end
  end.
Proof.
  unfold AdminTalentShowcase.fetchAllTalents, bind, try_finally, try_catch,
    AdminTalentShowcase.setLoading, AdminTalentShowcase.setError,
    AdminTalentShowcase.setTalents, set_state, query, console_error, throw.
  cbv zeta. destruct (next_fault w) as [[e|] rest]; cbn [fst snd Reply.error Reply.data];
    [done|].
  by destruct (AdminTalentShowcase.resolve _ _ _) as [[[[]|e] s'] w'].
Qed.

(** X5. [fetchAllTalents] ends in one of two ways, with [loading = false]
    and the store untouched in both: either the error text is empty (an
    earlier error is cleared) and the list holds the rows of the primary
    query in order, or the fixed error text is set and the list is the one
    shown before. *)
Theorem fetchAllTalents_outcome (s : AdminTalentShowcase.State) (w : World) :
  let x := AdminTalentShowcase.fetchAllTalents s w in
  result_of x = Ok tt
  ∧ AdminTalentShowcase.loading (state_of x) = false
  ∧ db (world_of x) = db w
  ∧ alerts (world_of x) = alerts w
  ∧ ((AdminTalentShowcase.error (state_of x) = ""
      ∧ console (world_of x) = console w
      ∧ map AdminTalentShowcase.row (AdminTalentShowcase.talents (state_of x))
        = Db.select_talents created_at (db w))
     ∨ (AdminTalentShowcase.error (state_of x)
        = "Failed to fetch talents. Please check the console."
        ∧ (∃ e, console (world_of x) = console w ++ [("Error fetching talents:", e)])
        ∧ AdminTalentShowcase.talents (state_of x) = AdminTalentShowcase.talents s)).
Proof.
  intros x. subst x. rewrite fetchAllTalents_run. cbv zeta.
  destruct (next_fault w) as [[e|] rest]; cbn [fst snd].
  { unfold result_of, state_of, world_of. cbn. repeat split; try done. right. eauto. }
  rewrite admin_resolve_run.
  destruct (Db.select_talents created_at (db w)) as [|r l].
  { unfold result_of, state_of, world_of. cbn. repeat split; try done. by left. }
  cbv zeta. destruct (next_fault _) as [[e|] rest']; cbn [fst snd];
    unfold result_of, state_of, world_of; cbn [fst snd];
    cbn [AdminTalentShowcase.talents AdminTalentShowcase.loading AdminTalentShowcase.error
         db alerts console with_console_error].
  - repeat split; try done. right. eauto.
  - repeat split; try done. left. by rewrite admin_withProfiles_rows.
Qed.

Lemma fetchAllTalents_served (s : AdminTalentShowcase.State) w :
  served w ->
  ∃ w', AdminTalentShowcase.fetchAllTalents s w
        = (Ok tt,
           AdminTalentShowcase.mk
             (AdminTalentShowcase.withProfiles
                (Db.select_profiles_brief_in
                   (AdminTalentShowcase.userIds (Db.select_talents created_at (db w))) (db w))
                (Db.select_talents created_at (db w))) false "", w')
        ∧ db w' = db w ∧ alerts w' = alerts w ∧ console w' = console w
        ∧ ∃ cs, calls w' = calls w ++ SelectTalents created_at :: cs
                ∧ List.filter is_write cs = [].
Proof.
  intros Hs. rewrite fetchAllTalents_run. cbv zeta.
  rewrite (next_fault_served w Hs). cbn [fst snd]. rewrite admin_resolve_run.
  set (w1 := mkWorld _ _ _ _ _ _).
  assert (served w1) as Hs1.
  { unfold served, w1. cbn. unfold served in Hs. destruct (faults w); [done|].
    by apply Forall_cons in Hs as [_ ?]. }
  destruct (Db.select_talents created_at (db w)) as [|r l].
  { eexists. split; [done|]. cbn. repeat split; try done. by exists []. }
  cbv zeta. rewrite (next_fault_served w1 Hs1). cbn [fst snd].
  eexists. split; [done|]. cbn. repeat split; try done.
  eexists. split; [by rewrite <- app_assoc|done].
Qed.

(** X6. [handleDelete]. Without the operator's confirmation nothing is sent
    and nothing changes. With it, on a store that serves its requests, one
    delete keyed by the item's id is sent, the list is fetched again, and
    the fetched list holds no record with that id while every other row of
    [talents] is still in it. *)
Theorem handleDelete_confirmed (talentId : string) (s : AdminTalentShowcase.State)
    (w : World) :
  AdminTalentShowcase.handleDelete false talentId s w = (Ok tt, s, w)
  ∧ (served w ->
     let x := AdminTalentShowcase.handleDelete true talentId s w in
     db (world_of x) = Db.delete_talent talentId (db w)
     ∧ List.filter is_write (sent w (world_of x)) = [DeleteTalent talentId]
     ∧ (∃ cs, sent w (world_of x) = DeleteTalent talentId :: SelectTalents created_at :: cs)
     ∧ (∀ t, t ∈ AdminTalentShowcase.talents (state_of x) ->
             Talent.id (AdminTalentShowcase.row t) ≠ talentId)
     ∧ (∀ r, r ∈ Db.talents (db w) -> Talent.id r ≠ talentId ->
             r ∈ map AdminTalentShowcase.row (AdminTalentShowcase.talents (state_of x)))
     ∧ alerts (world_of x) = alerts w).
Proof.
  split; [done|]. intros Hs x.
  set (w1 := after_call (DeleteTalent talentId) (Db.delete_talent talentId (db w)) w).
  assert (served w1) as Hs1 by (by apply served_tail).
  destruct (fetchAllTalents_served s w1 Hs1) as (w' & E & Hdb & Hal & _ & cs & Hc & Hro).
  assert (x = (Ok tt,
               AdminTalentShowcase.mk
                 (AdminTalentShowcase.withProfiles
                    (Db.select_profiles_brief_in
                       (AdminTalentShowcase.userIds (Db.select_talents created_at (db w1)))
                       (db w1))
                    (Db.select_talents created_at (db w1))) false "", w')) as ->.
  { subst x. unfold AdminTalentShowcase.handleDelete, try_catch at 1, bind.
    rewrite (command_served _ _ _ _ Hs). cbn [Reply.error]. fold w1.
    unfold try_catch. by rewrite E. }
  unfold world_of, state_of. cbn [fst snd AdminTalentShowcase.talents].
  assert (sent w w' = DeleteTalent talentId :: SelectTalents created_at :: cs) as Hsent.
  { apply sent_app. rewrite Hc. cbn. by rewrite <- app_assoc. }
  rewrite Hsent, Hdb, Hal. cbn [List.filter is_write]. rewrite Hro.
  split; [done|]. split; [done|]. split; [by eexists|].
  rewrite admin_withProfiles_rows. unfold Db.select_talents.
  change (db w1) with (Db.delete_talent talentId (db w)).
  unfold Db.delete_talent. cbn [Db.talents Db.with_talents].
  split; [|split; [|done]].
  - intros t Ht.
    assert (AdminTalentShowcase.row t
            ∈ Db.order_desc (sort_key created_at)
                (filter (fun r => Talent.id r ≠ talentId) (Db.talents (db w)))) as Hin.
    { rewrite <- (admin_withProfiles_rows
                    (Db.select_profiles_brief_in
                       (AdminTalentShowcase.userIds (Db.select_talents created_at (db w1)))
                       (db w1))).
      apply list_elem_of_fmap. exists t. split; [done|]. exact Ht. }
    apply elem_of_order_desc, list_elem_of_filter in Hin as [? _]. done.
  - intros r Hr Hne. apply elem_of_order_desc, list_elem_of_filter. done.
Qed.

Lemma find_over_map {A B} (f : A -> B) (g : B -> bool) (l : list A) :
  List.find g (map f l) = f <$> List.find (fun a => g (f a)) l.
Proof. induction l as [|a l IH]; simpl; [done|]. by destruct (g (f a)). Qed.

Lemma brief_lookup (l : list Profile) (k : string) :
  JS.new_Map (map (fun b => (ProfileBrief.id b, b)) (map ProfileBrief.of_profile l)) !! k
  = ProfileBrief.of_profile <$> JS.new_Map (map (fun p => (Profile.id p, p)) l) !! k.
Proof.
  rewrite (new_Map_lookup ProfileBrief.id), (new_Map_lookup Profile.id).
  rewrite <- map_rev. apply find_over_map.
Qed.

Lemma view_profiles user k d :
  map TalentShowcase.profile (view user k d)
  = map (fun r => JS.new_Map (map (fun p => (Profile.id p, p))
                                (Db.select_profiles_in
                                   (TalentShowcase.userIds (Db.select_talents k d)) d))
                  !! Talent.user_id r)
        (Db.select_talents k d).
Proof.
  unfold view. cbv zeta.
  assert (∀ l, map TalentShowcase.profile
                 (match user with
                  | Some u => TalentShowcase.withLikes
                                (TalentShowcase.likedIds (Some (Db.select_likes (User.id u) d))) l
                  | None => l
                  end) = map TalentShowcase.profile l) as ->.
  { intros l. destruct user; [apply withLikes_profiles|done]. }
  destruct (TalentShowcase.userIds (Db.select_talents k d)) as [|i ids] eqn:E.
  - apply userIds_nil in E. by rewrite E.
  - unfold TalentShowcase.withProfiles, TalentShowcase.initial. by rewrite !map_map.
Qed.

(** X7. The moderator's list and the feed agree. On a store that serves its
    requests, [fetchAllTalents] and a [fetchTalents] sorted by creation time
    hold the same rows in the same order, and the moderator's record carries
    the [id], [full_name] and [email] of exactly the profile the feed
    attaches to that row (none where the feed has none). *)
Theorem admin_and_feed_agree (user : option User) (s : TalentShowcase.State)
    (a : AdminTalentShowcase.State) (w : World) :
  served w ->
  TalentShowcase.sortBy s = created_at ->
  let x := TalentShowcase.fetchTalents user s w in
  let y := AdminTalentShowcase.fetchAllTalents a w in
  map AdminTalentShowcase.row (AdminTalentShowcase.talents (state_of y))
  = map TalentShowcase.row (TalentShowcase.talents (state_of x))
  ∧ map AdminTalentShowcase.profile (AdminTalentShowcase.talents (state_of y))
    = map (fun t => ProfileBrief.of_profile <$> TalentShowcase.profile t)
          (TalentShowcase.talents (state_of x)).
Proof.
  intros Hs Hk x y.
  destruct (fetchTalents_served user s w Hs) as (w1 & E1 & _).
  destruct (fetchAllTalents_served a w Hs) as (w2 & E2 & _).
  subst x y. rewrite E1, E2. unfold state_of.
  cbn [fst snd with_talents TalentShowcase.talents AdminTalentShowcase.talents].
  rewrite Hk, admin_withProfiles_rows, view_rows. split; [done|].
  rewrite <- (map_map TalentShowcase.profile (fmap ProfileBrief.of_profile)), view_profiles.
  unfold AdminTalentShowcase.withProfiles, Db.select_profiles_brief_in.
  rewrite !map_map. apply map_ext. intros r. cbn.
  etransitivity; [|apply brief_lookup]. by rewrite map_map.
Qed.

(** ** Comments *)

(** *** Reversal *)

Lemma list_of_app (a b : string) :
  list_ascii_of_string (a +:+ b) = list_ascii_of_string a ++ list_ascii_of_string b.
Proof. induction a as [|c a IH]; [done|]. rewrite append_cons. simpl. by rewrite IH. Qed.

Lemma string_of_app (a b : list ascii) :
  string_of_list_ascii (a ++ b) = string_of_list_ascii a +:+ string_of_list_ascii b.
Proof. induction a as [|c a IH]; simpl; [done|]. by rewrite IH, append_cons. Qed.

Lemma reverse_app (a b : string) : JS.reverse (a +:+ b) = JS.reverse b +:+ JS.reverse a.
Proof. unfold JS.reverse. by rewrite list_of_app, rev_app_distr, string_of_app. Qed.

Lemma reverse_involutive (s : string) : JS.reverse (JS.reverse s) = s.
Proof.
  unfold JS.reverse.
  by rewrite list_ascii_of_string_of_list_ascii, rev_involutive, string_of_list_ascii_of_string.
Qed.

Lemma reverse_nil (s : string) : JS.reverse s = "" ↔ s = "".
Proof.
  split; [|by intros ->]. intros E. apply (f_equal JS.reverse) in E.
  by rewrite reverse_involutive in E.
Qed.

Lemma free_of_app sep (a b : string) : free_of sep (a +:+ b) ↔ free_of sep a ∧ free_of sep b.
Proof.
  induction a as [|c a IH]; [rewrite append_nil; simpl; tauto|].
  rewrite append_cons. simpl. rewrite IH. tauto.
Qed.

(** *** Stripping a set of short words *)

Lemma strip_unfold ws a s1 :
  JS.strip ws (String a s1) =
  if bool_decide (String a "" ∈ ws) then JS.strip ws s1
  else match s1 with
       | String b s2 =>
           if bool_decide (String a (String b "") ∈ ws) then JS.strip ws s2
           else match s2 with
                | String c s3 =>
                    if bool_decide (String a (String b (String c "")) ∈ ws)
                    then JS.strip ws s3 else String a s1
                | EmptyString => String a s1
                end
       | EmptyString => String a s1
       end.
Proof. by destruct s1 as [|b [|c s3]]. Qed.

Section Strip.
Context (ws : list string) (Hshort : short ws) (Hfree : prefix_free ws).

Lemma short_shape w :
  w ∈ ws ->
  (∃ a, w = String a "") ∨ (∃ a b, w = String a (String b ""))
  ∨ (∃ a b c, w = String a (String b (String c ""))).
Proof.
  intros Hw. apply (proj1 (Forall_forall _ _) Hshort) in Hw.
  destruct w as [|a [|b [|c [|d w]]]]; simpl in Hw; [lia|eauto|eauto 6|eauto 8|lia].
Qed.

Lemma prefix_unique w w' r :
  w ∈ ws -> w' ∈ ws -> w' = w +:+ r -> w = w'.
Proof.
  intros Hw Hw' E.
  apply (proj1 (Forall_forall _ _) Hfree) in Hw.
  apply (proj1 (Forall_forall _ _) Hw) in Hw'. apply Hw'.
  apply startsWith_spec. eauto.
Qed.

Lemma strip_word w r : w ∈ ws -> JS.strip ws (w +:+ r) = JS.strip ws r.
Proof.
  intros Hw. destruct (short_shape w Hw) as [(a & ->)|[(a & b & ->)|(a & b & c & ->)]];
    rewrite ?append_cons, ?append_nil, strip_unfold.
  - by rewrite (bool_decide_eq_true_2 _ Hw).
  - rewrite bool_decide_eq_false_2.
    2:{ intros H1. by pose proof (prefix_unique _ _ (String b "") H1 Hw eq_refl). }
    by rewrite (bool_decide_eq_true_2 _ Hw).
  - rewrite bool_decide_eq_false_2.
    2:{ intros H1. by pose proof (prefix_unique _ _ (String b (String c "")) H1 Hw eq_refl). }
    rewrite bool_decide_eq_false_2.
    2:{ intros H1. by pose proof (prefix_unique _ _ (String c "") H1 Hw eq_refl). }
    by rewrite (bool_decide_eq_true_2 _ Hw).
Qed.

Lemma strip_words l : Forall (fun w => w ∈ ws) l -> JS.strip ws (concat_all l) = "".
Proof.
  induction 1 as [|w l Hw _ IH]; [done|]. cbn [concat_all fold_right].
  by rewrite strip_word.
Qed.

(** What [strip] does: it removes words of [ws] from the start, and what it
    returns does not start with one. *)
Lemma strip_spec s :
  (∃ l, Forall (fun w => w ∈ ws) l ∧ s = concat_all l +:+ JS.strip ws s)
  ∧ ∀ w r, w ∈ ws -> JS.strip ws s ≠ w +:+ r.
Proof.
  remember (String.length s) as n eqn:Hn.
  revert s Hn. induction (lt_wf n) as [n _ IH]. intros s ->.
  assert (∀ s', (String.length s' < String.length s)%nat ->
    (∃ l, Forall (fun w => w ∈ ws) l ∧ s' = concat_all l +:+ JS.strip ws s')
    ∧ ∀ w r, w ∈ ws -> JS.strip ws s' ≠ w +:+ r) as IH'.
  { intros s' Hlt. by apply (IH _ Hlt). }
  clear IH.
  assert (∀ w s', w ∈ ws -> s = w +:+ s' -> JS.strip ws s = JS.strip ws s' ->
    (∃ l, Forall (fun w => w ∈ ws) l ∧ s = concat_all l +:+ JS.strip ws s)
    ∧ ∀ w r, w ∈ ws -> JS.strip ws s ≠ w +:+ r) as Hstep.
  { intros w s' Hw E Es.
    assert (String.length s' < String.length s)%nat as Hlt.
    { rewrite E, string_length_app.
      apply (proj1 (Forall_forall _ _) Hshort) in Hw. lia. }
    destruct (IH' s' Hlt) as [(l & Hl & El) Hno]. rewrite Es. split; [|done].
    exists (w :: l). split; [by constructor|].
    cbn [concat_all fold_right]. fold (concat_all l).
    by rewrite string_app_assoc, <- El. }
  assert (JS.strip ws s = s -> (∀ w r, w ∈ ws -> s ≠ w +:+ r) ->
    (∃ l, Forall (fun w => w ∈ ws) l ∧ s = concat_all l +:+ JS.strip ws s)
    ∧ ∀ w r, w ∈ ws -> JS.strip ws s ≠ w +:+ r) as Hstop.
  { intros E Hno. rewrite E. split; [by exists []|done]. }
  destruct s as [|a s1].
  { apply Hstop; [done|]. intros w r Hw.
    destruct (short_shape w Hw) as [(?&->)|[(?&?&->)|(?&?&?&->)]]; done. }
  rewrite strip_unfold in *.
  destruct (decide (String a "" ∈ ws)) as [H1|H1].
  { rewrite (bool_decide_eq_true_2 _ H1) in *. by apply (Hstep (String a "") s1 H1). }
  rewrite (bool_decide_eq_false_2 _ H1) in *.
  destruct s1 as [|b s2].
  { apply Hstop; [done|]. intros w r Hw.
    destruct (short_shape w Hw) as [(?&->)|[(?&?&->)|(?&?&?&->)]];
      rewrite ?append_cons, ?append_nil; [|done..].
    intros [= -> _]. done. }
  destruct (decide (String a (String b "") ∈ ws)) as [H2|H2].
  { rewrite (bool_decide_eq_true_2 _ H2) in *.
    by apply (Hstep (String a (String b "")) s2 H2). }
  rewrite (bool_decide_eq_false_2 _ H2) in *.
  destruct s2 as [|c s3].
  { apply Hstop; [done|]. intros w r Hw.
    destruct (short_shape w Hw) as [(?&->)|[(?&?&->)|(?&?&?&->)]];
      rewrite ?append_cons, ?append_nil; [| |done].
    - intros [= -> _]. done.
    - intros [= -> -> _]. done. }
  destruct (decide (String a (String b (String c "")) ∈ ws)) as [H3|H3].
  { rewrite (bool_decide_eq_true_2 _ H3) in *.
    by apply (Hstep (String a (String b (String c ""))) s3 H3). }
  rewrite (bool_decide_eq_false_2 _ H3) in *.
  apply Hstop; [done|]. intros w r Hw.
  destruct (short_shape w Hw) as [(?&->)|[(?&?&->)|(?&?&?&->)]];
    rewrite ?append_cons, ?append_nil.
  - intros [= -> _]. done.
  - intros [= -> -> _]. done.
  - intros [= -> -> -> _]. done.
Qed.

Lemma strip_nil s : JS.strip ws s = "" ↔ ∃ l, Forall (fun w => w ∈ ws) l ∧ s = concat_all l.
Proof.
  split.
  - intros E. destruct (strip_spec s) as [(l & Hl & El) _]. rewrite E in El.
    exists l. by rewrite string_app_nil_r in El.
  - intros (l & Hl & ->). by apply strip_words.
Qed.

End Strip.

Section StripMore.
Context (ws : list string) (Hshort : short ws) (Hfree : prefix_free ws).

Lemma strip_stop s : (∀ w r, w ∈ ws -> s ≠ w +:+ r) -> JS.strip ws s = s.
Proof.
  intros Hno. destruct s as [|a s1]; [done|]. rewrite strip_unfold.
  rewrite bool_decide_eq_false_2 by (intros H; by apply (Hno _ s1 H)).
  destruct s1 as [|b s2]; [done|].
  rewrite bool_decide_eq_false_2 by (intros H; by apply (Hno _ s2 H)).
  destruct s2 as [|c s3]; [done|].
  by rewrite bool_decide_eq_false_2 by (intros H; by apply (Hno _ s3 H)).
Qed.

Lemma strip_idem s : JS.strip ws (JS.strip ws s) = JS.strip ws s.
Proof. apply strip_stop. by apply strip_spec. Qed.

Lemma strip_suffix s : ∃ p, s = p +:+ JS.strip ws s.
Proof. destruct (strip_spec ws Hshort s) as [(l & _ & E) _]. eauto. Qed.

End StripMore.

Lemma concat_all_app l1 l2 : concat_all (l1 ++ l2) = concat_all l1 +:+ concat_all l2.
Proof.
  induction l1 as [|w l1 IH]; [done|]. cbn [app concat_all fold_right].
  fold (concat_all (l1 ++ l2)). fold (concat_all l1). by rewrite IH, string_app_assoc.
Qed.

Lemma reverse_concat_all l :
  JS.reverse (concat_all l) = concat_all (rev (map JS.reverse l)).
Proof.
  induction l as [|w l IH]; [done|]. cbn [concat_all fold_right map rev].
  fold (concat_all l). rewrite reverse_app, IH, concat_all_app.
  cbn [concat_all fold_right]. by rewrite string_app_nil_r.
Qed.

(** *** White space *)

Lemma spaces_short : short JS.spaces.
Proof. apply (bool_decide_unpack _). vm_compute. exact I. Qed.

Lemma spaces_free : prefix_free JS.spaces.
Proof. apply (bool_decide_unpack _). vm_compute. exact I. Qed.

Lemma rspaces_short : short (map JS.reverse JS.spaces).
Proof. apply (bool_decide_unpack _). vm_compute. exact I. Qed.

Lemma rspaces_free : prefix_free (map JS.reverse JS.spaces).
Proof. apply (bool_decide_unpack _). vm_compute. exact I. Qed.

Lemma white_spec c : white c ↔ c ∈ JS.white_space.
Proof.
  unfold white, JS.white_space. rewrite !elem_of_cons, elem_of_nil. lia.
Qed.

Lemma space_word w : w ∈ JS.spaces ↔ ∃ c, white c ∧ w = JS.encode c.
Proof.
  unfold JS.spaces. rewrite list_elem_of_fmap. setoid_rewrite white_spec. naive_solver.
Qed.

Lemma only_spaces_words s :
  only_spaces s ↔ ∃ l, Forall (fun w => w ∈ JS.spaces) l ∧ s = concat_all l.
Proof.
  split.
  - intros (l & Hl & ->). exists (map JS.encode l). split.
    + apply Forall_fmap. eapply Forall_impl; [done|]. intros c Hc.
      apply space_word. eauto.
    + unfold JS.fromCodePoints, concat_all. by rewrite foldr_fmap.
  - intros (l & Hl & ->). induction Hl as [|w l Hw _ (cs & Hcs & E)].
    + by exists [].
    + apply space_word in Hw as (c & Hc & ->). exists (c :: cs).
      split; [by constructor|]. cbn [concat_all fold_right JS.fromCodePoints].
      fold (concat_all l). by rewrite E.
Qed.

Lemma trimStart_blank s : JS.trimStart s = "" ↔ only_spaces s.
Proof.
  unfold JS.trimStart. rewrite (strip_nil _ spaces_short spaces_free).
  by rewrite only_spaces_words.
Qed.

Lemma trimStart_clean s : ¬ starts_with_space (JS.trimStart s).
Proof.
  intros (c & rest & Hc & E).
  destruct (strip_spec _ spaces_short s) as [_ Hno].
  apply (Hno (JS.encode c) rest); [|done]. apply space_word. eauto.
Qed.

Lemma trimEnd_clean s : ¬ ends_with_space (JS.trimEnd s).
Proof.
  intros (c & pre & Hc & E). unfold JS.trimEnd in E.
  apply (f_equal JS.reverse) in E. rewrite reverse_involutive, reverse_app in E.
  destruct (strip_spec _ rspaces_short (JS.reverse s)) as [_ Hno].
  apply (Hno (JS.reverse (JS.encode c)) (JS.reverse pre)); [|done].
  apply list_elem_of_fmap. exists (JS.encode c). split; [done|]. apply space_word. eauto.
Qed.

Lemma trimEnd_prefix s : ∃ x, s = JS.trimEnd s +:+ x.
Proof.
  destruct (strip_suffix _ rspaces_short (JS.reverse s)) as [p E].
  exists (JS.reverse p). unfold JS.trimEnd. rewrite <- reverse_app, <- E.
  by rewrite reverse_involutive.
Qed.

Lemma trimEnd_blank s : JS.trimEnd s = "" ↔ only_spaces s.
Proof.
  unfold JS.trimEnd. rewrite reverse_nil, (strip_nil _ rspaces_short rspaces_free).
  rewrite only_spaces_words. split.
  - intros (l & Hl & E). exists (rev (map JS.reverse l)). split.
    + apply Forall_rev, Forall_fmap. eapply Forall_impl; [done|]. intros w Hw. unfold compose. cbv beta in *.
      apply list_elem_of_fmap in Hw as (w' & -> & Hw'). by rewrite reverse_involutive.
    + rewrite <- reverse_concat_all, <- E. by rewrite reverse_involutive.
  - intros (l & Hl & ->). exists (rev (map JS.reverse l)). split.
    + apply Forall_rev, Forall_fmap. eapply Forall_impl; [done|]. intros w Hw. unfold compose. cbv beta in *.
      apply list_elem_of_fmap. eauto.
    + apply reverse_concat_all.
Qed.

(** The test [!text.trim()] holds exactly for white-space-only text. *)
Lemma trim_blank s : JS.truthy (JS.trim s) = false ↔ only_spaces s.
Proof.
  assert (JS.truthy (JS.trim s) = false ↔ JS.trim s = "") as ->
    by (destruct (JS.trim s); naive_solver).
  unfold JS.trim. rewrite trimEnd_blank, <- !trimStart_blank.
  unfold JS.trimStart. by rewrite (strip_idem _ spaces_short).
Qed.

Lemma trim_clean s :
  ¬ starts_with_space (JS.trim s) ∧ ¬ ends_with_space (JS.trim s).
Proof.
  split; [|apply trimEnd_clean]. unfold JS.trim. intros (c & rest & Hc & E).
  destruct (trimEnd_prefix (JS.trimStart s)) as [x Ex].
  apply (trimStart_clean s). exists c, (rest +:+ x). split; [done|].
  by rewrite Ex at 1; rewrite E, string_app_assoc.
Qed.

Lemma trim_inside s : ∃ p x, s = p +:+ JS.trim s +:+ x.
Proof.
  destruct (strip_suffix _ spaces_short s) as [p Ep].
  destruct (trimEnd_prefix (JS.trimStart s)) as [x Ex].
  exists p, x. unfold JS.trim. by rewrite <- Ex.
Qed.

Lemma fetchComments_run talent_id (s : CommentsModal.State) w :
  CommentsModal.fetchComments talent_id s w =
  let w1 := mkWorld (db w) (next_fault w).2 (calls w ++ [SelectComments talent_id])
                    (now w) (alerts w) (console w) in
  match (next_fault w).1 with
  | Some e =>
      (Ok tt, CommentsModal.mk (CommentsModal.comments s) (CommentsModal.newComment s) false,
       with_console_error "Error fetching comments:" e w1)
  | None =>
      (Ok tt, CommentsModal.mk (CommentsModal.read_comments talent_id (db w))
                (CommentsModal.newComment s) false, w1)
  end.
Proof.
  unfold CommentsModal.fetchComments, bind, try_finally, try_catch,
    CommentsModal.setLoading, CommentsModal.setComments, set_state, query,
    console_error, throw.
  by destruct (next_fault w) as [[e|] rest].
Qed.

Lemma elem_of_read_comments tid d v :
  v ∈ CommentsModal.read_comments tid d
  ↔ ∃ c, v = CommentsModal.mkView c (Db.author_name c d)
         ∧ c ∈ Db.talent_comments d ∧ TalentComment.talent_id c = tid.
Proof.
  unfold CommentsModal.read_comments, Db.select_comments, Db.order_asc.
  rewrite list_elem_of_fmap. setoid_rewrite elem_of_order_desc.
  setoid_rewrite list_elem_of_filter. naive_solver.
Qed.

(** X8. [handlePostComment] sends nothing and changes nothing, the draft
    included, when nobody is signed in or when the draft is empty or white
    space only. *)
Theorem blank_comment_is_not_sent (user : option User) (talent_id : string)
    (s : CommentsModal.State) (w : World) :
  user = None ∨ only_spaces (CommentsModal.newComment s) ->
  CommentsModal.handlePostComment user talent_id s w = (Ok tt, s, w).
Proof.
  intros H. unfold CommentsModal.handlePostComment, bind, get_state.
  destruct user as [u|]; [|done]. destruct H as [|H]; [done|].
  apply trim_blank in H. by rewrite H.
Qed.

(** X9. A comment with visible text, posted by a signed-in viewer to a
    store that serves its requests: exactly two requests are sent, the
    insert carrying the draft as typed (not trimmed) and the query for this
    item's thread; the feed is not fetched. Afterwards the draft is empty,
    the thread shows the new comment, and every comment shown belongs to
    this item. *)
Theorem comment_posted (u : User) (talent_id : string)
    (s : CommentsModal.State) (w : World) :
  served w ->
  ¬ only_spaces (CommentsModal.newComment s) ->
  let x := CommentsModal.handlePostComment (Some u) talent_id s w in
  let text := CommentsModal.newComment s in
  sent w (world_of x)
  = [InsertComment text talent_id (User.id u); SelectComments talent_id]
  ∧ CommentsModal.newComment (state_of x) = ""
  ∧ CommentsModal.loading (state_of x) = false
  ∧ (∃ v, v ∈ CommentsModal.comments (state_of x)
          ∧ TalentComment.content (CommentsModal.comment v) = text
          ∧ TalentComment.user_id (CommentsModal.comment v) = User.id u
          ∧ TalentComment.talent_id (CommentsModal.comment v) = talent_id)
  ∧ (∀ v, v ∈ CommentsModal.comments (state_of x) ->
          TalentComment.talent_id (CommentsModal.comment v) = talent_id)
  ∧ alerts (world_of x) = alerts w.
Proof.
  intros Hs Hvis x text.
  assert (JS.truthy (JS.trim text) = true) as Ht.
  { destruct (JS.truthy (JS.trim text)) eqn:E; [done|]. by apply trim_blank in E. }
  set (d1 := Db.insert_comment text talent_id (User.id u) (db w)).
  set (w1 := after_call (InsertComment text talent_id (User.id u)) d1 w).
  assert (served w1) as Hs1 by (by apply served_tail).
  assert (x = (Ok tt, CommentsModal.mk (CommentsModal.read_comments talent_id d1) "" false,
               after_call (SelectComments talent_id) d1 w1)) as ->.
  { subst x. unfold CommentsModal.handlePostComment, bind at 1, get_state.
    fold text. rewrite Ht. cbn [negb]. unfold try_catch at 1, bind at 1.
    rewrite (command_served _ _ _ _ Hs). cbn [Reply.error]. fold d1 w1.
    unfold bind, CommentsModal.setNewComment, set_state, try_catch.
    rewrite fetchComments_run. cbv zeta. rewrite (next_fault_served w1 Hs1). done. }
  unfold world_of, state_of.
  cbn [fst snd CommentsModal.comments CommentsModal.newComment CommentsModal.loading].
  split; [apply sent_app; cbn; by rewrite <- app_assoc|].
  split; [done|]. split; [done|]. split; [|split; [|done]].
  - set (c := TalentComment.mk (Db.fresh_id (db w)) (Db.clock (db w)) text (User.id u)
                               talent_id).
    exists (CommentsModal.mkView c (Db.author_name c d1)). split; [|done].
    apply elem_of_read_comments. exists c. split; [done|]. split; [|done].
    unfold d1, Db.insert_comment. cbn [Db.talent_comments Db.with_serial Db.with_talent_comments].
    apply elem_of_app. right. by apply list_elem_of_singleton.
  - intros v Hv. apply elem_of_read_comments in Hv as (c & -> & _ & E). done.
Qed.

(** ** User management *)

Lemma lowerIncludes_spec (P : string -> Prop) (field : option string) q :
  (∀ text, field = Some text -> JS.includes (JS.toLowerCase text) q = true ↔ P text) ->
  AdminUserManagement.lowerIncludes field q = true ↔ ∃ text, field = Some text ∧ P text.
Proof.
  intros HP. destruct field as [text|]; simpl.
  - rewrite (HP text eq_refl). naive_solver.
  - split; [done|]. by intros (? & ? & _).
Qed.

(** X10. The user search keeps, in their order, exactly the users whose
    name or email, lower-cased, contains the lower-cased search text; a
    user whose name and email are both null is never kept by a non-empty
    search text. When the search text, the name and the email are basic
    Latin text, these are the users whose name or email contains the search
    text as a case-insensitive substring. With the empty text the whole
    list is returned. *)
Theorem filteredUsers_spec (s : AdminUserManagement.State) :
  let q := AdminUserManagement.searchQuery s in
  (∀ p, p ∈ AdminUserManagement.filteredUsers s
        ↔ p ∈ AdminUserManagement.users s
          ∧ (q = ""
             ∨ (∃ name, Profile.full_name p = Some name ∧ contains_lowered name q)
             ∨ (∃ email, Profile.email p = Some email ∧ contains_lowered email q)))
  ∧ (basic_latin q ->
     ∀ p, basic_latin_field (Profile.full_name p) -> basic_latin_field (Profile.email p) ->
          (p ∈ AdminUserManagement.filteredUsers s
           ↔ p ∈ AdminUserManagement.users s
             ∧ (q = ""
                ∨ (∃ name, Profile.full_name p = Some name
                           ∧ contains_ignoring_case name q)
                ∨ (∃ email, Profile.email p = Some email
                            ∧ contains_ignoring_case email q))))
  ∧ sublist (AdminUserManagement.filteredUsers s) (AdminUserManagement.users s)
  ∧ (q = "" -> AdminUserManagement.filteredUsers s = AdminUserManagement.users s).
Proof.
  intros q. unfold AdminUserManagement.filteredUsers. fold q.
  destruct q as [|c q'] eqn:E; cbn [JS.truthy negb].
  { split; [|split; [|done]]; [intros p|intros _ p _ _]; tauto. }
  rewrite <- E. cbv zeta.
  split; [|split; [|split; [apply filter_sublist|by rewrite E]]].
  - intros p. rewrite list_elem_of_In, filter_In, <- list_elem_of_In.
    apply and_iff_compat_l. rewrite orb_true_iff.
    rewrite !(lowerIncludes_spec (fun text => contains_lowered text q))
      by (intros; apply includes_lowered).
    split; [tauto|]. intros [Hq|H]; [by rewrite E in Hq|done].
  - intros Hq p Hn He. rewrite list_elem_of_In, filter_In, <- list_elem_of_In.
    apply and_iff_compat_l. rewrite orb_true_iff.
    rewrite (lowerIncludes_spec (fun text => contains_ignoring_case text q)
               (Profile.full_name p)).
    2:{ intros text Et. rewrite Et in Hn. by apply includes_basic. }
    rewrite (lowerIncludes_spec (fun text => contains_ignoring_case text q)
               (Profile.email p)).
    2:{ intros text Et. rewrite Et in He. by apply includes_basic. }
    split; [tauto|]. intros [Hq'|H]; [by rewrite E in Hq'|done].
Qed.

(** X11. Changing one user's role leaves every other profile as it is, and
    changes nothing but the role of the target: after the change every row
    of the fetched list is a stored profile, or a stored profile of the
    target's id with the new role, so names and emails (and with them the
    protected row) are the same as before. *)
Theorem role_change_frame (target : Profile) (newRole : string)
    (s : AdminUserManagement.State) (w : World) :
  Profile.email target ≠ Some AdminUserManagement.protectedEmail ->
  served w ->
  let x := change (AdminUserManagement.roleSelect target) newRole s w in
  (∀ p, p ∈ Db.profiles (db w) -> Profile.id p ≠ Profile.id target ->
        p ∈ AdminUserManagement.users (state_of x))
  ∧ (∀ q, q ∈ AdminUserManagement.users (state_of x) ->
          ∃ p, p ∈ Db.profiles (db w)
               ∧ (q = p ∨ (Profile.id p = Profile.id target
                           ∧ q = Profile.with_role newRole p)))
  ∧ length (AdminUserManagement.users (state_of x)) = length (Db.profiles (db w))
  ∧ Db.talents (db (world_of x)) = Db.talents (db w)
  ∧ Db.hostel_services (db (world_of x)) = Db.hostel_services (db w).
Proof.
  intros Hne Hs x. subst x. unfold change, AdminUserManagement.roleSelect.
  cbn [disabled onChange]. rewrite bool_decide_eq_false_2 by done.
  rewrite handleRoleChange_run. cbv zeta.
  rewrite (next_fault_served w Hs). cbn [fst snd].
  rewrite fetchAllUsers_run. cbv zeta.
  set (w1 := mkWorld _ _ _ _ _ _).
  assert (served w1) as Hs1.
  { unfold served, w1. cbn. unfold served in Hs. destruct (faults w); [done|].
    by apply Forall_cons in Hs as [_ ?]. }
  rewrite (next_fault_served w1 Hs1). unfold world_of, state_of. cbn.
  unfold Db.select_profiles, Db.update_profile_role. cbn.
  split; [|split; [|split; [|done]]].
  - intros p Hp Hn. apply elem_of_order_desc, list_elem_of_fmap. exists p.
    by rewrite decide_False.
  - intros q Hq. apply elem_of_order_desc, list_elem_of_fmap in Hq as (p & -> & Hp).
    exists p. split; [done|]. destruct (decide _); [by right|by left].
  - etransitivity; [apply Permutation_length, order_desc_perm|]. apply length_map.
Qed.

(** ** Service requests *)

Lemma fetchAllServices_run (s : AdminHostelServices.State) w :
  served w ->
  let data := Db.select_hostel_services (db w) in
  let ids := JS.set_to_array (map HostelService.user_id data) in
  ∃ w', AdminHostelServices.fetchAllServices s w
        = (Ok tt,
           AdminHostelServices.mk
             (AdminHostelServices.withProfiles (Db.select_profiles_brief_in ids (db w)) data)
             false "" (AdminHostelServices.expandedRow s), w')
        ∧ calls w' = calls w ++ SelectHostelServices
                     :: match data with
                        | [] => []
                        | _ => [SelectProfilesIn "id, full_name, email" ids]
                        end
        ∧ db w' = db w.
Proof.
  intros Hs data ids.
  unfold AdminHostelServices.fetchAllServices, bind, try_finally, try_catch,
    AdminHostelServices.setLoading, AdminHostelServices.setError,
    AdminHostelServices.setServices, set_state, console_error, throw.
  rewrite (query_served _ _ _ _ Hs). cbn [Reply.error Reply.data].
  subst ids data. destruct (Db.select_hostel_services (db w)) as [|r l] eqn:E.
  { eexists. split; [done|]. done. }
  rewrite query_served by (by apply served_tail).
  eexists. split; [done|]. cbn. by rewrite <- app_assoc.
Qed.

(** X12. The join of [fetchAllServices] on a store that serves its
    requests. With no request rows only the primary query is sent; otherwise
    exactly one more request follows, the batched [profiles] query over the
    duplicate-free list of the rows' [user_id]s. The list holds the primary
    rows in order, and a row's [profiles] is null exactly when no profile
    has its [user_id], and otherwise is the brief form of such a profile. *)
Theorem services_join (s : AdminHostelServices.State) (w : World) :
  served w ->
  let x := AdminHostelServices.fetchAllServices s w in
  let data := Db.select_hostel_services (db w) in
  let ids := JS.set_to_array (map HostelService.user_id data) in
  NoDup ids
  ∧ sent w (world_of x)
    = SelectHostelServices
      :: (if decide (Db.hostel_services (db w) = []) then []
          else [SelectProfilesIn "id, full_name, email" ids])
  ∧ map AdminHostelServices.row (AdminHostelServices.services (state_of x)) = data
  ∧ (∀ v, v ∈ AdminHostelServices.services (state_of x) ->
          (AdminHostelServices.profiles v = None
           ↔ ∀ p, p ∈ Db.profiles (db w) ->
                  Profile.id p ≠ HostelService.user_id (AdminHostelServices.row v))
          ∧ ∀ b, AdminHostelServices.profiles v = Some b ->
                 ∃ p, p ∈ Db.profiles (db w) ∧ b = ProfileBrief.of_profile p
                      ∧ Profile.id p = HostelService.user_id (AdminHostelServices.row v))
  ∧ AdminHostelServices.loading (state_of x) = false
  ∧ AdminHostelServices.error (state_of x) = "".
Proof.
  intros Hs x data ids. split; [apply set_to_array_NoDup|].
  destruct (fetchAllServices_run s w Hs) as (w' & E & Hc & _).
  subst x. rewrite E. unfold world_of, state_of.
  cbn [fst snd AdminHostelServices.services AdminHostelServices.loading
       AdminHostelServices.error].
  fold data ids in Hc |- *. split.
  { apply sent_app. rewrite Hc. f_equal. f_equal.
    assert (data = [] ↔ Db.hostel_services (db w) = []) as Hnil.
    { unfold data, Db.select_hostel_services. split; intros H.
      - apply Permutation_nil_r. rewrite <- H. by rewrite order_desc_perm.
      - by rewrite H. }
    destruct (decide _) as [H|H]; [apply Hnil in H; by rewrite H|].
    destruct data; [by destruct H; apply Hnil|done]. }
  rewrite services_withProfiles_rows. split; [done|]. split; [|done].
  intros v Hv. unfold AdminHostelServices.withProfiles in Hv.
  apply list_elem_of_fmap in Hv as (r & -> & Hr). cbn.
  assert (HostelService.user_id r ∈ ids) as Hin.
  { apply elem_of_set_to_array, list_elem_of_fmap. eauto. }
  split.
  - rewrite new_Map_lookup_None. split.
    + intros H p Hp Ep. apply (H (ProfileBrief.of_profile p)); [|done].
      apply elem_of_select_profiles_brief_in. exists p. by rewrite Ep.
    + intros H b Hb. apply elem_of_select_profiles_brief_in in Hb as (p & -> & _ & Hp).
      by apply H.
  - intros b Hb. apply new_Map_lookup_Some in Hb as [Hb Hid].
    apply elem_of_select_profiles_brief_in in Hb as (p & -> & _ & Hp). eauto.
Qed.

(** X13. Row expansion. [toggleRow] sends nothing and touches only
    [expandedRow]: the row is expanded afterwards unless it was the expanded
    one, in which case no row is. Hence toggling a row twice leaves it
    expanded only if it was expanded to begin with; a different row that was
    expanded before is collapsed and stays collapsed. *)
Theorem toggleRow_twice (id : string) (s : AdminHostelServices.State) (w : World) :
  let x1 := AdminHostelServices.toggleRow id s w in
  let x2 := AdminHostelServices.toggleRow id (state_of x1) (world_of x1) in
  world_of x1 = w ∧ world_of x2 = w
  ∧ AdminHostelServices.services (state_of x2) = AdminHostelServices.services s
  ∧ AdminHostelServices.expandedRow (state_of x1)
    = (if decide (AdminHostelServices.expandedRow s = Some id) then None else Some id)
  ∧ AdminHostelServices.expandedRow (state_of x2)
    = (if decide (AdminHostelServices.expandedRow s = Some id) then Some id else None).
Proof.
  intros x1 x2. subst x1 x2.
  unfold AdminHostelServices.toggleRow, bind, get_state,
    AdminHostelServices.setExpandedRow, set_state, world_of, state_of.
  cbn. destruct (decide (AdminHostelServices.expandedRow s = Some id)) as [E|E]; cbn.
  - rewrite decide_False by done. done.
  - rewrite decide_True by done. done.
Qed.

(** ** The upload form *)

(** The pieces of [s.split(sep)]: the first is free of [sep]; a single
    piece is [s] itself; otherwise [s] ends with [sep] followed by the last
    piece, which is free of [sep]. *)
Lemma split_shape sep s :
  ∃ x xs, JS.split sep s = x :: xs
          ∧ free_of sep x
          ∧ Forall (free_of sep) xs
          ∧ (xs = [] -> x = s)
          ∧ (xs ≠ [] -> ∃ pre e, last xs = Some e ∧ s = pre +:+ String sep e).
Proof.
  induction s as [|c s (x & xs & E & Hx & Hxs & Hone & Hmany)]; simpl.
  { exists "", []. done. }
  rewrite E. destruct (decide (c = sep)) as [->|Hne].
  - exists "", (x :: xs). split; [done|]. split; [done|]. split; [by constructor|].
    split; [done|]. intros _. destruct xs as [|y ys].
    + exists "", x. rewrite (Hone eq_refl). done.
    + destruct (Hmany ltac:(done)) as (pre & e & Hl & ->).
      exists (String sep pre), e. done.
  - exists (String c x), xs. split; [done|]. split; [done|]. split; [done|]. split.
    + intros Hnil. by rewrite (Hone Hnil).
    + intros Hc. destruct (Hmany Hc) as (pre & e & Hl & ->). exists (String c pre), e. done.
Qed.

(** X14. The tags sent with an upload: every tag is non-empty, neither
    starts nor ends with a white space character (of any kind [trim]
    removes, the no-break space and the other Unicode spaces included) and
    holds no comma. *)
Theorem tagList_clean (tags tag : string) :
  tag ∈ UploadTalentModal.tagList tags ->
  tag ≠ "" ∧ ¬ starts_with_space tag ∧ ¬ ends_with_space tag ∧ free_of "," tag.
Proof.
  unfold UploadTalentModal.tagList. rewrite list_elem_of_In, filter_In, <- list_elem_of_In.
  intros [Hin Ht]. apply list_elem_of_fmap in Hin as (seg & -> & Hseg).
  split; [by intros E; rewrite E in Ht|].
  split; [apply trim_clean|]. split; [apply trim_clean|].
  destruct (split_shape "," tags) as (x & xs & E & Hx & Hxs & _).
  rewrite E in Hseg.
  assert (free_of "," seg) as Hfree.
  { apply elem_of_cons in Hseg as [->|Hseg]; [done|].
    by apply (proj1 (Forall_forall _ _) Hxs). }
  destruct (trim_inside seg) as (p & y & Eseg). rewrite Eseg in Hfree.
  by apply free_of_app in Hfree as [_ [? _]%free_of_app].
Qed.

(** X15. The extension used in the storage path holds no dot. For a file
    name without a dot it is the whole name; otherwise the name ends with a
    dot followed by it. *)
Theorem fileExt_spec (f : File) :
  free_of "." (UploadTalentModal.fileExt f)
  ∧ ((free_of "." (File.name f) ∧ UploadTalentModal.fileExt f = File.name f)
     ∨ ∃ stem, File.name f = stem +:+ "." +:+ UploadTalentModal.fileExt f).
Proof.
  unfold UploadTalentModal.fileExt, JS.pop.
  destruct (split_shape "." (File.name f)) as (x & xs & E & Hx & Hxs & Hone & Hmany).
  rewrite E. destruct xs as [|y ys].
  - cbn. rewrite <- (Hone eq_refl). split; [done|]. by left.
  - destruct (Hmany ltac:(done)) as (pre & e & Hl & Hn).
    rewrite last_cons, Hl. cbn. split.
    + apply (proj1 (Forall_forall _ _) Hxs). by apply last_Some_elem_of.
    + right. by exists pre.
Qed.

Lemma string_app_inv_l (a x y : string) : a +:+ x = a +:+ y -> x = y.
Proof. induction a as [|c a IH]; simpl; [done|]. intros [= ?]. auto. Qed.

Lemma string_app_inv_r (b x y : string) : x +:+ b = y +:+ b -> x = y.
Proof.
  revert y. induction x as [|c x IH]; intros [|d y] E; simpl in E.
  - done.
  - apply (f_equal String.length) in E. simpl in E. rewrite ?string_length_app in E.
    simpl in E. lia.
  - apply (f_equal String.length) in E. simpl in E. rewrite ?string_length_app in E.
    simpl in E. lia.
  - injection E as -> E. f_equal. by apply IH.
Qed.

(** X16. Storage paths. The path depends on the file only through its
    extension, so two files with the same extension sent by one user in the
    same millisecond get the same path; and one user never gets the same
    path at two different instants for files of one extension. *)
Theorem filePath_collisions (u : User) (n1 n2 : Timestamp) (f1 f2 : File) :
  UploadTalentModal.fileExt f1 = UploadTalentModal.fileExt f2 ->
  (UploadTalentModal.filePath u n1 f1 = UploadTalentModal.filePath u n2 f2 ↔ n1 = n2).
Proof.
  intros Hext. unfold UploadTalentModal.filePath. rewrite Hext. split; [|by intros ->].
  intros E. apply string_app_inv_l, string_app_inv_l in E.
  apply string_app_inv_r in E. by apply (inj pretty) in E.
Qed.

Lemma submit_upload_refused u (p : TalentShowcase.State) (s : UploadTalentModal.State)
    (file : File) w e rest :
  UploadTalentModal.mediaFile s = Some file ->
  faults w = Some e :: rest ->
  UploadTalentModal.submit (Some u) (p, s) w
  = (Ok tt,
     (p, UploadTalentModal.mk false (UploadTalentModal.formData s) (Some file) ""),
     with_alert ("Error uploading talent: " +:+ e)
       (with_console_error "Error uploading talent:" e
          (mkWorld (db w) rest
             (calls w ++ [StorageUpload (UploadTalentModal.filePath u (now w) file) file])
             (now w) (alerts w) (console w)))).
Proof.
  intros Hfile Hf.
  unfold UploadTalentModal.submit, UploadTalentModal.handleSubmit.
  unfold bind at 1. unfold get_own. cbn [snd]. rewrite Hfile.
  unfold bind at 1. unfold UploadTalentModal.setLoading at 1. unfold set_own at 1.
  cbn [fst snd]. unfold bind at 1. unfold UploadTalentModal.setFileError, set_own.
  cbn [fst snd]. unfold try_finally, try_catch. unfold bind at 1. unfold Date_now.
  unfold bind at 1. rewrite (command_failed _ _ _ _ _ _ Hf). cbn [Reply.error].
  unfold throw, bind, console_error, alert, UploadTalentModal.setLoading, set_own.
  cbn [fst snd UploadTalentModal.formData UploadTalentModal.mediaFile
       UploadTalentModal.fileError]. by rewrite Hfile.
Qed.

Lemma submit_insert_refused u (p : TalentShowcase.State) (s : UploadTalentModal.State)
    (file : File) w e rest :
  UploadTalentModal.mediaFile s = Some file ->
  faults w = None :: Some e :: rest ->
  let path := UploadTalentModal.filePath u (now w) file in
  let row := UploadTalentModal.newRow u (UploadTalentModal.formData s)
               (Db.getPublicUrl path (db w)) file in
  UploadTalentModal.submit (Some u) (p, s) w
  = (Ok tt,
     (p, UploadTalentModal.mk false (UploadTalentModal.formData s) (Some file) ""),
     with_alert ("Error uploading talent: " +:+ e)
       (with_console_error "Error uploading talent:" e
          (mkWorld (Db.upload path file (db w)) rest
             (calls w ++ [StorageUpload path file; InsertTalent row])
             (now w) (alerts w) (console w)))).
Proof.
  intros Hfile Hf path row.
  unfold UploadTalentModal.submit, UploadTalentModal.handleSubmit.
  unfold bind at 1. unfold get_own. cbn [snd]. rewrite Hfile.
  unfold bind at 1. unfold UploadTalentModal.setLoading at 1. unfold set_own at 1.
  cbn [fst snd]. unfold bind at 1. unfold UploadTalentModal.setFileError, set_own.
  cbn [fst snd]. unfold try_finally, try_catch. unfold bind at 1. unfold Date_now.
  fold path. unfold bind at 1. unfold command at 1. unfold next_fault at 1. rewrite Hf.
  cbn [Reply.error]. unfold bind at 1. unfold getPublicUrl at 1. cbn [db].
  change (Db.getPublicUrl path (Db.upload path file (db w)))
    with (Db.getPublicUrl path (db w)).
  rewrite publicUrl_truthy. cbn [negb]. fold row.
  unfold bind at 1. unfold command, next_fault. cbn [faults Reply.error].
  unfold throw, bind, console_error, alert, UploadTalentModal.setLoading, set_own.
  cbn [fst snd UploadTalentModal.formData UploadTalentModal.mediaFile
       UploadTalentModal.fileError db faults calls now alerts console].
  rewrite Hfile. unfold with_alert, with_console_error. cbn. by rewrite <- app_assoc.
Qed.

(** X17. A submission the store refuses. Refused at the upload: that one
    request is all that is sent and the store is as before. Refused at the
    insert: upload and insert have been sent, the file is in the bucket and
    no row of [talents] refers to it. Either way the store's message is
    alerted, the form stops loading and still holds the file, nothing is
    retried, and the parent is not told (no fetch, modal left open). *)
Theorem refused_submission (u : User) (p : TalentShowcase.State)
    (s : UploadTalentModal.State) (file : File) (w : World) (e : string)
    (rest : list (option string)) :
  UploadTalentModal.mediaFile s = Some file ->
  let x := UploadTalentModal.submit (Some u) (p, s) w in
  let path := UploadTalentModal.filePath u (now w) file in
  let row := UploadTalentModal.newRow u (UploadTalentModal.formData s)
               (Db.getPublicUrl path (db w)) file in
  ((faults w = Some e :: rest ->
      sent w (world_of x) = [StorageUpload path file] ∧ db (world_of x) = db w)
   ∧ (faults w = None :: Some e :: rest ->
      sent w (world_of x) = [StorageUpload path file; InsertTalent row]
      ∧ Db.talent_media (db (world_of x)) = Db.talent_media (db w) ++ [(path, file)]
      ∧ Db.talents (db (world_of x)) = Db.talents (db w)))
  ∧ (faults w = Some e :: rest ∨ faults w = None :: Some e :: rest ->
     alerts (world_of x) = alerts w ++ ["Error uploading talent: " +:+ e]
     ∧ (state_of x).1 = p
     ∧ UploadTalentModal.loading (state_of x).2 = false
     ∧ UploadTalentModal.mediaFile (state_of x).2 = Some file
     ∧ faults (world_of x) = rest).
Proof.
  intros Hfile x path row. subst x. split; [split|].
  - intros Hf. rewrite (submit_upload_refused _ _ _ _ _ _ _ Hfile Hf).
    unfold world_of. cbn. split; [by apply sent_app|done].
  - intros Hf. rewrite (submit_insert_refused _ _ _ _ _ _ _ Hfile Hf).
    unfold world_of. cbn. split; [by apply sent_app|done].
  - intros [Hf|Hf].
    + by rewrite (submit_upload_refused _ _ _ _ _ _ _ Hfile Hf).
    + by rewrite (submit_insert_refused _ _ _ _ _ _ _ Hfile Hf).
Qed.

Lemma handleFileChange_any {P} (files : list File) (p : P)
    (s : UploadTalentModal.State) w :
  ∃ s', UploadTalentModal.handleFileChange files (p, s) w = (Ok tt, (p, s'), w)
        ∧ UploadTalentModal.formData s' = UploadTalentModal.formData s
        ∧ (within_limit s -> within_limit s').
Proof.
  destruct files as [|file files]; [by exists s|].
  rewrite handleFileChange_run.
  destruct (UploadTalentModal.maxSize <? File.size file) eqn:E;
    (eexists; split; [done|]; split; [done|]); [done|].
  intros _. unfold within_limit. cbn. lia.
Qed.

Lemma chooseAll_any {P} (picks : list (list File)) (p : P)
    (s : UploadTalentModal.State) w :
  ∃ s', chooseAll picks (p, s) w = (Ok tt, (p, s'), w)
        ∧ UploadTalentModal.formData s' = UploadTalentModal.formData s
        ∧ (within_limit s -> within_limit s').
Proof.
  revert s. induction picks as [|files picks IH]; intros s; [by exists s|].
  destruct (handleFileChange_any files p s w) as (s1 & E1 & Hf1 & Hl1).
  destruct (IH s1) as (s' & E & Hf & Hl).
  exists s'. cbn [chooseAll]. unfold bind. rewrite E1, E.
  split; [done|]. split; [congruence|auto].
Qed.

(** X18. Whatever is picked in the file dialog, in whatever order and
    however often, nothing is sent while picking, and a submission that
    follows on a store that serves its requests never uploads a file above
    the size limit. *)
Theorem no_oversize_upload (picks : list (list File)) (u : User)
    (p : TalentShowcase.State) (w : World) :
  served w ->
  let x0 := chooseAll picks (p, UploadTalentModal.initialState) w in
  let x := (chooseAll picks ;; UploadTalentModal.submit (Some u))
             (p, UploadTalentModal.initialState) w in
  world_of x0 = w
  ∧ ∀ path f, StorageUpload path f ∈ sent w (world_of x) ->
              File.size f <= UploadTalentModal.maxSize.
Proof.
  intros Hs x0 x.
  destruct (chooseAll_any picks p UploadTalentModal.initialState w) as (s' & E & _ & Hl).
  specialize (Hl I). subst x0 x. unfold bind. rewrite E. split; [done|].
  intros path f. destruct (UploadTalentModal.mediaFile s') as [file|] eqn:Hfile.
  - destruct (submit_served u p s' file w Hs Hfile) as (cs & Hsent & Hro & _).
    cbv zeta in Hsent. rewrite Hsent. unfold within_limit in Hl. rewrite Hfile in Hl.
    intros Hin. apply elem_of_cons in Hin as [[= _ <-]|Hin]; [done|].
    apply elem_of_cons in Hin as [|Hin]; [done|].
    assert (StorageUpload path f ∈ List.filter is_write cs) as Hw.
    { apply list_elem_of_In, filter_In. split; [by apply list_elem_of_In|done]. }
    rewrite Hro in Hw. by apply elem_of_nil in Hw.
  - rewrite submit_nothing_selected by done. unfold world_of. cbn [snd].
    rewrite sent_refl. intros Hin. by apply elem_of_nil in Hin.
Qed.

(** X19. A refused pick does not clear the earlier selection. After a file
    within the limit has been picked and then one above it, the form shows
    the size error but still holds the first file, and a submission on a
    store that serves its requests uploads and inserts that first file. *)
Theorem earlier_selection_is_uploaded (good huge : File) (u : User)
    (p : TalentShowcase.State) (s : UploadTalentModal.State) (w : World) :
  File.size good <= UploadTalentModal.maxSize ->
  UploadTalentModal.maxSize < File.size huge ->
  served w ->
  let x0 := chooseAll [[good]; [huge]] (p, s) w in
  let x := UploadTalentModal.submit (Some u) (state_of x0) (world_of x0) in
  let path := UploadTalentModal.filePath u (now w) good in
  let row := UploadTalentModal.newRow u (UploadTalentModal.formData s)
               (Db.getPublicUrl path (db w)) good in
  UploadTalentModal.mediaFile (state_of x0).2 = Some good
  ∧ UploadTalentModal.fileError (state_of x0).2
    = "File is too large. Please select a file smaller than 10MB."
  ∧ List.filter is_write (sent w (world_of x)) = [StorageUpload path good; InsertTalent row].
Proof.
  intros Hgood Hhuge Hs x0 x path row.
  assert (x0 = (Ok tt,
                (p, UploadTalentModal.mk (UploadTalentModal.loading s)
                      (UploadTalentModal.formData s) (Some good)
                      "File is too large. Please select a file smaller than 10MB."), w))
    as Ex0.
  { subst x0. cbn [chooseAll]. unfold bind. rewrite handleFileChange_run.
    assert ((UploadTalentModal.maxSize <? File.size good) = false) as -> by lia.
    rewrite handleFileChange_run.
    assert ((UploadTalentModal.maxSize <? File.size huge) = true) as -> by lia.
    done. }
  subst x. rewrite Ex0. unfold state_of, world_of. cbn [fst snd].
  split; [done|]. split; [done|].
  set (s1 := UploadTalentModal.mk _ _ (Some good) _).
  destruct (submit_served u p s1 good w Hs eq_refl) as (cs & Hsent & Hro & _).
  cbv zeta in Hsent. unfold world_of in Hsent. rewrite Hsent.
  cbn [List.filter is_write]. by rewrite Hro.
Qed.

(** X20. Changing the status of one request leaves every other request as
    it is and changes only [status] and [updated_at] of the target: each row
    stored afterwards is a row stored before, or such a row of the given id
    with the new status and time. No row is added or removed and no other
    table is written. *)
Theorem status_change_frame (serviceId newStatus : string)
    (s : AdminHostelServices.State) (w : World) :
  served w ->
  let x := AdminHostelServices.handleStatusChange serviceId newStatus s w in
  (∀ r, r ∈ Db.hostel_services (db w) -> HostelService.id r ≠ serviceId ->
        r ∈ Db.hostel_services (db (world_of x)))
  ∧ (∀ q, q ∈ Db.hostel_services (db (world_of x)) ->
          ∃ r, r ∈ Db.hostel_services (db w)
               ∧ (q = r ∨ (HostelService.id r = serviceId
                           ∧ q = HostelService.with_status newStatus (now w) r)))
  ∧ map HostelService.id (Db.hostel_services (db (world_of x)))
    = map HostelService.id (Db.hostel_services (db w))
  ∧ Db.profiles (db (world_of x)) = Db.profiles (db w)
  ∧ Db.talents (db (world_of x)) = Db.talents (db w)
  ∧ List.filter is_write (sent w (world_of x))
    = [UpdateHostelService serviceId newStatus (now w)].
Proof.
  intros Hs x. subst x. rewrite handleStatusChange_run. cbv zeta.
  rewrite (next_fault_served w Hs). cbn [fst snd].
  set (w1 := mkWorld _ _ _ _ _ _).
  assert (served w1) as Hs1 by apply (served_tail _ _ _ Hs).
  destruct (fetchAllServices_run s w1 Hs1) as (w' & E & Hc & Hdb).
  unfold try_catch. rewrite E. unfold world_of. cbn [fst snd]. rewrite Hdb.
  subst w1. cbn [db calls] in *. unfold Db.update_hostel_service.
  cbn [Db.hostel_services Db.with_hostel_services Db.profiles Db.talents].
  split; [|split; [|split; [|split; [done|split; [done|]]]]].
  - intros r Hr Hn. apply list_elem_of_fmap. exists r. by rewrite decide_False.
  - intros q Hq. apply list_elem_of_fmap in Hq as (r & -> & Hr). exists r.
    split; [done|]. destruct (decide _); [by right|by left].
  - rewrite map_map. apply map_ext. intros r. by destruct (decide _).
  - rewrite <- app_assoc in Hc. rewrite (sent_app _ _ _ Hc).
    by destruct (Db.select_hostel_services _).
Qed.

(** X21. Opening a thread. [fetchComments] ends with [loading = false] and
    the store untouched; when the query is served the thread holds exactly
    the stored comments of this item, each with its author's name if the
    author has a profile; when it is refused the thread is left as shown
    and the store's message is logged. *)
Theorem fetchComments_outcome (talent_id : string) (s : CommentsModal.State) (w : World) :
  let x := CommentsModal.fetchComments talent_id s w in
  CommentsModal.loading (state_of x) = false
  ∧ CommentsModal.newComment (state_of x) = CommentsModal.newComment s
  ∧ db (world_of x) = db w
  ∧ sent w (world_of x) = [SelectComments talent_id]
  ∧ ((next_fault w).1 = None ->
     ∀ v, v ∈ CommentsModal.comments (state_of x)
          ↔ ∃ c, v = CommentsModal.mkView c (Db.author_name c (db w))
                 ∧ c ∈ Db.talent_comments (db w)
                 ∧ TalentComment.talent_id c = talent_id)
  ∧ (∀ e, (next_fault w).1 = Some e ->
          CommentsModal.comments (state_of x) = CommentsModal.comments s
          ∧ console (world_of x) = console w ++ [("Error fetching comments:", e)]).
Proof.
  intros x. subst x. rewrite fetchComments_run. cbv zeta.
  destruct (next_fault w).1 as [e|]; unfold state_of, world_of;
    cbn [fst snd CommentsModal.loading CommentsModal.newComment CommentsModal.comments
         db console with_console_error];
    (split; [done|]); (split; [done|]); (split; [done|]);
    (split; [by apply sent_app|]).
  - split; [done|]. by intros e' [= <-].
  - split; [|done]. intros _ v. apply elem_of_read_comments.
Qed.

(** X22. [fetchAllUsers] ends in one of two ways, with [loading = false]
    and the store untouched in both: the error text is empty and the list is
    the answer of the query, or the fixed error text is set, the store's
    message is logged and the list is the one shown before. *)
Theorem fetchAllUsers_outcome (s : AdminUserManagement.State) (w : World) :
  let x := AdminUserManagement.fetchAllUsers s w in
  result_of x = Ok tt
  ∧ AdminUserManagement.loading (state_of x) = false
  ∧ AdminUserManagement.searchQuery (state_of x) = AdminUserManagement.searchQuery s
  ∧ db (world_of x) = db w
  ∧ sent w (world_of x) = [SelectProfiles]
  ∧ ((AdminUserManagement.error (state_of x) = ""
      ∧ AdminUserManagement.users (state_of x) = Db.select_profiles (db w)
      ∧ console (world_of x) = console w)
     ∨ (AdminUserManagement.error (state_of x)
        = "Failed to fetch users. Ensure you are logged in as an admin."
        ∧ AdminUserManagement.users (state_of x) = AdminUserManagement.users s
        ∧ ∃ e, console (world_of x) = console w ++ [("Error fetching users:", e)])).
Proof.
  intros x. subst x. rewrite fetchAllUsers_run. cbv zeta.
  destruct (next_fault w).1 as [e|]; unfold result_of, state_of, world_of; cbn;
    (repeat split; try done; try (by apply sent_app)).
  - right. eauto.
  - by left.
Qed.

(** X23. A refused moderation write is reported and not repeated. When the
    store refuses the write of [handleStatusChange], [handleRoleChange] or a
    confirmed [handleDelete], that one request is all that is sent: no fetch
    follows, the component state and the store are as before, one alert is
    shown, and the answers scripted for later requests are not consumed. *)
Theorem refused_moderation_write (w : World) (e : string) (rest : list (option string))
    (id value : string) (hs : AdminHostelServices.State)
    (us : AdminUserManagement.State) (ts : AdminTalentShowcase.State) :
  faults w = Some e :: rest ->
  let x1 := AdminHostelServices.handleStatusChange id value hs w in
  let x2 := AdminUserManagement.handleRoleChange id value us w in
  let x3 := AdminTalentShowcase.handleDelete true id ts w in
  (state_of x1 = hs ∧ db (world_of x1) = db w ∧ faults (world_of x1) = rest
   ∧ sent w (world_of x1) = [UpdateHostelService id value (now w)]
   ∧ alerts (world_of x1) = alerts w ++ ["Failed to update status."])
  ∧ (state_of x2 = us ∧ db (world_of x2) = db w ∧ faults (world_of x2) = rest
     ∧ sent w (world_of x2) = [UpdateProfileRole id value]
     ∧ alerts (world_of x2) = alerts w ++ ["Failed to update role: " +:+ e])
  ∧ (state_of x3 = ts ∧ db (world_of x3) = db w ∧ faults (world_of x3) = rest
     ∧ sent w (world_of x3) = [DeleteTalent id]
     ∧ alerts (world_of x3) = alerts w ++ ["Failed to delete talent: " +:+ e]).
Proof.
  intros Hf x1 x2 x3.
  destruct (refused_write_reported e rest w Hf) as (H1 & H2 & H3 & _).
  subst x1 x2 x3. rewrite H1, H2, H3. unfold state_of, world_of. cbn.
  repeat split; try done; by apply sent_app.
Qed.

(** * Worked instances of the further properties *)

Lemma fetchTalents_stops_at_refusal_witness :
  sent Cases.refusing
       (world_of (TalentShowcase.fetchTalents (Some Scenario.viewer) Scenario.stale
                    Cases.refusing))
  = [SelectTalents created_at]
  ∧ sent Cases.refusing_second
         (world_of (TalentShowcase.fetchTalents (Some Scenario.viewer) Scenario.stale
                      Cases.refusing_second))
    = [SelectTalents created_at; SelectProfilesIn "*" ["u1"; "u9"]].
Proof.
  split.
  - apply (fetchTalents_stops_at_refusal (Some Scenario.viewer) Scenario.stale
             Cases.refusing "permission denied" []). reflexivity.
  - apply (fetchTalents_stops_at_refusal (Some Scenario.viewer) Scenario.stale
             Cases.refusing_second "row-level security" []).
    + reflexivity.
    + vm_compute. discriminate.
Defined.

Lemma fetched_profile_is_owner_witness :
  Scenario.alice ∈ Db.profiles (db Scenario.world)
  ∧ Profile.id Scenario.alice = Talent.user_id Scenario.song.
Proof.
  apply (fetched_profile_is_owner (Some Scenario.viewer) Scenario.fresh Scenario.world
           eq_refl
           (TalentShowcase.mkView Scenario.song (Some Scenario.alice) true) Scenario.alice).
  - vm_compute. right. right. left.
  - reflexivity.
Defined.

Lemma likes_keep_reactions_unique_witness :
  let x0 := TalentShowcase.fetchTalents (Some Scenario.viewer) Scenario.fresh
              Scenario.world in
  NoDup (Db.talent_likes
           (db (world_of (likeAll (Some Scenario.viewer) ["t1"; "t2"; "t2"; "t3"; "t1"]
                            (state_of x0) (world_of x0))))).
Proof.
  intros x0.
  apply (likes_keep_reactions_unique Scenario.viewer ["t1"; "t2"; "t2"; "t3"; "t1"]
           Scenario.fresh Scenario.world).
  - constructor.
  - apply NoDup_singleton.
Defined.

Lemma handleDelete_confirmed_witness :
  db (world_of (AdminTalentShowcase.handleDelete true "t2" Scenario.admin Scenario.world))
  = Db.delete_talent "t2" Scenario.store.
Proof.
  apply (handleDelete_confirmed "t2" Scenario.admin Scenario.world). constructor.
Defined.

Lemma admin_and_feed_agree_witness :
  map AdminTalentShowcase.row
      (AdminTalentShowcase.talents
         (state_of (AdminTalentShowcase.fetchAllTalents Scenario.admin Scenario.world)))
  = map TalentShowcase.row
        (TalentShowcase.talents
           (state_of (TalentShowcase.fetchTalents None Scenario.fresh Scenario.world))).
Proof.
  apply (admin_and_feed_agree None Scenario.fresh Scenario.admin Scenario.world).
  - constructor.
  - reflexivity.
Defined.

Lemma blank_comment_is_not_sent_witness :
  CommentsModal.handlePostComment (Some Scenario.viewer) "t1" Cases.blank Cases.world
  = (Ok tt, Cases.blank, Cases.world).
Proof.
  apply (blank_comment_is_not_sent (Some Scenario.viewer) "t1" Cases.blank Cases.world).
  right. exists [0x20; 0xA0; 0x2003; 0x9]%N. split; [|reflexivity].
  repeat constructor; unfold white; lia.
Defined.

Lemma comment_posted_witness :
  sent Cases.world
       (world_of (CommentsModal.handlePostComment (Some Scenario.viewer) "t1"
                    Cases.thread Cases.world))
  = [InsertComment "  Encore!  " "t1" "u1"; SelectComments "t1"].
Proof.
  apply (comment_posted Scenario.viewer "t1" Cases.thread Cases.world).
  - constructor.
  - intros H. apply trim_blank in H. vm_compute in H. discriminate H.
Defined.

Lemma filteredUsers_spec_witness :
  Scenario.alice ∈ AdminUserManagement.filteredUsers (Cases.people "ALICE@").
Proof.
  pose proof (filteredUsers_spec (Cases.people "ALICE@")) as (_ & H & _).
  apply H.
  - vm_compute. tauto.
  - vm_compute. tauto.
  - vm_compute. tauto.
  - split; [right; left|]. right. right. exists "alice@example.com".
    split; [reflexivity|]. exists "", "alice@", "example.com". split; [reflexivity|].
    repeat split;
      first [left; reflexivity
            |right; right; (split; [unfold capital|]; vm_compute; intuition discriminate)].
Defined.

(** The profile without name and email is found by no search text, and
    shown when there is none. *)
Example search_users :
  AdminUserManagement.filteredUsers (Cases.people "ALICE@") = [Scenario.alice]
  ∧ AdminUserManagement.filteredUsers (Cases.people "a") = [Scenario.root; Scenario.alice]
  ∧ AdminUserManagement.filteredUsers (Cases.people "")
    = [Scenario.root; Scenario.alice; Cases.nameless].
Proof. vm_compute. done. Qed.

Lemma role_change_frame_witness :
  Scenario.root
  ∈ AdminUserManagement.users
      (state_of (change (AdminUserManagement.roleSelect Scenario.alice) "admin"
                        Scenario.users Scenario.world)).
Proof.
  apply (role_change_frame Scenario.alice "admin" Scenario.users Scenario.world).
  - vm_compute. discriminate.
  - constructor.
  - vm_compute. left.
  - vm_compute. discriminate.
Defined.

Lemma services_join_witness :
  sent Scenario.world
       (world_of (AdminHostelServices.fetchAllServices Scenario.services Scenario.world))
  = [SelectHostelServices; SelectProfilesIn "id, full_name, email" ["u1"]].
Proof.
  apply (services_join Scenario.services Scenario.world). constructor.
Defined.

Lemma tagList_clean_witness :
  "jazz" ≠ "" ∧ ¬ starts_with_space "jazz" ∧ ¬ ends_with_space "jazz"
  ∧ free_of "," "jazz".
Proof.
  apply (tagList_clean Cases.spaced "jazz"). vm_compute. right. left.
Defined.

(** A tag that is only a no-break space is dropped, and a no-break space
    after a tag is removed. *)
Example tags_with_no_break_spaces :
  UploadTalentModal.tagList Cases.spaced = ["rock"; "jazz"; "pop"].
Proof. vm_compute. reflexivity. Qed.

Example tags_of_form :
  UploadTalentModal.tagList (UploadTalentModal.tags (UploadTalentModal.formData Cases.picked))
  = ["hiphop"; "street"].
Proof. reflexivity. Qed.

Example extension_of_clip : UploadTalentModal.fileExt Scenario.clip = "mp4".
Proof. reflexivity. Qed.

Lemma filePath_collisions_witness :
  UploadTalentModal.filePath Scenario.viewer 9000 Scenario.clip
  = UploadTalentModal.filePath Scenario.viewer 9000 (File.mk "other.mp4" 7 "video/mp4")
  ∧ UploadTalentModal.filePath Scenario.viewer 9000 Scenario.clip
    ≠ UploadTalentModal.filePath Scenario.viewer 9001 Scenario.clip.
Proof.
  split.
  - apply (filePath_collisions Scenario.viewer 9000 9000 Scenario.clip
             (File.mk "other.mp4" 7 "video/mp4")); reflexivity.
  - intros E.
    apply (filePath_collisions Scenario.viewer 9000 9001 Scenario.clip Scenario.clip)
      in E; [discriminate E|reflexivity].
Defined.

Lemma refused_submission_witness :
  sent Cases.refusing_second
       (world_of (UploadTalentModal.submit (Some Scenario.viewer)
                    (Scenario.fresh, Cases.picked) Cases.refusing_second))
  = [StorageUpload "u1-9000.mp4" Scenario.clip;
     InsertTalent
       (NewTalent.mk "u1" "Reel" "Dance" "Dance"
          "https://project.example/storage/v1/object/public/talent-media/u1-9000.mp4"
          "video" ["hiphop"; "street"])]
  ∧ Db.talents
      (db (world_of (UploadTalentModal.submit (Some Scenario.viewer)
                       (Scenario.fresh, Cases.picked) Cases.refusing_second)))
    = Db.talents Cases.store.
Proof.
  pose proof (refused_submission Scenario.viewer Scenario.fresh Cases.picked Scenario.clip
                Cases.refusing_second "row-level security" [] eq_refl) as H.
  cbv zeta in H. destruct H as [[_ H] _]. destruct (H eq_refl) as (H1 & _ & H3).
  split; [exact H1|exact H3].
Defined.

Lemma no_oversize_upload_witness :
  StorageUpload "u1-9000.mp4" Scenario.clip
  ∈ sent Scenario.world
      (world_of ((chooseAll [[Scenario.huge]; []; [Scenario.clip]; [Scenario.huge]] ;;
                  UploadTalentModal.submit (Some Scenario.viewer))
                   (Scenario.fresh, UploadTalentModal.initialState) Scenario.world))
  ∧ File.size Scenario.clip <= UploadTalentModal.maxSize.
Proof.
  assert (StorageUpload "u1-9000.mp4" Scenario.clip
          ∈ sent Scenario.world
              (world_of ((chooseAll [[Scenario.huge]; []; [Scenario.clip]; [Scenario.huge]] ;;
                          UploadTalentModal.submit (Some Scenario.viewer))
                           (Scenario.fresh, UploadTalentModal.initialState) Scenario.world)))
    as Hin by (vm_compute; left).
  split; [exact Hin|].
  pose proof (no_oversize_upload [[Scenario.huge]; []; [Scenario.clip]; [Scenario.huge]]
                Scenario.viewer Scenario.fresh Scenario.world) as H.
  cbv zeta in H. destruct H as [_ H]; [constructor|].
  exact (H "u1-9000.mp4" Scenario.clip Hin).
Defined.

Lemma earlier_selection_is_uploaded_witness :
  let x0 := chooseAll [[Scenario.clip]; [Scenario.huge]]
              (Scenario.fresh, UploadTalentModal.initialState) Scenario.world in
  UploadTalentModal.mediaFile (state_of x0).2 = Some Scenario.clip
  ∧ UploadTalentModal.fileError (state_of x0).2
    = "File is too large. Please select a file smaller than 10MB.".
Proof.
  intros x0.
  pose proof (earlier_selection_is_uploaded Scenario.clip Scenario.huge Scenario.viewer
                Scenario.fresh UploadTalentModal.initialState Scenario.world) as H.
  cbv zeta in H. destruct H as (H1 & H2 & _).
  - vm_compute. discriminate.
  - vm_compute. reflexivity.
  - constructor.
  - split; [exact H1|exact H2].
Defined.

Lemma status_change_frame_witness :
  List.filter is_write
    (sent Scenario.world
       (world_of (AdminHostelServices.handleStatusChange "req-1" "In Progress"
                    Scenario.services Scenario.world)))
  = [UpdateHostelService "req-1" "In Progress" 9000].
Proof.
  apply (status_change_frame "req-1" "In Progress" Scenario.services Scenario.world).
  constructor.
Defined.

Lemma fetchComments_outcome_witness :
  CommentsModal.mkView Cases.praise (Some "Alice")
  ∈ CommentsModal.comments
      (state_of (CommentsModal.fetchComments "t1" Cases.thread Cases.world)).
Proof.
  apply (fetchComments_outcome "t1" Cases.thread Cases.world).
  - reflexivity.
  - exists Cases.praise. split; [reflexivity|]. split; [|reflexivity].
    vm_compute. left.
Defined.

Lemma refused_moderation_write_witness :
  sent Cases.refusing
       (world_of (AdminTalentShowcase.handleDelete true "t2" Scenario.admin Cases.refusing))
  = [DeleteTalent "t2"]
  ∧ alerts (world_of (AdminTalentShowcase.handleDelete true "t2" Scenario.admin
                        Cases.refusing))
    = ["Failed to delete talent: permission denied"].
Proof.
  pose proof (refused_moderation_write Cases.refusing "permission denied" [] "t2" "user"
                Scenario.services Scenario.users Scenario.admin eq_refl) as H.
  cbv zeta in H. destruct H as (_ & _ & _ & _ & _ & H1 & H2).
  split; [exact H1|exact H2].
Defined.
